(** * A shallow embedding of the segregated-free-list allocator of
      src/malloc_lab.c (the file that calls itself mm.c)

    The allocator works on a flat, byte-addressed heap obtained from the
    heap primitive [mem_sbrk].  Every C function is written here as a
    function in a monad of state, faults and fuel over that heap: a load or
    a store outside the current heap range is a fault, and a loop that
    follows pointers takes fuel.  Integers are [Z] with the wrap-around of
    the C types written out; memory is little endian, as on the x86-64
    machines the allocator is written for.

    The file has four parts: the model, the definitions used to state the
    properties, lemmas about the model, and one section per claim. *)

From Stdlib Require Import ZArith List Lia Bool.
Import ListNotations.
Open Scope Z_scope.

(** ** Machine integers *)

Definition wrap64 (x : Z) : Z := x mod 2 ^ 64.
Definition wrap32 (x : Z) : Z := x mod 2 ^ 32.

(** [char *] arithmetic on a 64-bit machine. *)
Definition padd (p n : Z) : Z := wrap64 (p + n).

Definition NULL : Z := 0.

(** ** Byte-addressed memory, little endian *)

Definition mem := Z -> Z.

Fixpoint load (n : nat) (m : mem) (a : Z) : Z :=
  match n with
  | O => 0
  | S k => m a mod 256 + 256 * load k m (a + 1)
  end.

Fixpoint store (n : nat) (m : mem) (a v : Z) : mem :=
  match n with
  | O => m
  | S k => store k (fun x => if x =? a then v mod 256 else m x) (a + 1) (v / 256)
  end.

(** ** The heap: memory, the heap primitive's bounds, and mm.c's globals *)

Record heap := mkHeap {
  contents : mem;
  mem_start_brk : Z;   (* first byte of the heap *)
  mem_brk : Z;         (* one past the last byte of the heap *)
  mem_max_addr : Z;    (* one past the last byte the heap may ever reach *)
  heap_ptr : Z;        (* static char *heap_ptr *)
  heap_start : Z       (* char *heap_start *)
}.

Definition set_contents (h : heap) (m : mem) : heap :=
  mkHeap m (mem_start_brk h) (mem_brk h) (mem_max_addr h) (heap_ptr h) (heap_start h).
Definition set_brk (h : heap) (b : Z) : heap :=
  mkHeap (contents h) (mem_start_brk h) b (mem_max_addr h) (heap_ptr h) (heap_start h).
Definition set_heap_ptr (h : heap) (p : Z) : heap :=
  mkHeap (contents h) (mem_start_brk h) (mem_brk h) (mem_max_addr h) p (heap_start h).
Definition set_heap_start (h : heap) (p : Z) : heap :=
  mkHeap (contents h) (mem_start_brk h) (mem_brk h) (mem_max_addr h) (heap_ptr h) p.

(** ** The monad: state, faults, fuel *)

Inductive fault : Type :=
| BadRead (a : Z)
| BadWrite (a : Z).

Inductive outcome (A : Type) : Type :=
| Ok (x : A) (h : heap)
| Fault (f : fault)
| OutOfFuel.
Arguments Ok {A} x h.
Arguments Fault {A} f.
Arguments OutOfFuel {A}.

Definition M (A : Type) : Type := heap -> outcome A.

Definition ret {A} (x : A) : M A := fun h => Ok x h.
Definition bind {A B} (c : M A) (k : A -> M B) : M B :=
  fun h => match c h with
           | Ok x h' => k x h'
           | Fault f => Fault f
           | OutOfFuel => OutOfFuel
           end.

Notation "x <- c ;; k" := (bind c (fun x => k))
  (at level 61, c at next level, right associativity).
Notation "c ;; k" := (bind c (fun _ => k))
  (at level 61, right associativity).

Definition valid (h : heap) (p : Z) (n : nat) : bool :=
  (mem_start_brk h <=? p) && (p + Z.of_nat n <=? mem_brk h).

Definition load_at (n : nat) (p : Z) : M Z :=
  fun h => if valid h p n then Ok (load n (contents h) p) h else Fault (BadRead p).
Definition store_at (n : nat) (p v : Z) : M unit :=
  fun h => if valid h p n
           then Ok tt (set_contents h (store n (contents h) p v))
           else Fault (BadWrite p).

Definition get_heap_ptr : M Z := fun h => Ok (heap_ptr h) h.
Definition get_heap_start : M Z := fun h => Ok (heap_start h) h.
Definition put_heap_ptr (p : Z) : M unit := fun h => Ok tt (set_heap_ptr h p).
Definition put_heap_start (p : Z) : M unit := fun h => Ok tt (set_heap_start h p).

(** ** The heap primitive *)

(** Modelled from the spec: the heap primitive [extend(n)] of section 6.1
    (memlib's [mem_sbrk] is not part of the sources).  It advances the brk by
    [n] bytes and returns the old brk, or reports an error on exhaustion; the
    error value is the all-ones pointer, which is what the test
    [(long) bp < 0] in [extend_heap] recognises. *)
Definition mem_sbrk (incr : Z) : M Z :=
  fun h => if (incr <? 0) || (mem_max_addr h <? mem_brk h + incr)
           then Ok (2 ^ 64 - 1) h
           else Ok (mem_brk h) (set_brk h (mem_brk h + incr)).

(** Modelled from the spec: the boundary queries [lo()] and [hi()] of
    section 6.1, the lowest and the highest address of the heap. *)
Definition mem_heap_lo : M Z := fun h => Ok (mem_start_brk h) h.
Definition mem_heap_hi : M Z := fun h => Ok (mem_brk h - 1) h.

(** ** Constants and macros of mm.c *)

Definition WSIZE : Z := 4.
Definition DSIZE : Z := 8.
Definition CHUNKSIZE : Z := 168.
Definition OVERHEAD : Z := 8.
Definition MIN_BLOCK_SIZE : Z := 24.

Definition PACK (size alloc : Z) : Z := Z.lor size alloc.

Definition GET (p : Z) : M Z := load_at 8 p.
Definition PUT (p val : Z) : M unit := store_at 8 p val.
Definition GET_4 (p : Z) : M Z := load_at 4 p.
Definition PUT_4 (p val : Z) : M unit := store_at 4 p val.

(** [~0x7] is the int -8; against an [unsigned] it is 0xFFFFFFF8. *)
Definition GET_SIZE (p : Z) : M Z := v <- GET_4 p ;; ret (Z.land v (2 ^ 32 - 8)).
Definition GET_PREV_ALLOC (p : Z) : M Z := v <- GET_4 p ;; ret (Z.land v 2).
Definition GET_ALLOC (p : Z) : M Z := v <- GET_4 p ;; ret (Z.land v 1).

Definition HDRP (bp : Z) : Z := padd bp (- WSIZE).
Definition FTRP (bp : Z) : M Z :=
  s <- GET_SIZE (HDRP bp) ;; ret (padd (padd bp s) (- DSIZE)).
Definition NEXT_BLKP (bp : Z) : M Z :=
  s <- GET_SIZE (padd bp (- WSIZE)) ;; ret (padd bp s).
Definition PREV_BLKP (bp : Z) : M Z :=
  s <- GET_SIZE (padd bp (- DSIZE)) ;; ret (padd bp (- s)).

Definition NEXT_FREE (bp : Z) : Z := bp.
Definition PREV_FREE (bp : Z) : Z := padd bp DSIZE.

Definition ALLOC : Z := 1.
Definition PREV_ALLOC : Z := 2.

Definition NO_OF_LISTS : Z := 12.

Definition LIST0_SIZE : Z := 128.
Definition LIST1_SIZE : Z := 256.
Definition LIST2_SIZE : Z := 512.
Definition LIST3_SIZE : Z := 1024.
Definition LIST4_SIZE : Z := 2048.
Definition LIST5_SIZE : Z := 4096.
Definition LIST6_SIZE : Z := 8192.
Definition LIST7_SIZE : Z := 16834.
Definition LIST8_SIZE : Z := 32768.
Definition LIST9_SIZE : Z := 65536.
Definition LIST10_SIZE : Z := 131072.

Definition LIST_0 : Z := 0.
Definition LIST_1 : Z := 8.
Definition LIST_2 : Z := 16.
Definition LIST_3 : Z := 24.
Definition LIST_4 : Z := 32.
Definition LIST_5 : Z := 40.
Definition LIST_6 : Z := 48.
Definition LIST_7 : Z := 56.
Definition LIST_8 : Z := 64.
Definition LIST_9 : Z := 72.
Definition LIST_10 : Z := 80.
Definition LIST_11 : Z := 88.

(** ** Size classes *)

Definition get_index (asize : Z) : Z :=
  if asize <=? LIST0_SIZE then 0
  else if asize <=? LIST1_SIZE then 1
  else if asize <=? LIST2_SIZE then 2
  else if asize <=? LIST3_SIZE then 3
  else if asize <=? LIST4_SIZE then 4
  else if asize <=? LIST5_SIZE then 5
  else if asize <=? LIST6_SIZE then 6
  else if asize <=? LIST7_SIZE then 7
  else if asize <=? LIST8_SIZE then 8
  else if asize <=? LIST9_SIZE then 9
  else if asize <=? LIST10_SIZE then 10
  else 11.

Definition find_list (ind : Z) : Z :=
  if ind =? 0 then LIST_0
  else if ind =? 1 then LIST_1
  else if ind =? 2 then LIST_2
  else if ind =? 3 then LIST_3
  else if ind =? 4 then LIST_4
  else if ind =? 5 then LIST_5
  else if ind =? 6 then LIST_6
  else if ind =? 7 then LIST_7
  else if ind =? 8 then LIST_8
  else if ind =? 9 then LIST_9
  else if ind =? 10 then LIST_10
  else LIST_11.

Definition find_list_by_size (ind : Z) : Z :=
  if ind <=? LIST0_SIZE then LIST_0
  else if ind <=? LIST1_SIZE then LIST_1
  else if ind <=? LIST2_SIZE then LIST_2
  else if ind <=? LIST3_SIZE then LIST_3
  else if ind <=? LIST4_SIZE then LIST_4
  else if ind <=? LIST5_SIZE then LIST_5
  else if ind <=? LIST6_SIZE then LIST_6
  else if ind <=? LIST7_SIZE then LIST_7
  else if ind <=? LIST8_SIZE then LIST_8
  else if ind <=? LIST9_SIZE then LIST_9
  else if ind <=? LIST10_SIZE then LIST_10
  else LIST_11.

Definition get_list_size (index : Z) : Z :=
  if index =? 0 then LIST0_SIZE
  else if index =? 1 then LIST1_SIZE
  else if index =? 2 then LIST2_SIZE
  else if index =? 3 then LIST3_SIZE
  else if index =? 4 then LIST4_SIZE
  else if index =? 5 then LIST5_SIZE
  else if index =? 6 then LIST6_SIZE
  else if index =? 7 then LIST7_SIZE
  else if index =? 8 then LIST8_SIZE
  else if index =? 9 then LIST9_SIZE
  else LIST10_SIZE.

(** ** The segregated free lists *)

Definition add_free_blk (bp size : Z) : M unit :=
  let list_num := find_list_by_size size in
  hp <- get_heap_ptr ;;
  let fit_seg := padd hp list_num in
  fit_blk <- GET (padd hp list_num) ;;
  if negb (fit_blk =? NULL) then
    PUT fit_seg bp ;;
    PUT (PREV_FREE bp) NULL ;;
    PUT (PREV_FREE fit_blk) bp ;;
    PUT (NEXT_FREE bp) fit_blk
  else
    PUT fit_seg bp ;;
    PUT (PREV_FREE bp) NULL ;;
    PUT (NEXT_FREE bp) NULL.

Definition rem_free_blk (bp size : Z) : M unit :=
  next_free_blk <- GET (NEXT_FREE bp) ;;
  prev_free_blk <- GET (PREV_FREE bp) ;;
  let list_num := find_list_by_size size in
  hp <- get_heap_ptr ;;
  if (prev_free_blk =? NULL) && (next_free_blk =? NULL) then
    PUT (padd hp list_num) NULL
  else if (prev_free_blk =? NULL) && negb (next_free_blk =? NULL) then
    PUT (padd hp list_num) next_free_blk ;;
    PUT (PREV_FREE next_free_blk) NULL
  else if negb (prev_free_blk =? NULL) && (next_free_blk =? NULL) then
    PUT (NEXT_FREE prev_free_blk) NULL
  else
    PUT (NEXT_FREE prev_free_blk) next_free_blk ;;
    PUT (PREV_FREE next_free_blk) prev_free_blk.

(** ** Coalescing, placement, extension *)

Definition coalesce (bp : Z) : M Z :=
  size <- GET_SIZE (HDRP bp) ;;
  prev_blk <- PREV_BLKP bp ;;
  let prev_hdr := HDRP prev_blk in
  next_blk <- NEXT_BLKP bp ;;
  next_size <- GET_SIZE (HDRP next_blk) ;;
  nb <- NEXT_BLKP bp ;;
  next_alloc <- GET_ALLOC (HDRP nb) ;;
  prev_alloc <- GET_PREV_ALLOC (HDRP bp) ;;
  let check := Z.lor prev_alloc next_alloc in
  if check =? 3 then
    ret bp
  else if check =? 2 then
    rem_free_blk bp size ;;
    rem_free_blk next_blk next_size ;;
    let size := wrap64 (size + next_size) in
    PUT_4 (HDRP bp) (PACK size prev_alloc) ;;
    f <- FTRP bp ;;
    PUT_4 f (PACK size prev_alloc) ;;
    add_free_blk bp size ;;
    ret bp
  else if check =? 1 then
    prev_size <- GET_SIZE prev_hdr ;;
    rem_free_blk bp size ;;
    rem_free_blk prev_blk prev_size ;;
    let size := wrap64 (size + prev_size) in
    pa <- GET_PREV_ALLOC prev_hdr ;;
    PUT_4 prev_hdr (PACK size pa) ;;
    f <- FTRP prev_blk ;;
    v <- GET_4 prev_hdr ;;
    PUT_4 f v ;;
    add_free_blk prev_blk size ;;
    ret prev_blk
  else if check =? 0 then
    prev_size <- GET_SIZE prev_hdr ;;
    rem_free_blk bp size ;;
    rem_free_blk prev_blk prev_size ;;
    rem_free_blk next_blk next_size ;;
    let size := wrap64 (size + wrap64 (prev_size + next_size)) in
    pa <- GET_PREV_ALLOC prev_hdr ;;
    PUT_4 prev_hdr (PACK size pa) ;;
    f <- FTRP prev_blk ;;
    v <- GET_4 prev_hdr ;;
    PUT_4 f v ;;
    add_free_blk prev_blk size ;;
    ret prev_blk
  else
    ret bp.

Definition place (bp asize : Z) : M unit :=
  blk_size <- GET_SIZE (HDRP bp) ;;
  let extra := wrap64 (blk_size - asize) in
  next_blk <- NEXT_BLKP bp ;;
  rem_free_blk bp blk_size ;;
  if MIN_BLOCK_SIZE <=? extra then
    pa <- GET_PREV_ALLOC (HDRP bp) ;;
    PUT_4 (HDRP bp) (PACK asize (Z.lor pa ALLOC)) ;;
    next_blk <- NEXT_BLKP bp ;;
    PUT_4 (HDRP next_blk) (Z.lor extra PREV_ALLOC) ;;
    f <- FTRP next_blk ;;
    PUT_4 f (Z.lor extra PREV_ALLOC) ;;
    add_free_blk next_blk extra
  else
    pa <- GET_PREV_ALLOC (HDRP bp) ;;
    PUT_4 (HDRP bp) (PACK blk_size (Z.lor pa ALLOC)) ;;
    v <- GET_4 (HDRP next_blk) ;;
    PUT_4 (HDRP next_blk) (Z.lor v PREV_ALLOC) ;;
    a <- GET_ALLOC (HDRP next_blk) ;;
    if a =? 0 then
      f <- FTRP next_blk ;;
      w <- GET_4 (HDRP next_blk) ;;
      PUT_4 f w
    else ret tt.

Definition extend_heap (words : Z) : M Z :=
  bp <- mem_sbrk words ;;
  if 2 ^ 63 <=? bp then           (* (long) bp < 0 *)
    ret NULL
  else
    pa <- GET_PREV_ALLOC (HDRP bp) ;;
    PUT_4 (HDRP bp) (PACK words (Z.lor (Z.lor 0 pa) 0)) ;;
    f <- FTRP bp ;;
    v <- GET_4 (HDRP bp) ;;
    PUT_4 f v ;;
    nb <- NEXT_BLKP bp ;;
    PUT_4 (HDRP nb) (PACK 0 1) ;;
    add_free_blk bp words ;;
    coalesce bp.

(** ** Searching the lists *)

(** The [while (fit_blk != NULL)] loop of [find_block_in_list]. *)
Fixpoint find_block_loop (fuel : nat) (size fit_blk : Z) : M Z :=
  match fuel with
  | O => fun _ => OutOfFuel
  | S fuel' =>
      if fit_blk =? NULL then ret fit_blk
      else
        s <- GET_SIZE (HDRP fit_blk) ;;
        if size <=? s then ret fit_blk
        else
          nx <- GET (NEXT_FREE fit_blk) ;;
          find_block_loop fuel' size nx
  end.

Definition find_block_in_list (fuel : nat) (index size : Z) : M Z :=
  let fit_list := find_list index in
  hp <- get_heap_ptr ;;
  fit_blk <- GET (padd hp fit_list) ;;
  find_block_loop fuel size fit_blk.

(** The [for (i = index; i < NO_OF_LISTS; i++)] loop of [find_fit]; [n] is
    the number of lists still to visit. *)
Fixpoint find_fit_loop (fuel : nat) (n : nat) (i asize : Z) : M Z :=
  match n with
  | O => ret NULL
  | S n' =>
      bp <- find_block_in_list fuel i asize ;;
      if negb (bp =? NULL) then ret bp
      else find_fit_loop fuel n' (i + 1) asize
  end.

Definition find_fit (fuel : nat) (asize : Z) : M Z :=
  let index := get_index asize in
  find_fit_loop fuel (Z.to_nat (NO_OF_LISTS - index)) index asize.

(** ** The public interface *)

(** The adjusted size [asize] computed at the head of [malloc]; [~0x7]
    against a [size_t] is 2^64 - 8. *)
Definition malloc_asize (size : Z) : Z :=
  if size <=? 2 * DSIZE then MIN_BLOCK_SIZE
  else Z.land (wrap64 (wrap64 (size + WSIZE) + 7)) (2 ^ 64 - 8).

Definition malloc (fuel : nat) (size : Z) : M Z :=
  if size <=? 0 then ret NULL
  else
    let asize := malloc_asize size in
    bp <- find_fit fuel asize ;;
    if negb (bp =? NULL) then
      place bp asize ;;
      ret bp
    else
      let extendsize := Z.max asize CHUNKSIZE in
      bp <- extend_heap extendsize ;;
      if bp =? NULL then ret NULL
      else
        place bp asize ;;
        ret bp.

Definition free (bp : Z) : M unit :=
  if bp =? NULL then ret tt
  else
    nb <- NEXT_BLKP bp ;;
    let header_next := HDRP nb in
    size <- GET_SIZE (HDRP bp) ;;
    s1 <- GET_SIZE header_next ;;
    a1 <- GET_ALLOC header_next ;;
    PUT_4 header_next (Z.lor (Z.lor s1 0) a1) ;;
    pa <- GET_PREV_ALLOC (HDRP bp) ;;
    PUT_4 (HDRP bp) (Z.lor (Z.lor size pa) 0) ;;
    f <- FTRP bp ;;
    v <- GET_4 (HDRP bp) ;;
    PUT_4 f v ;;
    add_free_blk bp size ;;
    coalesce bp ;;
    ret tt.

(** The C library's [memcpy]: [n] bytes, one at a time, lowest address
    first. *)
Fixpoint memcpy_loop (n : nat) (dst src : Z) : M unit :=
  match n with
  | O => ret tt
  | S n' =>
      b <- load_at 1 src ;;
      store_at 1 dst b ;;
      memcpy_loop n' (padd dst 1) (padd src 1)
  end.

Definition memcpy (dst src n : Z) : M unit := memcpy_loop (Z.to_nat n) dst src.

Definition realloc (fuel : nat) (oldptr size : Z) : M Z :=
  if size =? 0 then
    free oldptr ;;
    ret NULL
  else if oldptr =? NULL then
    malloc fuel size
  else
    s <- GET_SIZE (HDRP oldptr) ;;
    let oldsize := wrap32 (s - OVERHEAD) in
    if size <=? oldsize then ret oldptr
    else
      newptr <- malloc fuel size ;;
      if newptr =? NULL then ret NULL
      else
        memcpy newptr oldptr size ;;
        free oldptr ;;
        ret newptr.

(** The [for (i = 0; i < nmemb; i++)] loop of [calloc]; [n] is the number
    of iterations still to run. *)
Fixpoint calloc_loop (n : nat) (temp size : Z) : M unit :=
  match n with
  | O => ret tt
  | S n' =>
      store_at 1 temp 0 ;;
      calloc_loop n' (padd temp size) size
  end.

Definition calloc (fuel : nat) (nmemb size : Z) : M Z :=
  let total_size := wrap64 (nmemb * size) in
  ptr <- malloc fuel total_size ;;
  calloc_loop (Z.to_nat nmemb) ptr size ;;
  ret ptr.

Definition mm_init : M Z :=
  p <- mem_sbrk (NO_OF_LISTS * DSIZE) ;;
  put_heap_ptr p ;;
  if p =? NULL then ret (-1)
  else
    PUT (padd p LIST_0) NULL ;;
    PUT (padd p LIST_1) NULL ;;
    PUT (padd p LIST_2) NULL ;;
    PUT (padd p LIST_3) NULL ;;
    PUT (padd p LIST_4) NULL ;;
    PUT (padd p LIST_5) NULL ;;
    PUT (padd p LIST_6) NULL ;;
    PUT (padd p LIST_7) NULL ;;
    PUT (padd p LIST_8) NULL ;;
    PUT (padd p LIST_9) NULL ;;
    PUT (padd p LIST_10) NULL ;;
    PUT (padd p LIST_11) NULL ;;
    q <- mem_sbrk (4 * WSIZE) ;;
    put_heap_start q ;;
    if q =? NULL then ret (-1)
    else
      PUT_4 q 0 ;;
      PUT_4 (padd q WSIZE) (PACK DSIZE 1) ;;
      PUT_4 (padd q (2 * WSIZE)) (PACK DSIZE 1) ;;
      PUT_4 (padd q (3 * WSIZE)) (PACK 0 (Z.lor PREV_ALLOC ALLOC)) ;;
      put_heap_start (padd q DSIZE) ;;
      r <- extend_heap CHUNKSIZE ;;
      if r =? NULL then ret (-1) else ret 0.

(** ** The consistency checker *)

Definition in_heap (p : Z) : M bool :=
  hi <- mem_heap_hi ;;
  lo <- mem_heap_lo ;;
  ret ((p <=? hi) && (lo <=? p)).

Definition aligned (p : Z) : bool :=
  Z.land (wrap64 (p + 7)) (2 ^ 64 - 8) =? p.

Definition check_alloc_blk (blk : Z) : M Z :=
  ih <- in_heap blk ;;
  if negb ih then ret 1
  else if negb (aligned blk) then ret 1
  else ret 0.

Definition check_free_blk (blk : Z) : M Z :=
  ih <- in_heap blk ;;
  if negb ih then ret 1
  else if negb (aligned blk) then ret 1
  else
    nx <- GET (NEXT_FREE blk) ;;
    bad_next <- (if negb (nx =? NULL)
                 then back <- GET (PREV_FREE nx) ;; ret (negb (back =? blk))
                 else ret false) ;;
    if bad_next then ret 1
    else
      pv <- GET (PREV_FREE blk) ;;
      bad_prev <- (if negb (pv =? NULL)
                   then fwd <- GET (NEXT_FREE pv) ;; ret (negb (fwd =? blk))
                   else ret false) ;;
      if bad_prev then ret 1
      else
        nb <- NEXT_BLKP blk ;;
        hn <- GET_4 (HDRP nb) ;;
        if negb (hn =? 1) && negb (hn =? 3) && (Z.land hn 1 =? 0) then ret 1
        else
          hd <- GET_4 (HDRP blk) ;;
          f <- FTRP blk ;;
          ft <- GET_4 f ;;
          if negb (hd =? ft) then ret 1 else ret 0.

(** The [while (hare != NULL && tortoise != NULL)] loop of
    [check_for_cycle]; [Some r] is an early [return r]. *)
Fixpoint cycle_loop (fuel : nat) (hare tortoise : Z) : M (option Z) :=
  match fuel with
  | O => fun _ => OutOfFuel
  | S fuel' =>
      if negb (hare =? NULL) && negb (tortoise =? NULL) then
        hare <- (if negb (hare =? NULL) then GET (NEXT_FREE hare) else ret hare) ;;
        tortoise <- (if negb (hare =? NULL) then GET (NEXT_FREE hare)
                     else ret tortoise) ;;
        if hare =? tortoise then ret (Some 1)
        else cycle_loop fuel' hare tortoise
      else ret None
  end.

(** The [for (i = 0; i < NO_OF_LISTS; i++)] loop of [check_for_cycle]. *)
Fixpoint cycle_lists (fuel : nat) (n : nat) (i : Z) : M Z :=
  match n with
  | O => ret 0
  | S n' =>
      let list_num := find_list i in
      hp <- get_heap_ptr ;;
      r <- cycle_loop fuel (padd hp list_num) (padd hp list_num) ;;
      match r with
      | Some v => ret v
      | None => cycle_lists fuel n' (i + 1)
      end
  end.

Definition check_for_cycle (fuel : nat) : M Z :=
  cycle_lists fuel (Z.to_nat NO_OF_LISTS) 0.

(** The [while (list_p != NULL)] loop of [check_seg_lists]; [Some r] is an
    early [return r]. *)
Fixpoint seg_list_loop (fuel : nat) (min_size max_size list_p : Z) : M (option Z) :=
  match fuel with
  | O => fun _ => OutOfFuel
  | S fuel' =>
      if list_p =? NULL then ret None
      else
        s <- GET_SIZE (HDRP list_p) ;;
        if negb ((min_size <? s) && (s <=? max_size)) then ret (Some 1)
        else
          nx <- GET (NEXT_FREE list_p) ;;
          seg_list_loop fuel' min_size max_size nx
  end.

(** The [for] loop of [check_seg_lists]; [~0] as a [size_t] is 2^64 - 1. *)
Fixpoint seg_lists (fuel : nat) (n : nat) (i : Z) : M Z :=
  match n with
  | O => ret 0
  | S n' =>
      let list_num := find_list i in
      let min_size := if i =? 0 then 0
                      else if i =? 11 then LIST10_SIZE
                      else get_list_size (i - 1) in
      let max_size := if i =? 0 then LIST0_SIZE
                      else if i =? 11 then 2 ^ 64 - 1
                      else get_list_size i in
      hp <- get_heap_ptr ;;
      list_p <- GET (padd hp list_num) ;;
      r <- seg_list_loop fuel min_size max_size list_p ;;
      match r with
      | Some v => ret v
      | None => seg_lists fuel n' (i + 1)
      end
  end.

Definition check_seg_lists (fuel : nat) : M Z :=
  seg_lists fuel (Z.to_nat NO_OF_LISTS) 0.

(** The inner [while (bp != NULL)] loop of [check_free_blk_count]. *)
Fixpoint count_ptr_loop (fuel : nat) (bp cnt : Z) : M Z :=
  match fuel with
  | O => fun _ => OutOfFuel
  | S fuel' =>
      if bp =? NULL then ret cnt
      else
        nx <- GET (NEXT_FREE bp) ;;
        count_ptr_loop fuel' nx (cnt + 1)
  end.

Fixpoint count_lists (fuel : nat) (n : nat) (i cnt : Z) : M Z :=
  match n with
  | O => ret cnt
  | S n' =>
      let list_num := find_list i in
      hp <- get_heap_ptr ;;
      bp <- GET (NEXT_FREE (padd hp list_num)) ;;
      cnt' <- count_ptr_loop fuel bp cnt ;;
      count_lists fuel n' (i + 1) cnt'
  end.

(** The block-by-block [while] loop of [check_free_blk_count]. *)
Fixpoint count_heap_loop (fuel : nat) (blk cnt : Z) : M Z :=
  match fuel with
  | O => fun _ => OutOfFuel
  | S fuel' =>
      hd <- GET_4 (HDRP blk) ;;
      if negb (hd =? 1) && negb (hd =? 3) then
        a <- GET_ALLOC (HDRP blk) ;;
        nb <- NEXT_BLKP blk ;;
        count_heap_loop fuel' nb (if a =? 0 then cnt + 1 else cnt)
      else ret cnt
  end.

Definition check_free_blk_count (fuel : nat) : M Z :=
  cnt_ptr <- count_lists fuel (Z.to_nat NO_OF_LISTS) 0 0 ;;
  hp <- get_heap_ptr ;;
  let blk := padd (NO_OF_LISTS * DSIZE + 2 * DSIZE) hp in
  cnt_heap <- count_heap_loop fuel blk 0 ;;
  if negb (cnt_heap =? cnt_ptr) then ret 1 else ret 0.

(** The heap walk of [mm_checkheap]; [inl r] is an early [return r],
    [inr blk] the block at which the walk stopped.  The diagnostic output
    is not modelled. *)
Fixpoint walk_heap (fuel : nat) (blk : Z) : M (Z + Z) :=
  match fuel with
  | O => fun _ => OutOfFuel
  | S fuel' =>
      hd <- GET_4 (HDRP blk) ;;
      if negb (hd =? 1) && negb (hd =? 3) then
        a <- GET_ALLOC (HDRP blk) ;;
        r <- (if a =? 0 then check_free_blk blk else check_alloc_blk blk) ;;
        if negb (r =? 0) then ret (inl 1)
        else
          nb <- NEXT_BLKP blk ;;
          walk_heap fuel' nb
      else ret (inr blk)
  end.

Definition mm_checkheap (fuel : nat) (verbose : Z) : M Z :=
  hs <- get_heap_start ;;
  s0 <- GET_SIZE (HDRP hs) ;;
  a0 <- GET_ALLOC (HDRP hs) ;;
  if negb (s0 =? DSIZE) || (a0 =? 0) then ret 1
  else
    check_alloc_blk hs ;;
    s1 <- GET_SIZE hs ;;
    a1 <- GET_ALLOC hs ;;
    if negb (s1 =? DSIZE) || (a1 =? 0) then ret 1
    else
      hp <- get_heap_ptr ;;
      let blk := padd (NO_OF_LISTS * DSIZE + 2 * DSIZE) hp in
      a <- GET_ALLOC (HDRP blk) ;;
      r <- (if a =? 0 then check_free_blk blk else ret 0) ;;
      if negb (r =? 0) then ret 1
      else
        w <- walk_heap fuel blk ;;
        match w with
        | inl v => ret v
        | inr blk =>
            se <- GET_SIZE (HDRP blk) ;;
            ae <- GET_ALLOC (HDRP blk) ;;
            if negb (se =? 0) || (ae =? 0) then ret 1
            else
              c1 <- check_for_cycle fuel ;;
              if negb (c1 =? 0) then ret 1
              else
                c2 <- check_seg_lists fuel ;;
                if negb (c2 =? 0) then ret 1
                else
                  c3 <- check_free_blk_count fuel ;;
                  if negb (c3 =? 0) then ret 1 else ret 0
        end.

(** * Definitions used to state the properties *)

(** ** The specification's size-class table and rounding *)

(** Inclusive upper bound of bucket [k] in the size-class table of the
    specification; [None] for the unbounded last bucket. *)
Definition spec_upper_bound (k : Z) : option Z :=
  if k =? 0 then Some 128
  else if k =? 1 then Some 256
  else if k =? 2 then Some 512
  else if k =? 3 then Some 1024
  else if k =? 4 then Some 2048
  else if k =? 5 then Some 4096
  else if k =? 6 then Some 8192
  else if k =? 7 then Some 16384
  else if k =? 8 then Some 32768
  else if k =? 9 then Some 65536
  else if k =? 10 then Some 131072
  else None.

(** The lowest-indexed bucket, from [k] on, whose upper bound is at least
    [s]. *)
Fixpoint spec_bucket_from (n : nat) (k s : Z) : Z :=
  match n with
  | O => k
  | S n' =>
      match spec_upper_bound k with
      | Some b => if s <=? b then k else spec_bucket_from n' (k + 1) s
      | None => k
      end
  end.

Definition spec_bucket (s : Z) : Z := spec_bucket_from 12 0 s.

(** [align8] of the specification: round up to a multiple of 8. *)
Definition align8 (x : Z) : Z := 8 * ((x + 7) / 8).

(** ** Running programs *)

(** [c] run from [h] returns [x]. *)
Definition returns {A} (c : M A) (h : heap) (x : A) : Prop :=
  exists h', c h = Ok x h'.

(** The heap left by [c]. *)
Definition exec {A} (c : M A) (h : heap) : heap :=
  match c h with
  | Ok _ h' => h'
  | _ => h
  end.

(** An empty heap at address 4096 that may grow by [room] bytes. *)
Definition empty_heap (room : Z) : heap :=
  mkHeap (fun _ => 0) 4096 4096 (4096 + room) 0 0.

Definition fresh_heap : heap := empty_heap 1048576.

(** The heap right after [mm_init]. *)
Definition init_heap : heap := exec mm_init fresh_heap.

(** ** Memory after list operations *)

Definition add_mem (m : mem) (slot bp : Z) : mem :=
  let hd := load 8 m slot in
  if hd =? NULL then
    store 8 (store 8 (store 8 m slot bp) (bp + 8) NULL) bp NULL
  else
    store 8 (store 8 (store 8 (store 8 m slot bp) (bp + 8) NULL) (hd + 8) bp) bp hd.

Definition rem_mem (m : mem) (slot bp : Z) : mem :=
  let nx := load 8 m bp in
  let pv := load 8 m (bp + 8) in
  if (pv =? NULL) && (nx =? NULL) then store 8 m slot NULL
  else if (pv =? NULL) && negb (nx =? NULL) then
    store 8 (store 8 m slot nx) (nx + 8) NULL
  else if negb (pv =? NULL) && (nx =? NULL) then store 8 m pv NULL
  else store 8 (store 8 m pv nx) (nx + 8) pv.

(** A free-list pointer [x] that is null, or a node above the bucket table
    whose link fields lie in the heap and outside the bytes [lo, hi). *)
Definition node_ok (h : heap) (x lo hi : Z) : Prop :=
  x = NULL \/
  (heap_ptr h + 96 <= x /\ x + 16 <= mem_brk h /\ (x + 16 <= lo \/ hi <= x)).

(** The heap primitive's lower bound never moves. *)
Definition lo_stable {A} (c : M A) : Prop :=
  forall h x h', c h = Ok x h' -> mem_start_brk h' = mem_start_brk h.

(** ** Lists without a cycle *)

(** [chain h p l]: following the [next] fields from [p] visits exactly the
    nodes [l] and then reaches null. *)
Inductive chain (h : heap) : Z -> list Z -> Prop :=
| chain_nil : chain h NULL []
| chain_cons p l :
    p <> NULL -> valid h p 8 = true ->
    chain h (load 8 (contents h) p) l -> chain h p (p :: l).

(** The node reached from [p] after [n] steps along the [next] fields. *)
Fixpoint nth_next (h : heap) (n : nat) (p : Z) : Z :=
  match n with
  | O => p
  | S n' => nth_next h n' (load 8 (contents h) p)
  end.

(** ** Test programs *)

(** Two blocks are freed with an allocated block after each, then one
    24-byte element is requested from [calloc]; the result is the pointer
    and its first two bytes. *)
Definition calloc_script : M (Z * Z * Z) :=
  mm_init ;;
  a <- malloc 16 24 ;;
  b <- malloc 16 24 ;;
  c <- malloc 16 24 ;;
  d <- malloc 16 24 ;;
  free a ;;
  free c ;;
  p <- calloc 16 1 24 ;;
  b0 <- load_at 1 p ;;
  b1 <- load_at 1 (p + 1) ;;
  ret (p, b0, b1).

(** A one-byte block [p] is followed by another live block [x] whose first
    byte the client sets to 171; [p] is then grown to 40 bytes.  The result
    lists [p], [x], the old payload size of [p], the new pointer [q], byte 24
    of [q] before and after the call, and the word at bytes 20..23 of [q]. *)
Definition realloc_script : M (Z * Z * Z * Z * Z * Z * Z) :=
  mm_init ;;
  p <- malloc 16 1 ;;
  x <- malloc 16 1 ;;
  store_at 1 x 171 ;;
  s <- GET_SIZE (HDRP p) ;;
  before <- load_at 1 (4256 + 24) ;;
  q <- realloc 16 p 40 ;;
  after <- load_at 1 (q + 24) ;;
  w <- load_at 4 (q + 20) ;;
  ret (p, x, s - OVERHEAD, q, before, after, w).

(** The last block [p] of the heap has an old payload of 56 bytes; the
    freed block [a] in front of it serves the request to grow [p] to 90. *)
Definition realloc_end_setup : M (Z * Z * Z * Z) :=
  mm_init ;;
  a <- malloc 16 100 ;;
  p <- malloc 16 40 ;;
  free a ;;
  s <- GET_SIZE (HDRP p) ;;
  hi <- mem_heap_hi ;;
  ret (a, p, s - OVERHEAD, hi).

Definition realloc_end_script : M Z :=
  mm_init ;;
  a <- malloc 16 100 ;;
  p <- malloc 16 40 ;;
  free a ;;
  realloc 16 p 90.

(** A block of 16392 bytes is allocated and, with its successor still
    allocated, freed; the result lists the block, its successor, its size and
    the heads of lists 7 and 8. *)
Definition size_class_script : M (Z * Z * Z * Z * Z) :=
  mm_init ;;
  p <- malloc 16 16385 ;;
  q <- malloc 16 160 ;;
  free p ;;
  s <- GET_SIZE (HDRP p) ;;
  hp <- get_heap_ptr ;;
  head7 <- GET (hp + LIST_7) ;;
  head8 <- GET (hp + LIST_8) ;;
  ret (p, q, s, head7, head8).

(** A heap that can hold exactly what [mm_init] sets up, after one
    allocation. *)
Definition oom_heap : heap := exec (mm_init ;; malloc 16 100) (empty_heap 280).

(** The first fit for 24 bytes is placed; the result lists the block, its
    size, the size of the remainder, the block following the remainder and
    that block's P bit. *)
Definition place_script : M (Z * Z * Z * Z * Z) :=
  mm_init ;;
  bp <- find_fit 16 24 ;;
  size <- GET_SIZE (HDRP bp) ;;
  place bp 24 ;;
  rest <- NEXT_BLKP bp ;;
  rest_size <- GET_SIZE (HDRP rest) ;;
  following <- NEXT_BLKP rest ;;
  p <- GET_PREV_ALLOC (HDRP following) ;;
  ret (bp, size, rest_size, following, p).

(** [blk] and its physical successor are both free: what invariant I4
    forbids and [check_free_blk] reports. *)
Definition adjacent_free (blk : Z) : M bool :=
  a <- GET_ALLOC (HDRP blk) ;;
  nb <- NEXT_BLKP blk ;;
  an <- GET_ALLOC (HDRP nb) ;;
  ret ((a =? 0) && (an =? 0)).

(** The largest [size_t] is requested and the returned pointer is freed. *)
Definition overflow_script : M (Z * bool * Z * Z) :=
  mm_init ;;
  p <- malloc 16 (2 ^ 64 - 1) ;;
  free p ;;
  both_free <- adjacent_free p ;;
  r <- check_free_blk p ;;
  c <- mm_checkheap 16 0 ;;
  ret (p, both_free, r, c).

(** The same request; the result is the pointer and its block size. *)
Definition huge_request_script : M (Z * Z) :=
  mm_init ;;
  p <- malloc 16 (2 ^ 64 - 1) ;;
  s <- GET_SIZE (HDRP p) ;;
  ret (p, s).

(** Block [a] is freed, block [b] is freed, and [a] is freed again. *)
Definition double_free_script : M (Z * Z) :=
  mm_init ;;
  a <- malloc 16 24 ;;
  x <- malloc 16 24 ;;
  b <- malloc 16 24 ;;
  y <- malloc 16 24 ;;
  free a ;;
  free b ;;
  free a ;;
  ret (a, b).

Definition cyclic_heap : heap := exec double_free_script fresh_heap.

(** Block [a] is free and heads the smallest list; block [c] is still
    allocated. *)
Definition two_free_script : M (Z * Z) :=
  mm_init ;;
  a <- malloc 16 24 ;;
  x <- malloc 16 24 ;;
  c <- malloc 16 24 ;;
  y <- malloc 16 24 ;;
  free a ;;
  ret (a, c).

Definition one_free_heap : heap := exec two_free_script fresh_heap.

(** ** Blocks, free lists and fits *)

(** The size field of the header of block [x]. *)
Definition size_of (h : heap) (x : Z) : Z :=
  Z.land (load 4 (contents h) (HDRP x)) (2 ^ 32 - 8).

(** The A bit of block [x] is 0. *)
Definition is_free (h : heap) (x : Z) : bool :=
  Z.land (load 4 (contents h) (HDRP x)) 1 =? 0.

(** A block pointer that [find_fit] may return for [asize]: null, or a block
    whose header can be read and records at least [asize] bytes. *)
Definition fits (h : heap) (asize bp : Z) : Prop :=
  bp = NULL \/ (valid h (HDRP bp) 4 = true /\ asize <= size_of h bp).

(** The first node of [l] whose block has at least [size] bytes, or null. *)
Fixpoint first_fit (h : heap) (size : Z) (l : list Z) : Z :=
  match l with
  | [] => NULL
  | p :: l' => if size <=? size_of h p then p else first_fit h size l'
  end.

(** List [i] of [h] holds the nodes [l], each with a readable header. *)
Definition list_is (h : heap) (i : Z) (l : list Z) : Prop :=
  chain h (load 8 (contents h) (heap_ptr h + 8 * i)) l /\
  (forall x, In x l -> valid h (HDRP x) 4 = true).

(** The nodes of [l] lie in the heap above the bucket table, and the link
    fields of two of them never overlap. *)
Definition nodes_apart (h : heap) (l : list Z) : Prop :=
  (forall x, In x l -> heap_ptr h + 96 <= x /\ x + 16 <= mem_brk h) /\
  (forall x y, In x l -> In y l -> x = y \/ x + 16 <= y \/ y + 16 <= x).

(** Block [x] has a size of class [i]. *)
Definition in_class (h : heap) (i x : Z) : bool :=
  (0 <? size_of h x) && (get_index (size_of h x) =? i).

(** The nodes of lists [i], ..., [i + n - 1]. *)
Definition nodes_from (L : Z -> list Z) (i : Z) (n : nat) : list Z :=
  concat (map (fun k => L (i + Z.of_nat k)) (seq 0 n)).

(** [blocks h blk l]: walking from block [blk] by the size fields visits the
    blocks [l] and then reaches a header that holds 1 or 3, the epilogue. *)
Inductive blocks (h : heap) : Z -> list Z -> Prop :=
| blocks_nil blk :
    valid h (HDRP blk) 4 = true ->
    load 4 (contents h) (HDRP blk) = 1 \/ load 4 (contents h) (HDRP blk) = 3 ->
    blocks h blk []
| blocks_cons blk l :
    valid h (HDRP blk) 4 = true ->
    load 4 (contents h) (HDRP blk) <> 1 ->
    load 4 (contents h) (HDRP blk) <> 3 ->
    blocks h (padd blk (size_of h blk)) l ->
    blocks h blk (blk :: l).

(** The nodes of list [j] in the heap that [mm_init] builds at [b]. *)
Definition initial_nodes (b j : Z) : list Z :=
  if j =? 1 then [b + 112] else [].

(** ** The free lists as a whole *)

(** [prevs h pv l]: the [prev] link of the first node of [l] holds [pv] and
    that of every other node holds the node before it. *)
Fixpoint prevs (h : heap) (pv : Z) (l : list Z) : Prop :=
  match l with
  | [] => True
  | x :: l' => load 8 (contents h) (x + 8) = pv /\ prevs h x l'
  end.

(** The list [l] without the node [x]. *)
Definition without (x : Z) (l : list Z) : list Z :=
  filter (fun y => negb (y =? x)) l.

(** The twelve free lists of [h] are the doubly linked lists [L 0], ...,
    [L 11]: list [i], read from its slot along the [next] fields, visits the
    nodes [L i] and ends in null; the [prev] link of every node holds the
    node before it, null for the first; the nodes lie in the heap above the
    table of slots; no node occurs twice; and the link fields of two nodes
    never overlap. *)
Definition free_lists (h : heap) (L : Z -> list Z) : Prop :=
  (forall i, 0 <= i < 12 ->
     chain h (load 8 (contents h) (heap_ptr h + 8 * i)) (L i) /\
     prevs h NULL (L i)) /\
  (forall i x, 0 <= i < 12 -> In x (L i) ->
     heap_ptr h + 96 <= x /\ x + 16 <= mem_brk h) /\
  (forall i j x y, 0 <= i < 12 -> 0 <= j < 12 -> In x (L i) -> In y (L j) ->
     (x = y /\ i = j) \/ x + 16 <= y \/ y + 16 <= x) /\
  (forall i, 0 <= i < 12 -> NoDup (L i)).

(** The lists [L] with [x] put in front of list [c]. *)
Definition push (c x : Z) (L : Z -> list Z) : Z -> list Z :=
  fun i => if i =? c then x :: L i else L i.

(** The lists [L] with the node [x] taken out. *)
Definition drop (x : Z) (L : Z -> list Z) : Z -> list Z :=
  fun i => without x (L i).

(** The lists of a heap whose only nodes are the nodes [l] of list [c]. *)
Definition just (c : Z) (l : list Z) : Z -> list Z :=
  fun i => if i =? c then l else [].

(** ** What an operation may do to the bounds *)

(** A program that leaves the heap primitive's bounds and the allocator's
    globals alone and can only move the brk upwards, never past the limit. *)
Definition grows_only {A} (c : M A) : Prop :=
  forall h x h', c h = Ok x h' ->
    mem_start_brk h' = mem_start_brk h /\
    mem_max_addr h' = mem_max_addr h /\
    heap_ptr h' = heap_ptr h /\
    heap_start h' = heap_start h /\
    mem_brk h <= mem_brk h' /\
    (mem_brk h <= mem_max_addr h -> mem_brk h' <= mem_max_addr h').

(** ** More test heaps *)

(** The first request takes the whole initial block: no free block is
    left. *)
Definition full_heap : heap := exec (mm_init ;; malloc 16 160) fresh_heap.

(** Block [a] is freed while the block behind it is still allocated: the
    smallest list holds [a] and, behind it, the rest of the initial block. *)
Definition front_free_script : M Z :=
  mm_init ;;
  a <- malloc 16 24 ;;
  x <- malloc 16 24 ;;
  free a ;;
  ret a.

Definition front_free_heap : heap := exec front_free_script fresh_heap.

(** * Reasoning about the model *)

(** ** Machine words *)

Ltac conjs := repeat match goal with |- _ /\ _ => split end.

(** Solves linear goals that mention division or remainder by constants. *)
Ltac zlia := Z.div_mod_to_equations; lia.

Lemma padd_small p n : 0 <= p + n < 2 ^ 64 -> padd p n = p + n.
Proof. intros H. unfold padd, wrap64. apply Z.mod_small. exact H. Qed.

Lemma wrap64_padd p n i :
  wrap64 (padd p n + i * n) = wrap64 (p + (i + 1) * n).
Proof.
  unfold padd, wrap64. rewrite Zplus_mod_idemp_l. f_equal. lia.
Qed.

Lemma land_shifted_ones x n k :
  0 <= n -> 0 <= k ->
  Z.land x (Z.shiftl (Z.ones n) k) = 2 ^ k * ((x / 2 ^ k) mod 2 ^ n).
Proof.
  intros Hn Hk.
  rewrite <- (Z.land_ones (x / 2 ^ k) n) by lia.
  rewrite <- Z.shiftr_div_pow2 by lia.
  rewrite Z.mul_comm.
  rewrite <- Z.shiftl_mul_pow2 by lia.
  apply Z.bits_inj'. intros i Hi.
  rewrite Z.land_spec.
  destruct (Z_lt_ge_dec i k).
  - rewrite !Z.shiftl_spec_low by lia. apply andb_false_r.
  - rewrite !Z.shiftl_spec by lia. rewrite Z.land_spec, Z.shiftr_spec by lia.
    replace (i - k + k) with i by lia. reflexivity.
Qed.

Lemma land_size_mask x : Z.land x (2 ^ 32 - 8) = 8 * ((x / 8) mod 2 ^ 29).
Proof. exact (land_shifted_ones x 29 3 ltac:(lia) ltac:(lia)). Qed.

Lemma land_prev_alloc x : Z.land x 2 = 2 * ((x / 2) mod 2).
Proof. exact (land_shifted_ones x 1 1 ltac:(lia) ltac:(lia)). Qed.

Lemma land_alloc x : Z.land x 1 = x mod 2.
Proof. exact (Z.land_ones x 1 ltac:(lia)). Qed.

Lemma lor_flags s f : 0 <= s -> s mod 8 = 0 -> 0 <= f < 8 -> Z.lor s f = s + f.
Proof.
  intros Hs Hm Hf.
  assert (Hd : Z.land s f = 0).
  { apply Z.bits_inj'. intros n Hn. rewrite Z.land_spec, Z.bits_0.
    destruct (Z_lt_ge_dec n 3).
    - replace s with ((s / 8) * 2 ^ 3)
        by (change (2 ^ 3) with 8; Z.div_mod_to_equations; lia).
      rewrite Z.mul_pow2_bits_low by lia. reflexivity.
    - replace (Z.testbit f n) with false; [apply andb_false_r|].
      symmetry. apply Z.testbit_false; [lia|].
      rewrite Z.div_small; [reflexivity|].
      assert (2 ^ 3 <= 2 ^ n) by (apply Z.pow_le_mono_r; lia).
      change (2 ^ 3) with 8 in *. lia. }
  rewrite <- Z.lxor_lor by exact Hd.
  symmetry. apply Z.add_nocarry_lxor. exact Hd.
Qed.

Lemma mask_size64 : 2 ^ 64 - 8 = Z.shiftl (Z.ones 61) 3.
Proof. reflexivity. Qed.

(** ** Loads and stores *)

Lemma load_range n m a : 0 <= load n m a < 256 ^ Z.of_nat n.
Proof.
  revert a; induction n as [|n IH]; intros a.
  - simpl. lia.
  - rewrite Nat2Z.inj_succ, Z.pow_succ_r by lia.
    cbn [load]. specialize (IH (a + 1)).
    assert (0 <= m a mod 256 < 256) by (apply Z.mod_pos_bound; lia). lia.
Qed.

Lemma load8_range m a : 0 <= load 8 m a < 2 ^ 64.
Proof. apply (load_range 8 m a). Qed.
Lemma load4_range m a : 0 <= load 4 m a < 2 ^ 32.
Proof. apply (load_range 4 m a). Qed.

Lemma load1_eq m a : load 1 m a = m a mod 256.
Proof. cbn. lia. Qed.

Lemma store_outside n : forall m a v x,
  x < a \/ a + Z.of_nat n <= x -> store n m a v x = m x.
Proof.
  induction n as [|n IH]; intros m a v x Hx; cbn [store].
  - reflexivity.
  - rewrite IH by lia. destruct (Z.eqb_spec x a); [lia | reflexivity].
Qed.

Lemma store_inside n : forall m a v x,
  a <= x < a + Z.of_nat n -> store n m a v x = (v / 256 ^ (x - a)) mod 256.
Proof.
  induction n as [|n IH]; intros m a v x Hx.
  - simpl in Hx. lia.
  - cbn [store]. destruct (Z.eq_dec x a) as [->|Hne].
    + rewrite store_outside by lia. rewrite Z.eqb_refl.
      rewrite Z.sub_diag, Z.pow_0_r, Z.div_1_r. reflexivity.
    + rewrite IH by lia.
      replace (x - a) with (Z.succ (x - (a + 1))) by lia.
      rewrite Z.pow_succ_r by lia.
      rewrite Z.div_div by (try apply Z.pow_pos_nonneg; lia).
      reflexivity.
Qed.

Lemma load_ext n : forall m m' a,
  (forall x, a <= x < a + Z.of_nat n -> m x = m' x) -> load n m a = load n m' a.
Proof.
  induction n as [|n IH]; intros m m' a H; cbn [load].
  - reflexivity.
  - rewrite (H a) by lia. rewrite (IH m m' (a + 1)); [reflexivity|].
    intros x Hx. apply H. lia.
Qed.

Lemma load_ext_bytes n : forall m m' a,
  (forall x, a <= x < a + Z.of_nat n -> load 1 m x = load 1 m' x) ->
  load n m a = load n m' a.
Proof.
  induction n as [|n IH]; intros m m' a H; cbn [load].
  - reflexivity.
  - pose proof (H a ltac:(lia)) as Ha. rewrite !load1_eq in Ha. rewrite Ha.
    rewrite (IH m m' (a + 1)); [reflexivity|].
    intros x Hx. apply H. lia.
Qed.

Lemma load_store_other n k m a b v :
  a + Z.of_nat n <= b \/ b + Z.of_nat k <= a ->
  load n (store k m b v) a = load n m a.
Proof.
  intros H. apply load_ext. intros x Hx. apply store_outside. lia.
Qed.

Lemma load_store_same n : forall m a v,
  load n (store n m a v) a = v mod 256 ^ Z.of_nat n.
Proof.
  induction n as [|n IH]; intros m a v.
  - cbn. now rewrite Z.mod_1_r.
  - cbn [load store]. rewrite IH.
    rewrite store_outside by lia. rewrite Z.eqb_refl.
    rewrite Nat2Z.inj_succ, Z.pow_succ_r by lia.
    rewrite Z.mod_mod by lia.
    assert (0 < 256 ^ Z.of_nat n) by (apply Z.pow_pos_nonneg; lia).
    rewrite Z.rem_mul_r by lia. reflexivity.
Qed.

Lemma load_byte n : forall m a i,
  0 <= i < Z.of_nat n -> (load n m a / 256 ^ i) mod 256 = m (a + i) mod 256.
Proof.
  induction n as [|n IH]; intros m a i Hi.
  - simpl in Hi. lia.
  - cbn [load]. destruct (Z.eq_dec i 0) as [->|Hne].
    + rewrite Z.pow_0_r, Z.div_1_r, Z.add_0_r.
      rewrite (Z.mul_comm 256), Z.mod_add by lia. apply Z.mod_mod. lia.
    + replace i with (Z.succ (i - 1)) at 1 by lia.
      rewrite Z.pow_succ_r by lia.
      rewrite <- Z.div_div by (try apply Z.pow_pos_nonneg; lia).
      assert (0 <= m a mod 256 < 256) by (apply Z.mod_pos_bound; lia).
      replace ((m a mod 256 + 256 * load n m (a + 1)) / 256) with (load n m (a + 1)).
      * rewrite IH by lia. f_equal. f_equal. lia.
      * rewrite (Z.mul_comm 256), Z.div_add by lia.
        rewrite Z.div_small by lia. lia.
Qed.

Lemma byte_of_load n m p a :
  p <= a < p + Z.of_nat n -> m a mod 256 = (load n m p / 256 ^ (a - p)) mod 256.
Proof.
  intros H. rewrite load_byte by lia. f_equal. f_equal. lia.
Qed.

(** ** Stepping through the monad *)

Lemma valid_true h p n :
  mem_start_brk h <= p -> p + Z.of_nat n <= mem_brk h -> valid h p n = true.
Proof. intros. unfold valid. apply andb_true_intro. split; apply Z.leb_le; assumption. Qed.

Lemma bind_ret {A B} (x : A) (k : A -> M B) h : bind (ret x) k h = k x h.
Proof. reflexivity. Qed.

Lemma bind_assoc {A B C} (c : M A) (f : A -> M B) (g : B -> M C) h :
  bind (bind c f) g h = bind c (fun x => bind (f x) g) h.
Proof. unfold bind. destruct (c h); reflexivity. Qed.

Lemma bind_load_at {B} n p (k : Z -> M B) h :
  valid h p n = true ->
  bind (load_at n p) k h = k (load n (contents h) p) h.
Proof. intros H. unfold bind, load_at. rewrite H. reflexivity. Qed.

Lemma bind_store_at {B} n p v (k : unit -> M B) h :
  valid h p n = true ->
  bind (store_at n p v) k h = k tt (set_contents h (store n (contents h) p v)).
Proof. intros H. unfold bind, store_at. rewrite H. reflexivity. Qed.

Lemma run_store_at n p v h :
  valid h p n = true ->
  store_at n p v h = Ok tt (set_contents h (store n (contents h) p v)).
Proof. intros H. unfold store_at. rewrite H. reflexivity. Qed.

Ltac heap_proj :=
  cbn [mem_start_brk mem_brk mem_max_addr heap_ptr heap_start contents
       set_contents set_brk set_heap_ptr set_heap_start] in *.

Ltac solve_valid :=
  apply valid_true; simpl Z.of_nat; heap_proj; lia.

Ltac step :=
  first [ rewrite bind_load_at by solve_valid
        | rewrite bind_store_at by solve_valid
        | rewrite run_store_at by solve_valid ];
  cbv beta; heap_proj.

(** Closes a closed goal by evaluation. *)
Ltac by_eval := vm_compute; conjs; solve [reflexivity | discriminate].

Lemma bind_GET_4 {B} p (k : Z -> M B) h :
  valid h p 4 = true -> bind (GET_4 p) k h = k (load 4 (contents h) p) h.
Proof. apply bind_load_at. Qed.

Lemma bind_PUT_4 {B} p v (k : unit -> M B) h :
  valid h p 4 = true ->
  bind (PUT_4 p v) k h = k tt (set_contents h (store 4 (contents h) p v)).
Proof. apply bind_store_at. Qed.

Lemma bind_GET_SIZE {B} p (k : Z -> M B) h :
  valid h p 4 = true ->
  bind (GET_SIZE p) k h = k (Z.land (load 4 (contents h) p) (2 ^ 32 - 8)) h.
Proof. intros H. unfold GET_SIZE. rewrite bind_assoc, bind_GET_4 by exact H. reflexivity. Qed.

Lemma bind_GET_PREV_ALLOC {B} p (k : Z -> M B) h :
  valid h p 4 = true ->
  bind (GET_PREV_ALLOC p) k h = k (Z.land (load 4 (contents h) p) 2) h.
Proof. intros H. unfold GET_PREV_ALLOC. rewrite bind_assoc, bind_GET_4 by exact H. reflexivity. Qed.

Lemma bind_GET_ALLOC {B} p (k : Z -> M B) h :
  valid h p 4 = true ->
  bind (GET_ALLOC p) k h = k (Z.land (load 4 (contents h) p) 1) h.
Proof. intros H. unfold GET_ALLOC. rewrite bind_assoc, bind_GET_4 by exact H. reflexivity. Qed.

Lemma HDRP_small bp : 4 <= bp < 2 ^ 64 -> HDRP bp = bp - 4.
Proof. intros H. unfold HDRP, WSIZE. rewrite padd_small by lia. lia. Qed.

Lemma PREV_FREE_small bp : 0 <= bp < 2 ^ 64 - 8 -> PREV_FREE bp = bp + 8.
Proof. intros H. unfold PREV_FREE, DSIZE. apply padd_small. lia. Qed.

Lemma bind_NEXT_BLKP {B} bp (k : Z -> M B) h :
  4 <= bp ->
  bp + Z.land (load 4 (contents h) (bp - 4)) (2 ^ 32 - 8) < 2 ^ 64 ->
  valid h (bp - 4) 4 = true ->
  bind (NEXT_BLKP bp) k h =
  k (bp + Z.land (load 4 (contents h) (bp - 4)) (2 ^ 32 - 8)) h.
Proof.
  set (size := Z.land (load 4 (contents h) (bp - 4)) (2 ^ 32 - 8)).
  intros H1 H2 H. unfold NEXT_BLKP. fold (HDRP bp).
  assert (0 <= size) by (unfold size; rewrite land_size_mask; zlia).
  rewrite HDRP_small by lia.
  rewrite bind_assoc, bind_GET_SIZE by exact H. fold size.
  rewrite bind_ret. rewrite padd_small by lia. reflexivity.
Qed.

Lemma bind_FTRP {B} bp (k : Z -> M B) h :
  4 <= bp ->
  8 <= bp + Z.land (load 4 (contents h) (bp - 4)) (2 ^ 32 - 8) < 2 ^ 64 ->
  valid h (bp - 4) 4 = true ->
  bind (FTRP bp) k h =
  k (bp + Z.land (load 4 (contents h) (bp - 4)) (2 ^ 32 - 8) - 8) h.
Proof.
  set (size := Z.land (load 4 (contents h) (bp - 4)) (2 ^ 32 - 8)).
  intros H1 H2 H. unfold FTRP.
  assert (0 <= size) by (unfold size; rewrite land_size_mask; zlia).
  rewrite HDRP_small by lia.
  rewrite bind_assoc, bind_GET_SIZE by exact H. fold size.
  rewrite bind_ret. unfold DSIZE. rewrite !padd_small by (rewrite ?padd_small; lia).
  reflexivity.
Qed.

(** A program returns at most one value. *)
Lemma returns_unique {A} (c : M A) h (x y : A) :
  returns c h x -> returns c h y -> x = y.
Proof. intros [h1 H1] [h2 H2]. rewrite H1 in H2. inversion H2. reflexivity. Qed.

(** ** Size classes and request sizes *)

Lemma find_list_by_size_range s :
  0 <= find_list_by_size s <= 88.
Proof.
  unfold find_list_by_size.
  repeat match goal with |- context [if ?b then _ else _] => destruct b end;
  cbv; split; congruence.
Qed.

Lemma find_list_by_size_slot s :
  exists k, 0 <= k < 12 /\ find_list_by_size s = 8 * k.
Proof.
  unfold find_list_by_size.
  repeat match goal with |- context [if ?b then _ else _] => destruct b end.
  - exists 0; split; [lia | reflexivity].
  - exists 1; split; [lia | reflexivity].
  - exists 2; split; [lia | reflexivity].
  - exists 3; split; [lia | reflexivity].
  - exists 4; split; [lia | reflexivity].
  - exists 5; split; [lia | reflexivity].
  - exists 6; split; [lia | reflexivity].
  - exists 7; split; [lia | reflexivity].
  - exists 8; split; [lia | reflexivity].
  - exists 9; split; [lia | reflexivity].
  - exists 10; split; [lia | reflexivity].
  - exists 11; split; [lia | reflexivity].
Qed.

Lemma get_index_range s : 0 <= get_index s <= 11.
Proof.
  unfold get_index.
  repeat match goal with |- context [if ?b then _ else _] => destruct b end; lia.
Qed.

Lemma find_list_by_size_get_index s :
  find_list_by_size s = find_list (get_index s) /\
  find_list (get_index s) = 8 * get_index s.
Proof.
  unfold find_list_by_size, get_index.
  repeat match goal with |- context [if ?b then _ else _] => destruct b end;
    split; reflexivity.
Qed.

Lemma slot_of_size s : find_list_by_size s = 8 * get_index s.
Proof. destruct (find_list_by_size_get_index s) as [-> ->]. reflexivity. Qed.

Lemma find_list_slot i : 0 <= i < 12 -> find_list i = 8 * i.
Proof.
  intros H.
  assert (i = 0 \/ i = 1 \/ i = 2 \/ i = 3 \/ i = 4 \/ i = 5 \/ i = 6 \/ i = 7 \/
          i = 8 \/ i = 9 \/ i = 10 \/ i = 11) as E by lia.
  repeat (destruct E as [->|E]; [reflexivity|]). subst. reflexivity.
Qed.

Lemma get_index_agrees_elsewhere s :
  ~ (16384 < s <= 16834) -> get_index s = spec_bucket s.
Proof.
  intros H. unfold get_index, spec_bucket, spec_bucket_from, spec_upper_bound.
  cbn [Z.eqb Z.add Pos.add Pos.succ Pos.eqb].
  unfold LIST0_SIZE, LIST1_SIZE, LIST2_SIZE, LIST3_SIZE, LIST4_SIZE, LIST5_SIZE,
    LIST6_SIZE, LIST7_SIZE, LIST8_SIZE, LIST9_SIZE, LIST10_SIZE.
  repeat match goal with
         | |- context [?a <=? ?b] => destruct (Z.leb_spec a b)
         end; try reflexivity; lia.
Qed.

Lemma get_index_typo_range s :
  16384 < s <= 16834 -> get_index s = 7 /\ spec_bucket s = 8.
Proof.
  intros H. unfold get_index, spec_bucket, spec_bucket_from, spec_upper_bound.
  cbn [Z.eqb Z.add Pos.add Pos.succ Pos.eqb].
  unfold LIST0_SIZE, LIST1_SIZE, LIST2_SIZE, LIST3_SIZE, LIST4_SIZE, LIST5_SIZE,
    LIST6_SIZE, LIST7_SIZE, LIST8_SIZE, LIST9_SIZE, LIST10_SIZE.
  repeat match goal with
         | |- context [?a <=? ?b] => destruct (Z.leb_spec a b)
         end; try (split; reflexivity); lia.
Qed.

Lemma malloc_asize_large n :
  16 < n <= 2 ^ 64 - 12 -> malloc_asize n = align8 (n + 4).
Proof.
  intros H. unfold malloc_asize, align8, DSIZE, WSIZE, wrap64.
  destruct (Z.leb_spec n (2 * 8)); [lia|].
  rewrite (Z.mod_small (n + 4)) by lia.
  rewrite (Z.mod_small (n + 4 + 7)) by lia.
  rewrite mask_size64, land_shifted_ones by lia.
  change (2 ^ 3) with 8.
  rewrite (Z.mod_small ((n + 4 + 7) / 8)); [reflexivity|].
  split; [zlia|]. apply Z.div_lt_upper_bound; lia.
Qed.

(** Whatever the request, the adjusted size is the rounded sum modulo
    2^64. *)
Lemma malloc_asize_wrap64 n :
  16 < n < 2 ^ 64 -> malloc_asize n = wrap64 (align8 (n + 4)).
Proof.
  intros H. unfold malloc_asize, align8, DSIZE, WSIZE, wrap64.
  destruct (Z.leb_spec n (2 * 8)); [lia|].
  rewrite Zplus_mod_idemp_l.
  rewrite mask_size64, land_shifted_ones by lia.
  change (2 ^ 3) with 8.
  replace (n + 4 + 7) with (n + 11) by lia.
  change (2 ^ 64) with 18446744073709551616.
  change (2 ^ 61) with 2305843009213693952.
  zlia.
Qed.

Lemma align8_spec x :
  align8 x mod 8 = 0 /\ x <= align8 x < x + 8.
Proof. unfold align8. zlia. Qed.

(** ** The free lists *)

(** *** Memory after an insertion or a removal *)

(** Loads away from the cells that [rem_free_blk] and [add_free_blk] write. *)
Lemma load_rem_mem_other n m slot bp a :
  let nx := load 8 m bp in
  let pv := load 8 m (bp + 8) in
  (a + Z.of_nat n <= slot \/ slot + 8 <= a) ->
  (nx = NULL \/ a + Z.of_nat n <= nx + 8 \/ nx + 16 <= a) ->
  (pv = NULL \/ a + Z.of_nat n <= pv \/ pv + 8 <= a) ->
  load n (rem_mem m slot bp) a = load n m a.
Proof.
  intros nx pv Hs Hn Hp. unfold rem_mem. fold nx pv.
  destruct (Z.eqb_spec pv NULL); destruct (Z.eqb_spec nx NULL); cbn [andb negb];
    rewrite ?load_store_other; try reflexivity; simpl Z.of_nat; lia.
Qed.

Lemma load_add_mem_other n m slot bp a :
  let hd := load 8 m slot in
  (a + Z.of_nat n <= slot \/ slot + 8 <= a) ->
  (a + Z.of_nat n <= bp \/ bp + 16 <= a) ->
  (hd = NULL \/ a + Z.of_nat n <= hd + 8 \/ hd + 16 <= a) ->
  load n (add_mem m slot bp) a = load n m a.
Proof.
  intros hd Hs Hb Hh. unfold add_mem. fold hd.
  destruct (Z.eqb_spec hd NULL);
    rewrite ?load_store_other; try reflexivity; simpl Z.of_nat; lia.
Qed.

Lemma add_mem_head m slot bp :
  0 <= bp < 2 ^ 64 -> slot + 8 <= bp ->
  let hd := load 8 m slot in
  (hd = NULL \/ slot + 8 <= hd + 8) ->
  load 8 (add_mem m slot bp) slot = bp.
Proof.
  intros Hbp Hs hd Hh. unfold add_mem. fold hd.
  destruct (Z.eqb_spec hd NULL).
  - rewrite !load_store_other by (simpl Z.of_nat; lia).
    rewrite load_store_same. apply Z.mod_small. exact Hbp.
  - rewrite !load_store_other by (simpl Z.of_nat; lia).
    rewrite load_store_same. apply Z.mod_small. exact Hbp.
Qed.

Lemma add_mem_prev m slot bp :
  let hd := load 8 m slot in
  (hd = NULL \/ hd + 16 <= bp \/ bp + 16 <= hd) ->
  load 8 (add_mem m slot bp) (bp + 8) = NULL.
Proof.
  intros hd Hh. unfold add_mem. fold hd.
  destruct (Z.eqb_spec hd NULL).
  - rewrite !load_store_other by (simpl Z.of_nat; lia).
    rewrite load_store_same. reflexivity.
  - rewrite !load_store_other by (simpl Z.of_nat; lia).
    rewrite load_store_same. reflexivity.
Qed.

Lemma add_mem_next m slot bp :
  let hd := load 8 m slot in
  load 8 (add_mem m slot bp) bp = hd.
Proof.
  intros hd. pose proof (load8_range m slot) as Hr. fold hd in Hr.
  unfold add_mem. fold hd.
  destruct (Z.eqb_spec hd NULL) as [E|E].
  - rewrite load_store_same. rewrite E. reflexivity.
  - rewrite load_store_same. apply Z.mod_small. exact Hr.
Qed.

(** The head of a list after [rem_free_blk]: the old head (when the list is
    another one or the removed block had a predecessor), the removed block's
    successor, or null. *)
Lemma rem_mem_head m hp s1 s2 bp :
  let slot1 := hp + find_list_by_size s1 in
  let slot2 := hp + find_list_by_size s2 in
  let nx := load 8 m bp in
  let pv := load 8 m (bp + 8) in
  (nx = NULL \/ hp + 96 <= nx) -> (pv = NULL \/ hp + 96 <= pv) ->
  (load 8 (rem_mem m slot1 bp) slot2 = load 8 m slot2 /\
   (find_list_by_size s1 <> find_list_by_size s2 \/ pv <> NULL)) \/
  load 8 (rem_mem m slot1 bp) slot2 = nx \/
  load 8 (rem_mem m slot1 bp) slot2 = NULL.
Proof.
  intros slot1 slot2 nx pv Hn Hp.
  destruct (find_list_by_size_slot s1) as (k1 & Hk1 & E1).
  destruct (find_list_by_size_slot s2) as (k2 & Hk2 & E2).
  pose proof (load8_range m bp) as Hr. fold nx in Hr.
  unfold rem_mem. fold nx pv.
  destruct (Z.eq_dec k1 k2) as [Ek|Ek].
  - assert (slot1 = slot2) as -> by (unfold slot1, slot2; lia).
    destruct (Z.eqb_spec pv NULL); destruct (Z.eqb_spec nx NULL); cbn [andb negb].
    + right; right. rewrite load_store_same. reflexivity.
    + right; left. rewrite load_store_other by (unfold slot2; simpl Z.of_nat; lia).
      rewrite load_store_same. apply Z.mod_small. exact Hr.
    + left. split; [|right; assumption].
      rewrite load_store_other by (unfold slot2; simpl Z.of_nat; lia). reflexivity.
    + left. split; [|right; assumption].
      rewrite !load_store_other by (unfold slot2; simpl Z.of_nat; lia). reflexivity.
  - left. split; [|left; lia].
    destruct (Z.eqb_spec pv NULL); destruct (Z.eqb_spec nx NULL); cbn [andb negb];
      rewrite ?load_store_other; try reflexivity;
      unfold slot1, slot2; simpl Z.of_nat; lia.
Qed.

(** *** The list operations on a heap that begins with the bucket table *)

Section FreeLists.

Variable h : heap.
Hypothesis brk_bound : mem_brk h < 2 ^ 64.
Hypothesis table_first : 0 <= mem_start_brk h <= heap_ptr h.

Lemma add_free_blk_run bp size :
  let slot := heap_ptr h + find_list_by_size size in
  let hd := load 8 (contents h) slot in
  heap_ptr h + 96 <= mem_brk h ->
  mem_start_brk h <= bp -> bp + 16 <= mem_brk h ->
  (hd = NULL \/ (mem_start_brk h <= hd + 8 /\ hd + 16 <= mem_brk h)) ->
  add_free_blk bp size h = Ok tt (set_contents h (add_mem (contents h) slot bp)).
Proof.
  intros slot hd Htab Hbp1 Hbp2 Hhd.
  pose proof (find_list_by_size_range size) as Hk.
  pose proof (load8_range (contents h) slot) as Hr. fold hd in Hr.
  unfold add_free_blk, add_mem, GET, PUT, get_heap_ptr, NEXT_FREE, PREV_FREE, DSIZE.
  unfold bind at 1.
  rewrite (padd_small (heap_ptr h)) by lia.
  step. fold slot. fold hd.
  rewrite (padd_small bp) by lia.
  destruct (Z.eqb_spec hd NULL) as [E|E]; cbn [negb].
  - repeat step. reflexivity.
  - destruct Hhd as [?|[? ?]]; [contradiction|].
    rewrite (padd_small hd) by lia.
    repeat step. reflexivity.
Qed.

Lemma rem_free_blk_run bp size :
  let slot := heap_ptr h + find_list_by_size size in
  let nx := load 8 (contents h) bp in
  let pv := load 8 (contents h) (bp + 8) in
  heap_ptr h + 96 <= mem_brk h ->
  mem_start_brk h <= bp -> bp + 16 <= mem_brk h ->
  (nx = NULL \/ (mem_start_brk h <= nx + 8 /\ nx + 16 <= mem_brk h)) ->
  (pv = NULL \/ (mem_start_brk h <= pv /\ pv + 8 <= mem_brk h)) ->
  rem_free_blk bp size h = Ok tt (set_contents h (rem_mem (contents h) slot bp)).
Proof.
  intros slot nx pv Htab Hbp1 Hbp2 Hnx Hpv.
  pose proof (find_list_by_size_range size) as Hk.
  pose proof (load8_range (contents h) bp) as Hr1. fold nx in Hr1.
  pose proof (load8_range (contents h) (bp + 8)) as Hr2. fold pv in Hr2.
  unfold rem_free_blk, rem_mem, GET, PUT, get_heap_ptr, NEXT_FREE, PREV_FREE, DSIZE.
  step. fold nx.
  rewrite (padd_small bp) by lia.
  step. fold pv.
  unfold bind at 1.
  rewrite (padd_small (heap_ptr h)) by lia. fold slot.
  destruct (Z.eqb_spec pv NULL) as [E1|E1]; destruct (Z.eqb_spec nx NULL) as [E2|E2];
    cbn [negb andb].
  - repeat step. reflexivity.
  - destruct Hnx as [?|[? ?]]; [contradiction|].
    rewrite (padd_small nx) by lia. repeat step. reflexivity.
  - destruct Hpv as [?|[? ?]]; [contradiction|].
    repeat step. reflexivity.
  - destruct Hnx as [?|[? ?]]; [contradiction|].
    destruct Hpv as [?|[? ?]]; [contradiction|].
    rewrite (padd_small nx) by lia. repeat step. reflexivity.
Qed.

(** The head that [add_free_blk] installs has a null [prev] link. *)
Lemma add_free_blk_head bp size :
  let slot := heap_ptr h + find_list_by_size size in
  let hd := load 8 (contents h) slot in
  heap_ptr h + 96 <= bp -> bp + 16 <= mem_brk h ->
  (hd = NULL \/
   (heap_ptr h + 96 <= hd /\ hd + 16 <= mem_brk h /\
    (hd + 16 <= bp \/ bp + 16 <= hd))) ->
  exists h',
    add_free_blk bp size h = Ok tt h' /\
    load 8 (contents h') slot = bp /\
    load 8 (contents h') (bp + 8) = NULL /\
    load 8 (contents h') bp = hd.
Proof.
  intros slot hd Hb1 Hb2 Hhd.
  pose proof (find_list_by_size_range size) as Hk.
  rewrite add_free_blk_run; try lia.
  2:{ fold slot hd. destruct Hhd as [?|(? & ? & ?)]; [left; assumption | right; lia]. }
  eexists. split; [reflexivity|]. heap_proj. fold slot. conjs.
  - apply add_mem_head; [lia | unfold slot; lia |].
    fold hd. destruct Hhd as [?|(? & ? & ?)]; [left; assumption | right; unfold slot; lia].
  - apply add_mem_prev.
    fold hd. destruct Hhd as [?|(? & ? & ?)]; [left; assumption | right; lia].
  - apply add_mem_next.
Qed.

(** When the head of a list is removed, its successor becomes the head and
    gets a null [prev] link. *)
Lemma rem_free_blk_head bp size :
  let slot := heap_ptr h + find_list_by_size size in
  let nx := load 8 (contents h) bp in
  heap_ptr h + 96 <= bp -> bp + 16 <= mem_brk h ->
  load 8 (contents h) (bp + 8) = NULL ->
  heap_ptr h + 96 <= nx -> nx + 16 <= mem_brk h ->
  exists h',
    rem_free_blk bp size h = Ok tt h' /\
    load 8 (contents h') slot = nx /\
    load 8 (contents h') (nx + 8) = NULL.
Proof.
  intros slot nx Hb1 Hb2 Hpv Hn1 Hn2.
  pose proof (find_list_by_size_range size) as Hk.
  pose proof (load8_range (contents h) bp) as Hr. fold nx in Hr.
  rewrite rem_free_blk_run; fold nx; rewrite ?Hpv; try lia.
  eexists. split; [reflexivity|]. heap_proj. fold slot.
  unfold rem_mem. rewrite Hpv. fold nx.
  change (NULL =? NULL) with true.
  destruct (Z.eqb_spec nx NULL) as [E|E]; [unfold NULL in E; lia|].
  cbn [andb negb]. split.
  - rewrite load_store_other by (unfold slot; simpl Z.of_nat; lia).
    rewrite load_store_same. apply Z.mod_small. exact Hr.
  - rewrite load_store_same. reflexivity.
Qed.

End FreeLists.

(** ** What no operation changes *)

Lemma lo_stable_ret {A} (x : A) : lo_stable (ret x).
Proof. intros h y h' H. inversion H. reflexivity. Qed.

Lemma lo_stable_bind {A B} (c : M A) (k : A -> M B) :
  lo_stable c -> (forall x, lo_stable (k x)) -> lo_stable (bind c k).
Proof.
  intros Hc Hk h y h' H. unfold bind in H.
  destruct (c h) as [x h1| |] eqn:E; try discriminate.
  rewrite (Hk x h1 y h' H). exact (Hc h x h1 E).
Qed.

Lemma lo_stable_load_at n p : lo_stable (load_at n p).
Proof.
  intros h y h' H. unfold load_at in H.
  destruct (valid h p n); inversion H. reflexivity.
Qed.

Lemma lo_stable_store_at n p v : lo_stable (store_at n p v).
Proof.
  intros h y h' H. unfold store_at in H.
  destruct (valid h p n); inversion H. reflexivity.
Qed.

Lemma lo_stable_get_heap_ptr : lo_stable get_heap_ptr.
Proof. intros h y h' H. inversion H. reflexivity. Qed.

Lemma lo_stable_mem_sbrk incr : lo_stable (mem_sbrk incr).
Proof.
  intros h y h' H. unfold mem_sbrk in H.
  destruct (_ || _); inversion H; reflexivity.
Qed.

Lemma lo_stable_out_of_fuel {A} : lo_stable (fun _ : heap => @OutOfFuel A).
Proof. intros h y h' H. discriminate. Qed.

Create HintDb stable.
#[local] Hint Resolve lo_stable_ret lo_stable_load_at lo_stable_store_at
  lo_stable_get_heap_ptr lo_stable_mem_sbrk lo_stable_out_of_fuel : stable.

Ltac stable :=
  repeat first
    [ solve [auto with stable]
    | apply lo_stable_bind; [ | intros ? ]
    | match goal with
      | |- lo_stable (if ?b then _ else _) => destruct b
      end ].

Lemma lo_stable_GET_SIZE p : lo_stable (GET_SIZE p).
Proof. unfold GET_SIZE, GET_4. stable. Qed.
Lemma lo_stable_GET_ALLOC p : lo_stable (GET_ALLOC p).
Proof. unfold GET_ALLOC, GET_4. stable. Qed.
Lemma lo_stable_GET_PREV_ALLOC p : lo_stable (GET_PREV_ALLOC p).
Proof. unfold GET_PREV_ALLOC, GET_4. stable. Qed.
#[local] Hint Resolve lo_stable_GET_SIZE lo_stable_GET_ALLOC lo_stable_GET_PREV_ALLOC : stable.
Lemma lo_stable_NEXT_BLKP p : lo_stable (NEXT_BLKP p).
Proof. unfold NEXT_BLKP. stable. Qed.
Lemma lo_stable_PREV_BLKP p : lo_stable (PREV_BLKP p).
Proof. unfold PREV_BLKP. stable. Qed.
Lemma lo_stable_FTRP p : lo_stable (FTRP p).
Proof. unfold FTRP. stable. Qed.
#[local] Hint Resolve lo_stable_NEXT_BLKP lo_stable_PREV_BLKP lo_stable_FTRP : stable.
Lemma lo_stable_add_free_blk bp s : lo_stable (add_free_blk bp s).
Proof. unfold add_free_blk, GET, PUT. stable. Qed.
Lemma lo_stable_rem_free_blk bp s : lo_stable (rem_free_blk bp s).
Proof. unfold rem_free_blk, GET, PUT. stable. Qed.
#[local] Hint Resolve lo_stable_add_free_blk lo_stable_rem_free_blk : stable.
Lemma lo_stable_coalesce bp : lo_stable (coalesce bp).
Proof. unfold coalesce, GET_4, PUT_4. stable. Qed.
Lemma lo_stable_place bp s : lo_stable (place bp s).
Proof. unfold place, GET_4, PUT_4. stable. Qed.
#[local] Hint Resolve lo_stable_coalesce lo_stable_place : stable.
Lemma lo_stable_extend_heap w : lo_stable (extend_heap w).
Proof. unfold extend_heap, GET_4, PUT_4. stable. Qed.
Lemma lo_stable_find_block_loop fuel size : forall b, lo_stable (find_block_loop fuel size b).
Proof. induction fuel as [|f IH]; intros b; cbn [find_block_loop]; unfold GET; stable. Qed.
#[local] Hint Resolve lo_stable_extend_heap lo_stable_find_block_loop : stable.
Lemma lo_stable_find_fit_loop fuel n asize : forall i, lo_stable (find_fit_loop fuel n i asize).
Proof.
  induction n as [|n IH]; intros i; cbn [find_fit_loop];
    unfold find_block_in_list, GET; stable.
Qed.
#[local] Hint Resolve lo_stable_find_fit_loop : stable.
Lemma lo_stable_malloc fuel size : lo_stable (malloc fuel size).
Proof. unfold malloc, find_fit. stable. Qed.

(** ** What [calloc] and [memcpy] write *)

Lemma calloc_loop_untouched n : forall temp size h h',
  0 <= temp < 2 ^ 64 ->
  calloc_loop n temp size h = Ok tt h' ->
  forall a,
    (forall i, (i < n)%nat -> a <> wrap64 (temp + Z.of_nat i * size)) ->
    contents h' a = contents h a.
Proof.
  induction n as [|n IH]; intros temp size h h' Ht H a Ha.
  - inversion H. reflexivity.
  - cbn [calloc_loop] in H. unfold bind, store_at in H.
    destruct (valid h temp 1); [|discriminate].
    assert (Hp : 0 <= padd temp size < 2 ^ 64)
      by (unfold padd, wrap64; apply Z.mod_pos_bound; lia).
    rewrite (IH _ _ _ _ Hp H a).
    + heap_proj. cbn [store]. destruct (Z.eqb_spec a temp) as [E|E]; [|reflexivity].
      exfalso. apply (Ha O); [lia|]. cbn. rewrite Z.add_0_r.
      unfold wrap64. rewrite Z.mod_small by lia. exact E.
    + intros i Hi. rewrite wrap64_padd.
      replace (Z.of_nat i + 1) with (Z.of_nat (S i)) by lia.
      apply Ha. lia.
Qed.

Lemma memcpy_loop_copies n : forall dst src h,
  0 <= src -> 0 <= dst ->
  src + Z.of_nat n < 2 ^ 64 -> dst + Z.of_nat n < 2 ^ 64 ->
  mem_start_brk h <= src -> src + Z.of_nat n <= mem_brk h ->
  mem_start_brk h <= dst -> dst + Z.of_nat n <= mem_brk h ->
  (dst + Z.of_nat n <= src \/ src + Z.of_nat n <= dst) ->
  exists m',
    memcpy_loop n dst src h = Ok tt (set_contents h m') /\
    (forall i, 0 <= i < Z.of_nat n ->
       load 1 m' (dst + i) = load 1 (contents h) (src + i)) /\
    (forall a, a < dst \/ dst + Z.of_nat n <= a -> m' a = contents h a).
Proof.
  induction n as [|n IH]; intros dst src h Hs0 Hd0 Hs1 Hd1 Hs2 Hs3 Hd2 Hd3 Hdis.
  - exists (contents h). conjs.
    + destruct h; reflexivity.
    + intros i Hi. simpl in Hi. lia.
    + reflexivity.
  - rewrite Nat2Z.inj_succ in *.
    cbn [memcpy_loop].
    rewrite bind_load_at by solve_valid.
    rewrite bind_store_at by solve_valid.
    rewrite !padd_small by lia.
    set (h1 := set_contents h (store 1 (contents h) dst (load 1 (contents h) src))).
    destruct (IH (dst + 1) (src + 1) h1) as (m' & Hrun & Hcopy & Hout);
      try (unfold h1; heap_proj; lia).
    exists m'. conjs.
    + rewrite Hrun. reflexivity.
    + intros i Hi. destruct (Z.eq_dec i 0) as [->|Hne].
      * rewrite !Z.add_0_r. rewrite load1_eq, Hout by lia.
        unfold h1. heap_proj. cbn [store]. rewrite Z.eqb_refl.
        rewrite !load1_eq. rewrite !Z.mod_mod by lia. reflexivity.
      * replace (dst + i) with (dst + 1 + (i - 1)) by lia.
        rewrite Hcopy by lia. unfold h1. heap_proj.
        rewrite load_store_other by (simpl Z.of_nat; lia).
        f_equal. lia.
    + intros a Ha. rewrite Hout by lia. unfold h1. heap_proj.
      apply store_outside. simpl Z.of_nat. lia.
Qed.

(** In the growing case [realloc] allocates, copies [size] bytes and frees. *)
Lemma realloc_grow fuel oldptr size h :
  size <> 0 -> oldptr <> NULL ->
  valid h (HDRP oldptr) 4 = true ->
  wrap32 (Z.land (load 4 (contents h) (HDRP oldptr)) (2 ^ 32 - 8) - OVERHEAD) < size ->
  realloc fuel oldptr size h =
  (newptr <- malloc fuel size ;;
   if newptr =? NULL then ret NULL
   else memcpy newptr oldptr size ;; free oldptr ;; ret newptr) h.
Proof.
  intros Hs Hp Hv Hlt. unfold realloc.
  destruct (Z.eqb_spec size 0); [contradiction|].
  destruct (Z.eqb_spec oldptr NULL); [contradiction|].
  rewrite bind_GET_SIZE by exact Hv.
  destruct (Z.leb_spec size
    (wrap32 (Z.land (load 4 (contents h) (HDRP oldptr)) (2 ^ 32 - 8) - OVERHEAD)));
    [lia | reflexivity].
Qed.

(** ** Out of memory *)

Lemma extend_heap_out_of_memory words h :
  mem_max_addr h < mem_brk h + words -> extend_heap words h = Ok NULL h.
Proof.
  intros H. unfold extend_heap, bind, mem_sbrk.
  replace (mem_max_addr h <? mem_brk h + words) with true
    by (symmetry; apply Z.ltb_lt; exact H).
  rewrite orb_true_r. reflexivity.
Qed.

Lemma malloc_out_of_memory fuel size h :
  0 < size ->
  find_fit fuel (malloc_asize size) h = Ok NULL h ->
  mem_max_addr h < mem_brk h + Z.max (malloc_asize size) CHUNKSIZE ->
  malloc fuel size h = Ok NULL h.
Proof.
  intros Hs Hfit Hoom. unfold malloc.
  destruct (Z.leb_spec size 0); [lia|].
  unfold bind at 1. rewrite Hfit. cbn [negb Z.eqb NULL].
  unfold bind. rewrite extend_heap_out_of_memory by exact Hoom. reflexivity.
Qed.

Lemma realloc_out_of_memory fuel oldptr size h :
  size <> 0 -> oldptr <> NULL ->
  valid h (HDRP oldptr) 4 = true ->
  wrap32 (Z.land (load 4 (contents h) (HDRP oldptr)) (2 ^ 32 - 8) - OVERHEAD) < size ->
  malloc fuel size h = Ok NULL h ->
  realloc fuel oldptr size h = Ok NULL h.
Proof.
  intros Hs Hp Hv Hlt Hm. rewrite realloc_grow by assumption.
  unfold bind. rewrite Hm. reflexivity.
Qed.

Lemma calloc_after_null_malloc fuel nmemb size h h' :
  0 < nmemb ->
  malloc fuel (wrap64 (nmemb * size)) h = Ok NULL h' ->
  0 < mem_start_brk h ->
  calloc fuel nmemb size h = Fault (BadWrite NULL).
Proof.
  intros Hn Hm Hlo.
  pose proof (lo_stable_malloc _ _ _ _ _ Hm) as Hs.
  unfold calloc, bind. rewrite Hm.
  destruct (Z.to_nat nmemb) as [|k] eqn:E; [lia|].
  cbn [calloc_loop]. unfold bind, store_at.
  replace (valid h' NULL 1) with false; [reflexivity|].
  symmetry. unfold valid, NULL. apply andb_false_intro1. apply Z.leb_gt. lia.
Qed.

(** ** The cycle scan *)

Lemma chain_head h p l : chain h p l -> p = NULL \/ exists l', l = p :: l'.
Proof. intros H. destruct H; [left; reflexivity | right; eexists; reflexivity]. Qed.

Lemma cycle_loop_step fuel hare tortoise h nh nt :
  hare <> NULL -> tortoise <> NULL ->
  GET hare h = Ok nh h -> nh <> NULL ->
  GET nh h = Ok nt h -> nh <> nt ->
  cycle_loop (S fuel) hare tortoise h = cycle_loop fuel nh nt h.
Proof.
  intros Hh Ht H1 Hn H2 Hd. cbn [cycle_loop]. unfold NEXT_FREE.
  destruct (Z.eqb_spec hare NULL); [contradiction|].
  destruct (Z.eqb_spec tortoise NULL); [contradiction|].
  cbn [negb andb]. unfold bind at 1. rewrite H1.
  destruct (Z.eqb_spec nh NULL); [contradiction|].
  cbn [negb]. unfold bind at 1. rewrite H2.
  destruct (Z.eqb_spec nh nt); [contradiction|]. reflexivity.
Qed.

(** From a node whose [next] chain never ends and never stands still, the
    scan never returns. *)
Lemma cycle_loop_never_ends h fuel : forall hare tortoise,
  tortoise <> NULL ->
  (forall n, nth_next h n hare <> NULL /\
             valid h (nth_next h n hare) 8 = true /\
             nth_next h (S n) hare <> nth_next h n hare) ->
  cycle_loop fuel hare tortoise h = OutOfFuel.
Proof.
  induction fuel as [|f IH]; intros hare tortoise Ht Hn.
  - reflexivity.
  - destruct (Hn 0%nat) as (H0 & Hv0 & _).
    destruct (Hn 1%nat) as (H1 & Hv1 & Hd1).
    destruct (Hn 2%nat) as (H2 & _ & _).
    cbn [nth_next] in *.
    rewrite (cycle_loop_step f hare tortoise h
               (load 8 (contents h) hare)
               (load 8 (contents h) (load 8 (contents h) hare))).
    + apply IH; [exact H2|]. intros n. exact (Hn (S n)).
    + exact H0.
    + exact Ht.
    + unfold GET, load_at. rewrite Hv0. reflexivity.
    + exact H1.
    + unfold GET, load_at. rewrite Hv1. reflexivity.
    + intros E. apply Hd1. symmetry. exact E.
Qed.

Lemma cycle_loop_acyclic h l : forall hare tortoise fuel,
  chain h hare l -> NoDup l -> tortoise <> NULL ->
  (length l < fuel)%nat ->
  cycle_loop fuel hare tortoise h = Ok None h.
Proof.
  induction l as [|p l IH]; intros hare tortoise fuel Hc Hnd Ht Hf.
  - inversion Hc; subst. destruct fuel as [|f]; [simpl in Hf; lia|].
    reflexivity.
  - inversion Hc as [|p' l' Hp Hv Hc']; subst.
    destruct fuel as [|f]; [simpl in Hf; lia|].
    cbn [cycle_loop]. unfold NEXT_FREE, GET.
    destruct (Z.eqb_spec p NULL); [contradiction|].
    destruct (Z.eqb_spec tortoise NULL); [contradiction|].
    cbn [negb andb].
    rewrite bind_load_at by exact Hv.
    set (nh := load 8 (contents h) p) in *.
    inversion Hnd as [|? ? Hnotin Hnd']; subst.
    simpl in Hf.
    destruct (Z.eqb_spec nh NULL) as [E|E]; cbn [negb].
    + rewrite bind_ret. rewrite E.
      destruct (Z.eqb_spec NULL tortoise); [congruence|].
      destruct f; [lia|]. reflexivity.
    + inversion Hc' as [E0|q l'' Hq Hvq Hc'']; subst; [symmetry in E0; contradiction|].
      rewrite bind_load_at by exact Hvq.
      set (nt := load 8 (contents h) nh) in *.
      assert (Hd : nh <> nt).
      { intros Heq. inversion Hnd' as [|? ? Hn2 _]; subst.
        destruct (chain_head _ _ _ Hc'') as [E1|(l3 & ->)].
        - rewrite <- Heq in E1. contradiction.
        - apply Hn2. rewrite Heq at 1. left. reflexivity. }
      destruct (Z.eqb_spec nh nt); [contradiction|].
      destruct (Z.eq_dec nt NULL) as [E1|E1].
      * destruct f; [simpl in Hf; lia|]. cbn [cycle_loop].
        rewrite E1. destruct (Z.eqb_spec nh NULL); [contradiction|]. reflexivity.
      * apply IH; [exact Hc' | exact Hnd' | exact E1 | lia].
Qed.

Lemma cycle_lists_acyclic h fuel n : forall i,
  0 <= i -> i + Z.of_nat n <= 12 ->
  0 < heap_ptr h -> heap_ptr h + 96 < 2 ^ 64 ->
  (forall k, i <= k < i + Z.of_nat n ->
     exists l, chain h (heap_ptr h + 8 * k) l /\ NoDup l /\ (length l < fuel)%nat) ->
  cycle_lists fuel n i h = Ok 0 h.
Proof.
  induction n as [|n IH]; intros i Hi Hn Hp0 Hp1 Hl.
  - reflexivity.
  - cbn [cycle_lists]. unfold bind at 1, get_heap_ptr.
    assert (Hfl : find_list i = 8 * i) by (apply find_list_slot; lia).
    rewrite Hfl. rewrite padd_small by lia.
    destruct (Hl i ltac:(lia)) as (l & Hc & Hnd & Hlen).
    unfold bind at 1.
    rewrite (cycle_loop_acyclic h l); try assumption.
    + apply IH; try lia. intros k Hk. apply Hl. lia.
    + unfold NULL. lia.
Qed.

(** X19.  On lists without a cycle [check_for_cycle] ends, leaves
    the heap alone and reports nothing: when each of the twelve lists, read
    from its slot, is a chain of distinct nodes that reaches null within
    the fuel, the result is 0. *)
Lemma check_for_cycle_acyclic h fuel :
  0 < heap_ptr h -> heap_ptr h + 96 < 2 ^ 64 ->
  (forall k, 0 <= k < 12 ->
     exists l, chain h (heap_ptr h + 8 * k) l /\ NoDup l /\ (length l < fuel)%nat) ->
  check_for_cycle fuel h = Ok 0 h.
Proof.
  intros H0 H1 Hl. unfold check_for_cycle.
  apply cycle_lists_acyclic; try lia.
  - change (Z.of_nat (Z.to_nat NO_OF_LISTS)) with 12. lia.
  - intros k Hk. apply Hl. change (Z.of_nat (Z.to_nat NO_OF_LISTS)) with 12 in Hk. lia.
Qed.

(** ** More about chains *)

Lemma chain_cons_inv h p x l :
  chain h p (x :: l) ->
  p = x /\ x <> NULL /\ valid h x 8 = true /\ chain h (load 8 (contents h) x) l.
Proof. intros H. inversion H; subst. conjs; try reflexivity; assumption. Qed.

Lemma chain_nil_inv h p : chain h p [] -> p = NULL.
Proof. intros H. inversion H. reflexivity. Qed.

Lemma chain_frame h h' l : forall p,
  chain h p l ->
  (forall x, In x l ->
     valid h' x 8 = true /\ load 8 (contents h') x = load 8 (contents h) x) ->
  chain h' p l.
Proof.
  induction l as [|x l IH]; intros p Hc Hf.
  - inversion Hc; subst. apply chain_nil.
  - apply chain_cons_inv in Hc. destruct Hc as (-> & Hp & Hv & Hc').
    destruct (Hf x (or_introl eq_refl)) as [Hv' He].
    apply chain_cons; [exact Hp | exact Hv' |].
    rewrite He. apply IH; [exact Hc'|].
    intros y Hy. apply Hf. right. exact Hy.
Qed.

Lemma chain_in_head h p l : chain h p l -> p <> NULL -> In p l.
Proof. intros H Hp. destruct H; [contradiction | left; reflexivity]. Qed.

Lemma chain_nonnull h l : forall p x, chain h p l -> In x l -> x <> NULL.
Proof.
  induction l as [|y l IH]; intros p x Hc Hi; [destruct Hi|].
  apply chain_cons_inv in Hc. destruct Hc as (-> & Hp & _ & Hc).
  destruct Hi as [<-|Hi]; [exact Hp | exact (IH _ _ Hc Hi)].
Qed.

Lemma last_in (l : list Z) d : l <> [] -> In (last l d) l.
Proof.
  induction l as [|x l IH]; intros H; [contradiction|].
  destruct l as [|y l]; [left; reflexivity|].
  right. apply IH. discriminate.
Qed.

Lemma chain_unlink h h' bp l2 : forall l1 p,
  chain h p (l1 ++ bp :: l2) -> NoDup (l1 ++ bp :: l2) ->
  (forall x, In x (l1 ++ l2) -> valid h' x 8 = true) ->
  (forall x, In x (l1 ++ l2) -> x <> last l1 NULL ->
     load 8 (contents h') x = load 8 (contents h) x) ->
  (l1 <> [] -> load 8 (contents h') (last l1 NULL) = load 8 (contents h) bp) ->
  chain h' (match l1 with [] => load 8 (contents h) bp | _ => p end) (l1 ++ l2).
Proof.
  induction l1 as [|x l1 IH]; intros p Hc Hnd Hv Hsame Hpv.
  - cbn [app] in *. apply chain_cons_inv in Hc. destruct Hc as (-> & Hp & _ & Hc).
    apply (chain_frame h); [exact Hc|].
    intros x Hx. split; [apply Hv; exact Hx|].
    apply Hsame; [exact Hx|]. cbn [last]. exact (chain_nonnull _ _ _ _ Hc Hx).
  - cbn [app] in *. apply chain_cons_inv in Hc. destruct Hc as (-> & Hp & _ & Hc).
    inversion Hnd as [|? ? Hnotin Hnd']; subst.
    apply chain_cons; [exact Hp | apply Hv; left; reflexivity |].
    destruct l1 as [|y l1].
    + cbn [app last] in *. rewrite Hpv by discriminate.
      apply chain_cons_inv in Hc. destruct Hc as (_ & _ & _ & Hc).
      apply (chain_frame h); [exact Hc|].
      intros z Hz. split; [apply Hv; right; exact Hz|].
      apply Hsame; [right; exact Hz|].
      intros ->. apply Hnotin. right. exact Hz.
    + assert (Hl : last (x :: y :: l1) NULL = last (y :: l1) NULL) by reflexivity.
      rewrite Hl in *.
      assert (Hx : x <> last (y :: l1) NULL).
      { intros E. apply Hnotin. apply in_or_app. left. rewrite E. apply last_in. discriminate. }
      rewrite Hsame; [| left; reflexivity | exact Hx].
      apply (IH (load 8 (contents h) x)); try assumption.
      * intros z Hz. apply Hv. right. exact Hz.
      * intros z Hz. apply Hsame. right. exact Hz.
      * intros _. apply Hpv. discriminate.
Qed.

(** ** The free lists as a whole *)

(** *** Lists with a node taken out *)

Lemma in_without x y l : In y (without x l) <-> In y l /\ y <> x.
Proof.
  unfold without. rewrite filter_In. split; intros [H1 H2]; split; try assumption.
  - intros ->. rewrite Z.eqb_refl in H2. discriminate.
  - destruct (Z.eqb_spec y x); [contradiction | reflexivity].
Qed.

Lemma without_notin x l : ~ In x l -> without x l = l.
Proof.
  induction l as [|y l IH]; intros H; [reflexivity|].
  cbn. destruct (Z.eqb_spec y x) as [E|E]; cbn.
  - exfalso. apply H. left. exact E.
  - f_equal. apply IH. intros Hi. apply H. right. exact Hi.
Qed.

Lemma without_mid x l1 l2 :
  ~ In x l1 -> ~ In x l2 -> without x (l1 ++ x :: l2) = l1 ++ l2.
Proof.
  intros H1 H2. unfold without. rewrite filter_app. cbn.
  rewrite Z.eqb_refl. cbn.
  fold (without x l1). fold (without x l2).
  rewrite !without_notin by assumption. reflexivity.
Qed.

Lemma NoDup_without x l : NoDup l -> NoDup (without x l).
Proof. apply NoDup_filter. Qed.

Lemma NoDup_mid (x : Z) l1 l2 :
  NoDup (l1 ++ x :: l2) -> ~ In x l1 /\ ~ In x l2 /\ NoDup (l1 ++ l2).
Proof.
  intros H. pose proof (NoDup_remove_1 _ _ _ H) as H1.
  pose proof (NoDup_remove_2 _ _ _ H) as H2.
  conjs; try assumption; intros Hi; apply H2; apply in_or_app; [left | right]; exact Hi.
Qed.

Lemma last_cons (x : Z) l : forall d, last (x :: l) d = last l x.
Proof.
  revert x. induction l as [|y l IH]; intros x d; [reflexivity|].
  change (last (x :: y :: l) d) with (last (y :: l) d).
  rewrite (IH y d). symmetry. apply IH.
Qed.

(** *** The [prev] links of a list *)

Lemma prevs_frame h h' l : forall pv,
  prevs h pv l ->
  (forall x, In x l ->
     load 8 (contents h') (x + 8) = load 8 (contents h) (x + 8)) ->
  prevs h' pv l.
Proof.
  induction l as [|x l IH]; intros pv Hp Hf; [exact I|].
  destruct Hp as [Hx Hp]. split.
  - rewrite Hf by (left; reflexivity). exact Hx.
  - apply IH; [exact Hp|]. intros y Hy. apply Hf. right. exact Hy.
Qed.

Lemma prevs_app h l2 : forall l1 pv,
  prevs h pv (l1 ++ l2) <-> prevs h pv l1 /\ prevs h (last l1 pv) l2.
Proof.
  induction l1 as [|x l1 IH]; intros pv.
  - cbn. tauto.
  - cbn [app prevs]. rewrite IH.
    rewrite last_cons. tauto.
Qed.

(** *** The [next] links of a list *)

Lemma chain_mid h bp l2 : forall l1 p,
  chain h p (l1 ++ bp :: l2) -> chain h (load 8 (contents h) bp) l2.
Proof.
  induction l1 as [|x l1 IH]; intros p Hc; cbn [app] in Hc;
    apply chain_cons_inv in Hc; destruct Hc as (-> & _ & _ & Hc).
  - exact Hc.
  - exact (IH _ Hc).
Qed.

Lemma chain_shape h p l :
  chain h p l -> (p = NULL /\ l = []) \/ (p <> NULL /\ exists l', l = p :: l').
Proof.
  intros H. destruct H.
  - left. split; reflexivity.
  - right. split; [assumption|]. eexists. reflexivity.
Qed.

Lemma in_drop x y L i : In y (drop x L i) <-> In y (L i) /\ y <> x.
Proof. apply in_without. Qed.

Lemma drop_push_same c x L i :
  (forall j, 0 <= j < 12 -> ~ In x (L j)) -> 0 <= i < 12 ->
  L i = drop x (push c x L) i.
Proof.
  intros Hn Hi. unfold drop, push.
  destruct (Z.eqb_spec i c) as [->|_].
  - cbn. rewrite Z.eqb_refl. cbn. symmetry. apply without_notin. apply Hn. exact Hi.
  - symmetry. apply without_notin. apply Hn. exact Hi.
Qed.

(** *** What keeps the lists, and what an insertion or a removal does *)

Lemma chain_valid h l : forall p x, chain h p l -> In x l -> valid h x 8 = true.
Proof.
  induction l as [|y l IH]; intros p x Hc Hi; [destruct Hi|].
  apply chain_cons_inv in Hc. destruct Hc as (-> & _ & Hv & Hc).
  destruct Hi as [<-|Hi]; [exact Hv | exact (IH _ _ Hc Hi)].
Qed.

(** Lists are preserved when the slots and the link fields of their nodes
    are. *)
Lemma free_lists_frame h h' L :
  free_lists h L ->
  mem_start_brk h' = mem_start_brk h -> mem_brk h' = mem_brk h ->
  heap_ptr h' = heap_ptr h ->
  (forall i, 0 <= i < 12 ->
     load 8 (contents h') (heap_ptr h + 8 * i) =
     load 8 (contents h) (heap_ptr h + 8 * i)) ->
  (forall i x, 0 <= i < 12 -> In x (L i) ->
     load 8 (contents h') x = load 8 (contents h) x /\
     load 8 (contents h') (x + 8) = load 8 (contents h) (x + 8)) ->
  free_lists h' L.
Proof.
  intros (Hc & Hin & Hsep & Hnd) E1 E2 E3 Hs Hf.
  unfold free_lists. rewrite E2, E3. conjs; try assumption.
  intros i Hi. destruct (Hc i Hi) as [Hch Hpv]. split.
  - rewrite Hs by exact Hi.
    apply (chain_frame h); [exact Hch|].
    intros x Hx. split; [|apply (Hf i x Hi Hx)].
    pose proof (chain_valid _ _ _ _ Hch Hx) as Hv.
    unfold valid in *. rewrite E1, E2. exact Hv.
  - apply (prevs_frame h); [exact Hpv|].
    intros x Hx. apply (Hf i x Hi Hx).
Qed.

(** A store of four bytes above the table and away from the link fields of
    every node leaves the lists as they are. *)
Lemma free_lists_store4 h L a v :
  free_lists h L ->
  heap_ptr h + 96 <= a ->
  (forall i x, 0 <= i < 12 -> In x (L i) -> a + 4 <= x \/ x + 16 <= a) ->
  free_lists (set_contents h (store 4 (contents h) a v)) L.
Proof.
  intros HL Ha Hx.
  apply (free_lists_frame h); try reflexivity; try exact HL; heap_proj.
  - intros i Hi. apply load_store_other. simpl Z.of_nat. lia.
  - intros i x Hi Hin. pose proof (Hx i x Hi Hin).
    split; apply load_store_other; simpl Z.of_nat; lia.
Qed.

Lemma free_lists_ext h L L' :
  (forall i, 0 <= i < 12 -> L' i = L i) -> free_lists h L -> free_lists h L'.
Proof.
  intros E (Hc & Hin & Hsep & Hnd). unfold free_lists. conjs.
  - intros i Hi. rewrite E by exact Hi. exact (Hc i Hi).
  - intros i x Hi. rewrite E by exact Hi. exact (Hin i x Hi).
  - intros i j x y Hi Hj. rewrite !E by assumption. exact (Hsep i j x y Hi Hj).
  - intros i Hi. rewrite E by exact Hi. exact (Hnd i Hi).
Qed.

Section Lists.

Variable h : heap.
Variable L : Z -> list Z.
Hypothesis brk_bound : mem_brk h < 2 ^ 64.
Hypothesis table_first : 0 <= mem_start_brk h <= heap_ptr h.
Hypothesis HL : free_lists h L.

Lemma fl_node i x :
  0 <= i < 12 -> In x (L i) -> heap_ptr h + 96 <= x /\ x + 16 <= mem_brk h.
Proof. destruct HL as (_ & Hin & _). apply Hin. Qed.

Lemma fl_apart i j x y :
  0 <= i < 12 -> 0 <= j < 12 -> In x (L i) -> In y (L j) ->
  (x = y /\ i = j) \/ x + 16 <= y \/ y + 16 <= x.
Proof. destruct HL as (_ & _ & Hsep & _). apply Hsep. Qed.

(** The head of a list: null when the list is empty, and else its first
    node, whose [prev] link is null. *)
Lemma fl_head c :
  0 <= c < 12 ->
  let hd := load 8 (contents h) (heap_ptr h + 8 * c) in
  (hd = NULL /\ L c = []) \/
  (hd <> NULL /\ In hd (L c) /\ load 8 (contents h) (hd + 8) = NULL /\
   exists l', L c = hd :: l').
Proof.
  intros Hc hd. destruct HL as (Hch & _).
  destruct (Hch c Hc) as [H1 H2]. fold hd in H1.
  destruct (chain_shape _ _ _ H1) as [[E1 E2]|[E1 [l' E2]]].
  - left. split; assumption.
  - right. rewrite E2 in H2. destruct H2 as [H2 _].
    conjs; try assumption.
    + rewrite E2. left. reflexivity.
    + exists l'. exact E2.
Qed.

(** A node of a list, with the nodes before and after it. *)
Lemma fl_split c bp :
  0 <= c < 12 -> In bp (L c) ->
  let nx := load 8 (contents h) bp in
  let pv := load 8 (contents h) (bp + 8) in
  exists l1 l2,
    L c = l1 ++ bp :: l2 /\ ~ In bp l1 /\ ~ In bp l2 /\ NoDup (l1 ++ l2) /\
    pv = last l1 NULL /\
    ((l1 = [] /\ pv = NULL) \/ (l1 <> [] /\ pv <> NULL /\ In pv l1)) /\
    ((l2 = [] /\ nx = NULL) \/ (nx <> NULL /\ exists l2', l2 = nx :: l2')) /\
    chain h nx l2 /\ prevs h NULL l1 /\ prevs h bp l2.
Proof.
  intros Hc Hbp nx pv.
  destruct (in_split _ _ Hbp) as (l1 & l2 & E).
  exists l1, l2.
  destruct HL as (Hch & Hin & _ & Hnd).
  destruct (Hch c Hc) as [H1 H2]. pose proof (Hnd c Hc) as H3.
  rewrite E in H1, H2, H3.
  destruct (NoDup_mid _ _ _ H3) as (N1 & N2 & N3).
  apply prevs_app in H2. destruct H2 as [P1 [P2 P3]]. fold pv in P2.
  pose proof (chain_mid _ _ _ _ _ H1) as C2. fold nx in C2.
  conjs; try assumption.
  - destruct l1 as [|x l1]; [left; split; [reflexivity | exact P2] | right].
    assert (Hl : In pv (x :: l1)) by (rewrite P2; apply last_in; discriminate).
    conjs; [discriminate | | exact Hl].
    destruct (Hin c pv Hc) as [? _]; [rewrite E; apply in_or_app; left; exact Hl|].
    unfold NULL. lia.
  - destruct (chain_shape _ _ _ C2) as [[E1 E2]|[E1 [l' E2]]].
    + left. split; assumption.
    + right. split; [exact E1 | exists l'; exact E2].
Qed.

(** *** Insertion *)

Lemma add_mem_lists c bp :
  0 <= c < 12 ->
  heap_ptr h + 96 <= bp -> bp + 16 <= mem_brk h ->
  (forall i x, 0 <= i < 12 -> In x (L i) -> x + 16 <= bp \/ bp + 16 <= x) ->
  free_lists (set_contents h (add_mem (contents h) (heap_ptr h + 8 * c) bp))
             (push c bp L).
Proof.
  intros Hc Hb1 Hb2 Hbp. unfold push.
  set (slot := heap_ptr h + 8 * c).
  set (hd := load 8 (contents h) slot).
  set (m' := add_mem (contents h) slot bp).
  pose proof (fl_head c Hc) as Hhd. cbv zeta in Hhd. fold slot hd in Hhd.
  assert (Bhd : hd = NULL \/
                (hd <> NULL /\ In hd (L c) /\ heap_ptr h + 96 <= hd /\
                 hd + 16 <= mem_brk h /\ (hd + 16 <= bp \/ bp + 16 <= hd))).
  { destruct Hhd as [[? _]|(Hn & Hi & _)]; [left; assumption | right].
    destruct (fl_node c hd Hc Hi). pose proof (Hbp c hd Hc Hi). conjs; assumption. }
  assert (F : forall n a,
            (a + Z.of_nat n <= slot \/ slot + 8 <= a) ->
            (a + Z.of_nat n <= bp \/ bp + 16 <= a) ->
            (hd = NULL \/ a + Z.of_nat n <= hd + 8 \/ hd + 16 <= a) ->
            load n m' a = load n (contents h) a).
  { intros n a H1 H2 H3. apply load_add_mem_other; assumption. }
  assert (Fnext : forall i x, 0 <= i < 12 -> In x (L i) ->
            load 8 m' x = load 8 (contents h) x).
  { intros i x Hi Hx. destruct (fl_node i x Hi Hx). pose proof (Hbp i x Hi Hx).
    apply F; simpl Z.of_nat; [unfold slot; lia | lia |].
    destruct Bhd as [?|(_ & Hh & _)]; [left; assumption | right].
    destruct (fl_apart i c x hd Hi Hc Hx Hh) as [[-> _]|?]; lia. }
  assert (Fprev : forall i x, 0 <= i < 12 -> In x (L i) -> x <> hd ->
            load 8 m' (x + 8) = load 8 (contents h) (x + 8)).
  { intros i x Hi Hx Hne. destruct (fl_node i x Hi Hx). pose proof (Hbp i x Hi Hx).
    apply F; simpl Z.of_nat; [unfold slot; lia | lia |].
    destruct Bhd as [?|(_ & Hh & _)]; [left; assumption | right].
    destruct (fl_apart i c x hd Hi Hc Hx Hh) as [[-> _]|?]; [contradiction | lia]. }
  assert (Fslot : forall i, 0 <= i < 12 -> i <> c ->
            load 8 m' (heap_ptr h + 8 * i) = load 8 (contents h) (heap_ptr h + 8 * i)).
  { intros i Hi Hne. apply F; simpl Z.of_nat; [unfold slot; lia | lia |].
    destruct Bhd as [?|(_ & _ & ? & _)]; [left; assumption | right; lia]. }
  assert (Hhead : load 8 m' slot = bp).
  { apply add_mem_head; [lia | unfold slot; lia |].
    fold hd. destruct Bhd as [?|(_ & _ & ? & _)];
               [left; assumption | right; unfold slot; lia]. }
  assert (Hprev : load 8 m' (bp + 8) = NULL).
  { apply add_mem_prev. fold hd.
    destruct Bhd as [?|(_ & _ & _ & _ & ?)]; [left; assumption | right; lia]. }
  assert (Hnext : load 8 m' bp = hd) by apply add_mem_next.
  assert (Hnotin : forall i, 0 <= i < 12 -> ~ In bp (L i)).
  { intros i Hi Hin. pose proof (Hbp i bp Hi Hin). lia. }
  destruct HL as (Hch & Hin & Hsep & Hnd).
  unfold free_lists. heap_proj. fold slot m'. conjs.
  - intros i Hi. destruct (Hch i Hi) as [C P].
    destruct (Z.eqb_spec i c) as [->|Hne].
    + fold slot. rewrite Hhead. split.
      * apply chain_cons; [unfold NULL; lia | solve_valid |].
        heap_proj. rewrite Hnext.
        apply (chain_frame h); [exact C|].
        intros x Hx. split; [|heap_proj; exact (Fnext c x Hc Hx)].
        destruct (Hin c x Hc Hx). solve_valid.
      * cbn [prevs]. heap_proj. split; [exact Hprev|].
        destruct Hhd as [[_ E]|(Hn & _ & _ & l' & E)]; rewrite E; [exact I|].
        rewrite E in P. destruct P as [_ P]. cbn [prevs]. heap_proj. split.
        -- unfold m', add_mem. fold hd.
           destruct (Z.eqb_spec hd NULL); [contradiction|].
           destruct Bhd as [?|(_ & _ & ? & ? & ?)]; [contradiction|].
           rewrite load_store_other by (simpl Z.of_nat; lia).
           rewrite load_store_same. apply Z.mod_small. lia.
        -- apply (prevs_frame h); [exact P|].
           intros x Hx. heap_proj. apply (Fprev c); [exact Hc | |].
           ++ rewrite E. right. exact Hx.
           ++ intros ->. pose proof (Hnd c Hc) as N. rewrite E in N.
              inversion N. contradiction.
    + rewrite Fslot by assumption. split.
      * apply (chain_frame h); [exact C|].
        intros x Hx. split; [|heap_proj; exact (Fnext i x Hi Hx)].
        destruct (Hin i x Hi Hx). solve_valid.
      * apply (prevs_frame h); [exact P|].
        intros x Hx. heap_proj. apply (Fprev i); [exact Hi | exact Hx |].
        intros ->. destruct Bhd as [E|(_ & Hh & _)].
        -- destruct (Hin i _ Hi Hx). rewrite E in *. unfold NULL in *. lia.
        -- destruct (Hsep i c hd hd Hi Hc Hx Hh) as [[_ ?]|?]; [contradiction | lia].
  - intros i x Hi Hx. destruct (Z.eqb_spec i c) as [->|Hne].
    + destruct Hx as [<-|Hx]; [lia | exact (Hin c x Hc Hx)].
    + exact (Hin i x Hi Hx).
  - intros i j x y Hi Hj Hx Hy.
    assert (Hx' : x = bp /\ i = c \/ In x (L i)).
    { destruct (Z.eqb_spec i c) as [->|Hne]; [|right; exact Hx].
      destruct Hx as [<-|Hx]; [left; split; reflexivity | right; exact Hx]. }
    assert (Hy' : y = bp /\ j = c \/ In y (L j)).
    { destruct (Z.eqb_spec j c) as [->|Hne]; [|right; exact Hy].
      destruct Hy as [<-|Hy]; [left; split; reflexivity | right; exact Hy]. }
    destruct Hx' as [[-> ->]|Hx']; destruct Hy' as [[-> ->]|Hy'].
    + left. split; reflexivity.
    + pose proof (Hbp j y Hj Hy'). right. lia.
    + pose proof (Hbp i x Hi Hx'). right. lia.
    + exact (Hsep i j x y Hi Hj Hx' Hy').
  - intros i Hi. destruct (Z.eqb_spec i c) as [->|Hne]; [|exact (Hnd i Hi)].
    apply NoDup_cons; [exact (Hnotin c Hc) | exact (Hnd c Hc)].
Qed.

(** Bytes away from the table and from the link fields of every node are
    not written by an insertion that is away from them too. *)
Lemma add_mem_away n a c bp :
  0 <= c < 12 ->
  (a + Z.of_nat n <= heap_ptr h \/ heap_ptr h + 96 <= a) ->
  (a + Z.of_nat n <= bp \/ bp + 16 <= a) ->
  (forall i x, 0 <= i < 12 -> In x (L i) -> a + Z.of_nat n <= x \/ x + 16 <= a) ->
  load n (add_mem (contents h) (heap_ptr h + 8 * c) bp) a = load n (contents h) a.
Proof.
  intros Hc Ht Hb Hx. apply load_add_mem_other; [lia | exact Hb |].
  destruct (fl_head c Hc) as [[? _]|(_ & Hi & _)]; [left; assumption | right].
  pose proof (Hx c _ Hc Hi). lia.
Qed.

(** *** Removal *)

(** Bytes away from the table and from the link fields of the other nodes
    are not written by a removal. *)
Lemma rem_mem_away n a c bp :
  0 <= c < 12 -> In bp (L c) ->
  (a + Z.of_nat n <= heap_ptr h \/ heap_ptr h + 96 <= a) ->
  (forall i x, 0 <= i < 12 -> In x (L i) -> x <> bp ->
     a + Z.of_nat n <= x \/ x + 16 <= a) ->
  load n (rem_mem (contents h) (heap_ptr h + 8 * c) bp) a = load n (contents h) a.
Proof.
  intros Hc Hbp Ht Hx.
  destruct (fl_split c bp Hc Hbp)
    as (l1 & l2 & E & N1 & N2 & _ & _ & Hpv & Hnx & _).
  apply load_rem_mem_other; [lia | |].
  - destruct Hnx as [[_ ?]|(_ & l2' & E2)]; [left; assumption | right].
    assert (Hi : In (load 8 (contents h) bp) (L c)).
    { rewrite E, E2. apply in_or_app. right. right. left. reflexivity. }
    assert (Hne : load 8 (contents h) bp <> bp).
    { intros Heq. apply N2. rewrite E2. left. exact Heq. }
    pose proof (Hx c _ Hc Hi Hne). lia.
  - destruct Hpv as [[_ ?]|(_ & _ & Hi1)]; [left; assumption | right].
    assert (Hi : In (load 8 (contents h) (bp + 8)) (L c)).
    { rewrite E. apply in_or_app. left. exact Hi1. }
    assert (Hne : load 8 (contents h) (bp + 8) <> bp).
    { intros Heq. apply N1. rewrite <- Heq at 1. exact Hi1. }
    pose proof (Hx c _ Hc Hi Hne). lia.
Qed.

Lemma rem_mem_lists c bp :
  0 <= c < 12 -> In bp (L c) ->
  free_lists (set_contents h (rem_mem (contents h) (heap_ptr h + 8 * c) bp))
             (drop bp L).
Proof.
  intros Hc Hbp. unfold drop.
  set (slot := heap_ptr h + 8 * c).
  set (nx := load 8 (contents h) bp).
  set (pv := load 8 (contents h) (bp + 8)).
  set (m' := rem_mem (contents h) slot bp).
  destruct (fl_split c bp Hc Hbp)
    as (l1 & l2 & E & N1 & N2 & N3 & Epv & Hpv & Hnx & C2 & P1 & P2).
  fold nx in Hnx, C2. fold pv in Epv, Hpv.
  pose proof (load8_range (contents h) bp) as Rnx. fold nx in Rnx.
  pose proof (load8_range (contents h) (bp + 8)) as Rpv. fold pv in Rpv.
  destruct (fl_node c bp Hc Hbp) as [Hb1 Hb2].
  assert (Inx : nx = NULL \/ (nx <> NULL /\ In nx l2 /\ In nx (L c) /\ nx <> bp)).
  { destruct Hnx as [[_ ?]|(Hn & l2' & E2)]; [left; assumption | right].
    assert (Hi : In nx l2) by (rewrite E2; left; reflexivity).
    conjs; try assumption.
    - rewrite E. apply in_or_app. right. right. exact Hi.
    - intros Heq. apply N2. rewrite <- Heq. exact Hi. }
  assert (Ipv : pv = NULL \/ (pv <> NULL /\ In pv l1 /\ In pv (L c) /\ pv <> bp)).
  { destruct Hpv as [[_ ?]|(_ & Hn & Hi)]; [left; assumption | right].
    conjs; try assumption.
    - rewrite E. apply in_or_app. left. exact Hi.
    - intros Heq. apply N1. rewrite <- Heq. exact Hi. }
  assert (Bnx : nx = NULL \/ (heap_ptr h + 96 <= nx /\ nx + 16 <= mem_brk h)).
  { destruct Inx as [?|(_ & _ & Hi & _)]; [left; assumption | right].
    exact (fl_node c nx Hc Hi). }
  assert (Bpv : pv = NULL \/ (heap_ptr h + 96 <= pv /\ pv + 16 <= mem_brk h)).
  { destruct Ipv as [?|(_ & _ & Hi & _)]; [left; assumption | right].
    exact (fl_node c pv Hc Hi). }
  assert (Hpn : pv = NULL \/ nx = NULL \/ pv + 16 <= nx \/ nx + 16 <= pv).
  { destruct Ipv as [?|(_ & Hi1 & Hi1' & _)]; [left; assumption|].
    destruct Inx as [?|(_ & Hi2 & Hi2' & _)]; [right; left; assumption|].
    right; right.
    destruct (fl_apart c c pv nx Hc Hc Hi1' Hi2') as [[Heq _]|?]; [|assumption].
    exfalso. rewrite Heq in Hi1. clear - N3 Hi1 Hi2.
    induction l1 as [|x l1 IH]; [destruct Hi1|].
    cbn [app] in N3. inversion N3 as [|? ? Hn N3']; subst.
    destruct Hi1 as [->|Hi1]; [apply Hn; apply in_or_app; right; exact Hi2|].
    exact (IH N3' Hi1). }
  assert (F : forall n a,
            (a + Z.of_nat n <= slot \/ slot + 8 <= a) ->
            (nx = NULL \/ a + Z.of_nat n <= nx + 8 \/ nx + 16 <= a) ->
            (pv = NULL \/ a + Z.of_nat n <= pv \/ pv + 8 <= a) ->
            load n m' a = load n (contents h) a).
  { intros n a H1 H2 H3. apply load_rem_mem_other; assumption. }
  assert (Fnext : forall i x, 0 <= i < 12 -> In x (L i) -> x <> pv ->
            load 8 m' x = load 8 (contents h) x).
  { intros i x Hi Hx Hne. destruct (fl_node i x Hi Hx).
    apply F; simpl Z.of_nat; [unfold slot; lia | |].
    - destruct Inx as [?|(_ & _ & Hn & _)]; [left; assumption | right].
      destruct (fl_apart i c x nx Hi Hc Hx Hn) as [[-> _]|?]; lia.
    - destruct Ipv as [?|(_ & _ & Hp & _)]; [left; assumption | right].
      destruct (fl_apart i c x pv Hi Hc Hx Hp) as [[? _]|?]; [contradiction | lia]. }
  assert (Fprev : forall i x, 0 <= i < 12 -> In x (L i) -> x <> nx ->
            load 8 m' (x + 8) = load 8 (contents h) (x + 8)).
  { intros i x Hi Hx Hne. destruct (fl_node i x Hi Hx).
    apply F; simpl Z.of_nat; [unfold slot; lia | |].
    - destruct Inx as [?|(_ & _ & Hn & _)]; [left; assumption | right].
      destruct (fl_apart i c x nx Hi Hc Hx Hn) as [[? _]|?]; [contradiction | lia].
    - destruct Ipv as [?|(_ & _ & Hp & _)]; [left; assumption | right].
      destruct (fl_apart i c x pv Hi Hc Hx Hp) as [[-> _]|?]; lia. }
  assert (Fslot : forall i, 0 <= i < 12 -> i <> c ->
            load 8 m' (heap_ptr h + 8 * i) = load 8 (contents h) (heap_ptr h + 8 * i)).
  { intros i Hi Hne. apply F; simpl Z.of_nat; [unfold slot; lia | |].
    - destruct Bnx as [?|[? _]]; [left; assumption | right; lia].
    - destruct Bpv as [?|[? _]]; [left; assumption | right; lia]. }
  (* what the removal writes *)
  assert (Wslot : load 8 m' slot = if pv =? NULL then nx else load 8 (contents h) slot).
  { unfold m', rem_mem. fold nx pv.
    destruct (Z.eqb_spec pv NULL) as [Ep|Ep]; destruct (Z.eqb_spec nx NULL) as [En|En];
      cbn [andb negb].
    - rewrite load_store_same, En. reflexivity.
    - destruct Bnx as [?|[? ?]]; [contradiction|].
      rewrite load_store_other by (unfold slot; simpl Z.of_nat; lia).
      rewrite load_store_same. apply Z.mod_small. lia.
    - destruct Bpv as [?|[? ?]]; [contradiction|].
      rewrite load_store_other by (unfold slot; simpl Z.of_nat; lia). reflexivity.
    - destruct Bpv as [?|[? ?]]; [contradiction|].
      destruct Bnx as [?|[? ?]]; [contradiction|].
      rewrite !load_store_other by (unfold slot; simpl Z.of_nat; lia). reflexivity. }
  assert (Wnext : pv <> NULL -> load 8 m' pv = nx).
  { intros Ep. unfold m', rem_mem. fold nx pv.
    destruct (Z.eqb_spec pv NULL) as [?|_]; [contradiction|].
    destruct (Z.eqb_spec nx NULL) as [En|En]; cbn [andb negb].
    - rewrite load_store_same, En. reflexivity.
    - destruct Hpn as [?|[?|Hd]]; [contradiction | contradiction |].
      rewrite load_store_other by (simpl Z.of_nat; lia).
      rewrite load_store_same. apply Z.mod_small. lia. }
  assert (Wprev : nx <> NULL -> load 8 m' (nx + 8) = pv).
  { intros En. unfold m', rem_mem. fold nx pv.
    destruct (Z.eqb_spec nx NULL) as [?|_]; [contradiction|].
    destruct (Z.eqb_spec pv NULL) as [Ep|Ep]; cbn [andb negb].
    - rewrite load_store_same, Ep. reflexivity.
    - rewrite load_store_same. apply Z.mod_small. lia. }
  assert (Hother : forall i, 0 <= i < 12 -> i <> c -> ~ In bp (L i)).
  { intros i Hi Hne Hin.
    destruct (fl_apart i c bp bp Hi Hc Hin Hbp) as [[_ ?]|?]; [contradiction | lia]. }
  assert (Hsub : forall x, In x (l1 ++ l2) -> In x (L c) /\ x <> bp).
  { intros x Hx. rewrite E. apply in_app_or in Hx. split.
    - apply in_or_app. destruct Hx; [left | right; right]; assumption.
    - intros ->. destruct Hx; contradiction. }
  destruct HL as (Hch & Hin & Hsep & Hnd).
  unfold free_lists. heap_proj. fold slot m'. conjs.
  - intros i Hi. destruct (Hch i Hi) as [C P].
    destruct (Z.eq_dec i c) as [->|Hne].
    + fold slot. rewrite E. rewrite without_mid by assumption.
      rewrite E in C. split.
      * (* the [next] links *)
        assert (Hv : forall x, In x (l1 ++ l2) ->
                  valid (set_contents h m') x 8 = true).
        { intros x Hx. destruct (Hsub x Hx) as [Hx' _].
          destruct (Hin c x Hc Hx'). solve_valid. }
        rewrite Wslot.
        destruct Hpv as [[-> Ep]|(Hne1 & Ep & Hi1)].
        -- rewrite Ep. change (NULL =? NULL) with true. cbv iota.
           apply (chain_unlink h _ bp l2 [] (load 8 (contents h) slot)); try assumption.
           ++ rewrite <- E. exact (Hnd c Hc).
           ++ intros x Hx _. heap_proj. destruct (Hsub x Hx) as [Hx' _].
              apply (Fnext c); [exact Hc | exact Hx' |].
              rewrite Ep. destruct (Hin c x Hc Hx'). unfold NULL. lia.
           ++ intros H. contradiction.
        -- destruct (Z.eqb_spec pv NULL) as [?|_]; [contradiction|].
           pose proof (chain_unlink h (set_contents h m') bp l2 l1
                         (load 8 (contents h) slot) C) as Q.
           destruct l1 as [|x l1]; [contradiction|].
           apply Q.
           ++ rewrite <- E. exact (Hnd c Hc).
           ++ exact Hv.
           ++ intros z Hz Hzp. heap_proj. destruct (Hsub z Hz) as [Hz' _].
              apply (Fnext c); [exact Hc | exact Hz' |].
              rewrite Epv. exact Hzp.
           ++ intros _. heap_proj. rewrite <- Epv. fold nx. apply Wnext. exact Ep.
      * (* the [prev] links *)
        apply prevs_app. split.
        -- apply (prevs_frame h); [exact P1|].
           intros x Hx. heap_proj.
           assert (Hx' : In x (l1 ++ l2)) by (apply in_or_app; left; exact Hx).
           destruct (Hsub x Hx') as [Hxc _].
           apply (Fprev c); [exact Hc | exact Hxc |].
           intros ->. destruct Inx as [En|(_ & Hi2 & _)].
           ++ destruct (Hin c _ Hc Hxc). rewrite En in *. unfold NULL in *. lia.
           ++ clear - N3 Hx Hi2.
              induction l1 as [|y l1 IH]; [destruct Hx|].
              cbn [app] in N3. inversion N3 as [|? ? Hn N3']; subst.
              destruct Hx as [->|Hx]; [apply Hn; apply in_or_app; right; exact Hi2|].
              exact (IH N3' Hx).
        -- rewrite <- Epv.
           destruct Hnx as [[-> _]|(En & l2' & E2)]; [exact I|].
           rewrite E2 in *. destruct P2 as [_ P2]. cbn [prevs]. heap_proj. split.
           ++ apply Wprev. exact En.
           ++ apply (prevs_frame h); [exact P2|].
              intros x Hx. heap_proj.
              assert (Hx' : In x (l1 ++ nx :: l2'))
                by (apply in_or_app; right; right; exact Hx).
              destruct (Hsub x Hx') as [Hxc _].
              apply (Fprev c); [exact Hc | exact Hxc |].
              intros ->. apply NoDup_remove_2 in N3. apply N3.
              apply in_or_app. right. exact Hx.
    + rewrite without_notin by (apply Hother; assumption).
      rewrite Fslot by assumption. split.
      * apply (chain_frame h); [exact C|].
        intros x Hx. split.
        -- destruct (Hin i x Hi Hx). solve_valid.
        -- heap_proj. apply (Fnext i); [exact Hi | exact Hx |].
           intros ->. destruct Ipv as [Ep|(_ & _ & Hp & _)].
           ++ destruct (Hin i _ Hi Hx). rewrite Ep in *. unfold NULL in *. lia.
           ++ destruct (Hsep i c pv pv Hi Hc Hx Hp) as [[_ ?]|?]; [contradiction | lia].
      * apply (prevs_frame h); [exact P|].
        intros x Hx. heap_proj. apply (Fprev i); [exact Hi | exact Hx |].
        intros ->. destruct Inx as [En|(_ & _ & Hn & _)].
        -- destruct (Hin i _ Hi Hx). rewrite En in *. unfold NULL in *. lia.
        -- destruct (Hsep i c nx nx Hi Hc Hx Hn) as [[_ ?]|?]; [contradiction | lia].
  - intros i x Hi Hx. apply in_without in Hx. exact (Hin i x Hi (proj1 Hx)).
  - intros i j x y Hi Hj Hx Hy. apply in_without in Hx. apply in_without in Hy.
    exact (Hsep i j x y Hi Hj (proj1 Hx) (proj1 Hy)).
  - intros i Hi. apply NoDup_without. exact (Hnd i Hi).
Qed.

End Lists.

Lemma free_lists_just h c l :
  0 <= c < 12 ->
  (forall i, 0 <= i < 12 -> i <> c ->
     load 8 (contents h) (heap_ptr h + 8 * i) = NULL) ->
  chain h (load 8 (contents h) (heap_ptr h + 8 * c)) l ->
  prevs h NULL l -> nodes_apart h l -> NoDup l ->
  free_lists h (just c l).
Proof.
  intros Hc Hnull Hch Hpv [Hin Hsep] Hnd. unfold free_lists, just. conjs.
  - intros i Hi. destruct (Z.eqb_spec i c) as [->|Hne].
    + split; assumption.
    + rewrite Hnull by assumption. split; [apply chain_nil | exact I].
  - intros i x Hi Hx. destruct (i =? c); [exact (Hin x Hx) | destruct Hx].
  - intros i j x y Hi Hj Hx Hy.
    destruct (Z.eqb_spec i c) as [->|?]; [|destruct Hx].
    destruct (Z.eqb_spec j c) as [->|?]; [|destruct Hy].
    destruct (Hsep x y Hx Hy) as [?|?]; [left; split; [assumption | reflexivity] | right; assumption].
  - intros i Hi. destruct (i =? c); [exact Hnd | apply NoDup_nil].
Qed.

(** ** Facts about the test heaps *)

(** Splits a goal about a list number into its twelve cases. *)
Ltac small_index i :=
  match goal with
  | H : 0 <= i < 12 |- _ =>
      assert (i = 0 \/ i = 1 \/ i = 2 \/ i = 3 \/ i = 4 \/ i = 5 \/
              i = 6 \/ i = 7 \/ i = 8 \/ i = 9 \/ i = 10 \/ i = 11) as Hsmall by lia;
      repeat (destruct Hsmall as [Hsmall|Hsmall]); subst i
  end.

Lemma cyclic_heap_reached : double_free_script fresh_heap = Ok (4208, 4272) cyclic_heap.
Proof. vm_compute. reflexivity. Qed.

Lemma cyclic_heap_links :
  heap_ptr cyclic_heap = 4096 /\
  GET 4096 cyclic_heap = Ok 4208 cyclic_heap /\
  GET 4208 cyclic_heap = Ok 4272 cyclic_heap /\
  GET 4272 cyclic_heap = Ok 4208 cyclic_heap.
Proof. conjs; vm_compute; reflexivity. Qed.

Lemma cycle_loop_spins fuel :
  cycle_loop fuel 4208 4272 cyclic_heap = OutOfFuel /\
  cycle_loop fuel 4272 4208 cyclic_heap = OutOfFuel.
Proof.
  destruct cyclic_heap_links as (_ & _ & H1 & H2).
  induction fuel as [|f [IH1 IH2]]; [split; reflexivity|].
  split.
  - rewrite (cycle_loop_step f 4208 4272 cyclic_heap 4272 4208);
      unfold NULL; try lia; assumption.
  - rewrite (cycle_loop_step f 4272 4208 cyclic_heap 4208 4272);
      unfold NULL; try lia; assumption.
Qed.

Lemma one_free_heap_facts :
  two_free_script fresh_heap = Ok (4208, 4272) one_free_heap /\
  mem_start_brk one_free_heap = 4096 /\
  mem_brk one_free_heap = 4376 /\
  heap_ptr one_free_heap = 4096 /\
  load 8 (contents one_free_heap) 4096 = 4208 /\
  load 8 (contents one_free_heap) (4208 + 8) = NULL.
Proof. conjs; vm_compute; reflexivity. Qed.

Lemma front_free_heap_facts :
  mem_start_brk front_free_heap = 4096 /\
  mem_brk front_free_heap = 4376 /\
  heap_ptr front_free_heap = 4096 /\
  load 8 (contents front_free_heap) (4096 + 8 * 0) = 4208 /\
  load 8 (contents front_free_heap) 4208 = 4272 /\
  load 8 (contents front_free_heap) (4208 + 8) = NULL /\
  load 8 (contents front_free_heap) 4272 = NULL /\
  load 8 (contents front_free_heap) (4272 + 8) = 4208 /\
  load 4 (contents front_free_heap) (4272 - 4) = 106 /\
  load 4 (contents front_free_heap) (4376 - 4) = 1.
Proof. conjs; vm_compute; reflexivity. Qed.

Lemma front_free_heap_slots i :
  0 <= i < 12 -> i <> 0 ->
  load 8 (contents front_free_heap) (heap_ptr front_free_heap + 8 * i) = NULL.
Proof. intros Hi Hne. small_index i; try contradiction; vm_compute; reflexivity. Qed.

Lemma front_free_heap_lists : free_lists front_free_heap (just 0 [4208; 4272]).
Proof.
  destruct front_free_heap_facts as (Elo & Ebrk & Ehp & Ehd & E1 & P1 & E2 & P2 & _).
  apply free_lists_just.
  - lia.
  - exact front_free_heap_slots.
  - rewrite Ehp, Ehd.
    apply chain_cons; [unfold NULL; lia | apply valid_true; rewrite ?Elo, ?Ebrk; simpl; lia |].
    rewrite E1.
    apply chain_cons; [unfold NULL; lia | apply valid_true; rewrite ?Elo, ?Ebrk; simpl; lia |].
    rewrite E2. apply chain_nil.
  - cbn [prevs]. conjs; [exact P1 | exact P2 | exact I].
  - split.
    + intros x [<-|[<-|[]]]; rewrite Ehp, Ebrk; lia.
    + intros x y [<-|[<-|[]]] [<-|[<-|[]]]; lia.
  - repeat constructor; simpl; intuition lia.
Qed.

(** * The claims *)

(** ** C1: zero initialisation *)

(** C1.  [zeroed_alloc(m, s)] is to return a region whose [m * s] bytes are
    all 0.  [calloc] stores one zero byte per element, at offsets 0, [s],
    [2 s], ..., and leaves the bytes in between as they were.  After the
    calls of [calloc_script], [calloc 1 24] returns 4272; its byte 0 is 0 and
    its byte 1, inside the 24 requested bytes, is still 16, a byte of the
    list pointer that [free] had stored in the block. *)
Theorem calloc_leaves_bytes_nonzero :
  returns calloc_script fresh_heap (4272, 0, 16) /\ 0 <= 1 < 1 * 24.
Proof.
  split; [|lia]. eexists. vm_compute. reflexivity.
Qed.

(** ** C2: what [realloc] copies *)

(** C2.  Growing a block is to copy [min(old, n)] bytes and never read past
    the old payload.  [realloc] passes the new size [n] to [memcpy].  In
    [realloc_script] the old payload of [p] is 16 bytes and [n] is 40: byte
    24 of the new block, 0 before the call, is 171 afterwards, the byte the
    client had stored in the neighbouring live block [x], and bytes 20..23
    hold 27, the header word of [x].  In [realloc_end_script] the old
    payload of [p] is 56 bytes, [n] is 90 and [p] is the last block: the
    copy reads address 4376, one past the highest address 4375 of the
    heap. *)
Theorem realloc_reads_past_old_payload :
  returns realloc_script fresh_heap (4208, 4232, 16, 4256, 0, 171, 27) /\
  Z.min 16 40 < 24 /\
  returns realloc_end_setup fresh_heap (4208, 4312, 56, 4375) /\
  realloc_end_script fresh_heap = Fault (BadRead 4376).
Proof.
  conjs.
  - eexists. vm_compute. reflexivity.
  - lia.
  - eexists. vm_compute. reflexivity.
  - vm_compute. reflexivity.
Qed.

(** ** C3: size classes *)

(** C3.  A block is to live in the lowest bucket whose upper bound in the
    table of the specification is at least its size, so a size in
    (16384, 32768] belongs to bucket 8.  [LIST7_SIZE] is 16834, not 16384:
    [get_index] and [find_list_by_size] send the block size 16392 to
    bucket 7, and in [size_class_script] the freed block of 16392 bytes
    becomes the head of list 7 while list 8 stays empty. *)
Theorem get_index_misplaces_16392 :
  16384 < 16392 <= 32768 /\
  spec_bucket 16392 = 8 /\
  get_index 16392 = 7 /\
  find_list_by_size 16392 = LIST_7 /\
  LIST7_SIZE = 16834 /\
  returns size_class_script fresh_heap (4208, 20600, 16392, 4208, NULL).
Proof.
  conjs; try reflexivity; try lia.
  eexists. vm_compute. reflexivity.
Qed.

(** ** C4: out of memory *)

(** C4.  When the heap cannot be extended, [alloc], [zeroed_alloc] and
    [resize] are to return null without writing through an invalid pointer.
    On [oom_heap] the heap primitive refuses 1008 more bytes; [malloc] and
    [realloc] return null and leave the heap as it was, and [calloc] stores
    through the null pointer that [malloc] returned. *)
Theorem calloc_faults_when_out_of_memory :
  (mm_init ;; malloc 16 100) (empty_heap 280) = Ok 4208 oom_heap /\
  mem_sbrk 1008 oom_heap = Ok (2 ^ 64 - 1) oom_heap /\
  malloc 16 1000 oom_heap = Ok NULL oom_heap /\
  realloc 16 4208 1000 oom_heap = Ok NULL oom_heap /\
  calloc 16 1 1000 oom_heap = Fault (BadWrite NULL).
Proof. conjs; vm_compute; reflexivity. Qed.

(** ** C5: splitting in [place] *)

(** C5, as stated, at the heap right after [mm_init]: the 168-byte block is
    split for a request of 24 bytes, the remainder has 144 bytes, and the
    block that follows the remainder has its P bit 0 afterwards, not set. *)
Lemma place_split_leaves_P_clear :
  MIN_BLOCK_SIZE <= 168 - 24 /\
  returns place_script fresh_heap (4208, 168, 144, 4376, 0) /\
  ~ returns place_script fresh_heap (4208, 168, 144, 4376, PREV_ALLOC).
Proof.
  assert (H : returns place_script fresh_heap (4208, 168, 144, 4376, 0))
    by (eexists; vm_compute; reflexivity).
  conjs.
  - unfold MIN_BLOCK_SIZE. lia.
  - exact H.
  - intros H'. pose proof (returns_unique _ _ _ _ H H') as E. discriminate E.
Qed.

(** The memory that the split branch of [place] leaves, write by write: the
    block is unlinked, the header of the allocated part and header and
    footer of the remainder are stored, and the remainder is linked in.
    The list neighbours of [bp], and the head of the remainder's list
    unless that is [bp] itself, are null or nodes outside the block. *)
Lemma place_split_run h bp asize :
  let hdr := load 4 (contents h) (bp - 4) in
  let blk_size := Z.land hdr (2 ^ 32 - 8) in
  let extra := blk_size - asize in
  let slot := heap_ptr h + find_list_by_size extra in
  let m1 := rem_mem (contents h) (heap_ptr h + find_list_by_size blk_size) bp in
  let m2 := store 4 m1 (bp - 4) (Z.lor asize (Z.lor (Z.land hdr 2) 1)) in
  let m3 := store 4 m2 (bp + asize - 4) (Z.lor extra 2) in
  let m4 := store 4 m3 (bp + blk_size - 8) (Z.lor extra 2) in
  let m' := add_mem m4 slot (bp + asize) in
  mem_brk h < 2 ^ 64 ->
  0 <= mem_start_brk h <= heap_ptr h ->
  heap_ptr h + 96 <= bp - 4 ->
  bp + blk_size <= mem_brk h ->
  8 <= asize -> asize mod 8 = 0 -> MIN_BLOCK_SIZE <= extra ->
  node_ok h (load 8 (contents h) bp) (bp - 4) (bp + blk_size) ->
  node_ok h (load 8 (contents h) (bp + 8)) (bp - 4) (bp + blk_size) ->
  ((load 8 (contents h) slot = bp /\
    find_list_by_size extra = find_list_by_size blk_size /\
    load 8 (contents h) (bp + 8) = NULL) \/
   node_ok h (load 8 (contents h) slot) (bp - 4) (bp + blk_size)) ->
  place bp asize h = Ok tt (set_contents h m') /\
  load 4 m' (bp - 4) = Z.lor asize (Z.lor (Z.land hdr 2) 1) /\
  load 4 m' (bp + asize - 4) = Z.lor extra 2 /\
  load 4 m' (bp + blk_size - 8) = Z.lor extra 2 /\
  load 8 m' slot = bp + asize /\
  load 8 m' (bp + asize + 8) = NULL /\
  load 4 m' (bp + blk_size - 4) = load 4 (contents h) (bp + blk_size - 4).
Proof.
  intros hdr blk_size extra slot M1 M2 M3 M4 M' Hbrk Hlo Hbp Hend Ha8 Ham Hex Hnx Hpv Hhd.
  unfold MIN_BLOCK_SIZE in Hex.
  pose proof (load4_range (contents h) (bp - 4)) as Hhr. fold hdr in Hhr.
  assert (Hbs : blk_size = 8 * ((hdr / 8) mod 2 ^ 29)) by apply land_size_mask.
  assert (Hbr : 0 <= blk_size < 2 ^ 32 /\ blk_size mod 8 = 0) by (rewrite Hbs; zlia).
  assert (Hpa : 0 <= Z.land hdr 2 <= 2) by (rewrite land_prev_alloc; zlia).
  set (pa := Z.land hdr 2) in *.
  assert (Hfl : Z.lor pa 1 = pa + 1).
  { unfold pa. rewrite land_prev_alloc.
    assert ((hdr / 2) mod 2 = 0 \/ (hdr / 2) mod 2 = 1) as [-> | ->] by zlia; reflexivity. }
  unfold place.
  rewrite !(HDRP_small bp) by lia.
  unfold MIN_BLOCK_SIZE, ALLOC, PREV_ALLOC, PACK.
  rewrite bind_GET_SIZE by solve_valid. fold hdr. fold blk_size.
  unfold wrap64. rewrite (Z.mod_small (blk_size - asize)) by lia. fold extra.
  rewrite bind_NEXT_BLKP by (fold hdr blk_size; solve [lia | solve_valid]).
  fold hdr blk_size.
  destruct (find_list_by_size_slot blk_size) as (k1 & Hk1 & Ek1).
  destruct (find_list_by_size_slot extra) as (k2 & Hk2 & Ek2).
  set (nx := load 8 (contents h) bp) in *.
  set (pv := load 8 (contents h) (bp + 8)) in *.
  pose proof (load8_range (contents h) bp) as Hnr. fold nx in Hnr.
  pose proof (load8_range (contents h) (bp + 8)) as Hpr. fold pv in Hpr.
  unfold bind at 1.
  rewrite rem_free_blk_run; try lia.
  2:{ fold nx. destruct Hnx as [?|(? & ? & ?)]; [left; assumption | right; lia]. }
  2:{ fold pv. destruct Hpv as [?|(? & ? & ?)]; [left; assumption | right; lia]. }
  set (slot1 := heap_ptr h + find_list_by_size blk_size).
  set (m1 := rem_mem (contents h) slot1 bp).
  assert (Hm1 : forall n a, bp - 4 <= a -> a + Z.of_nat n <= bp + blk_size ->
                load n m1 a = load n (contents h) a).
  { intros n a Ha1 Ha2. unfold m1. apply load_rem_mem_other.
    - unfold slot1. lia.
    - fold nx. destruct Hnx as [?|(? & ? & ?)]; [left; assumption | right; lia].
    - fold pv. destruct Hpv as [?|(? & ? & ?)]; [left; assumption | right; lia]. }
  destruct (Z.leb_spec 24 extra) as [_|?]; [|lia].
  rewrite bind_GET_PREV_ALLOC by solve_valid. heap_proj.
  rewrite (Hm1 4%nat (bp - 4)) by (simpl Z.of_nat; lia). fold hdr pa.
  rewrite Hfl.
  assert (Hh1 : Z.lor asize (pa + 1) = asize + (pa + 1)) by (apply lor_flags; lia).
  rewrite bind_PUT_4 by solve_valid. heap_proj.
  set (m2 := store 4 m1 (bp - 4) (Z.lor asize (pa + 1))).
  assert (Hs2 : Z.land (load 4 m2 (bp - 4)) (2 ^ 32 - 8) = asize).
  { unfold m2. rewrite load_store_same. rewrite Hh1. simpl Z.of_nat.
    change (256 ^ 4) with (2 ^ 32). rewrite Z.mod_small by lia.
    rewrite land_size_mask. zlia. }
  rewrite bind_NEXT_BLKP by (heap_proj; rewrite ?Hs2; solve [lia | solve_valid]).
  heap_proj. rewrite Hs2.
  rewrite (HDRP_small (bp + asize)) by lia.
  rewrite bind_PUT_4 by solve_valid. heap_proj.
  set (m3 := store 4 m2 (bp + asize - 4) (Z.lor extra 2)).
  assert (Hh3 : Z.lor extra 2 = extra + 2) by (apply lor_flags; zlia).
  assert (Hs3 : Z.land (load 4 m3 (bp + asize - 4)) (2 ^ 32 - 8) = extra).
  { unfold m3. rewrite load_store_same. rewrite Hh3. simpl Z.of_nat.
    change (256 ^ 4) with (2 ^ 32). rewrite Z.mod_small by lia.
    rewrite land_size_mask. zlia. }
  rewrite bind_FTRP by (heap_proj; rewrite ?Hs3; solve [lia | solve_valid]).
  heap_proj. rewrite Hs3.
  replace (bp + asize + extra - 8) with (bp + blk_size - 8) by (unfold extra; lia).
  rewrite bind_PUT_4 by solve_valid. heap_proj.
  set (m4 := store 4 m3 (bp + blk_size - 8) (Z.lor extra 2)).
  assert (Hslot : load 8 m4 slot = load 8 m1 slot).
  { unfold m4, m3, m2. rewrite !load_store_other by (unfold slot; simpl Z.of_nat; lia).
    reflexivity. }
  assert (Hhd1 : node_ok h (load 8 m4 slot) (bp - 4) (bp + blk_size)).
  { rewrite Hslot. unfold m1, slot1, slot.
    destruct (rem_mem_head (contents h) (heap_ptr h) blk_size extra bp) as [E|[E|E]].
    - fold nx. destruct Hnx as [?|(? & ? & ?)]; [left; assumption | right; lia].
    - fold pv. destruct Hpv as [?|(? & ? & ?)]; [left; assumption | right; lia].
    - destruct E as [E Hne]. rewrite E.
      destruct Hhd as [(_ & Hsame & Hpv0)|Hhd]; [|exact Hhd].
      fold pv in Hpv0. destruct Hne as [Hne|Hne]; [symmetry in Hsame|]; contradiction.
    - rewrite E. exact Hnx.
    - rewrite E. left. reflexivity. }
  set (hd1 := load 8 m4 slot) in *.
  pose proof (load8_range m4 slot) as Hhd1r. fold hd1 in Hhd1r.
  rewrite add_free_blk_run; heap_proj; fold slot; fold hd1; try lia.
  2:{ destruct Hhd1 as [?|(? & ? & ?)]; [left; assumption | right; lia]. }
  assert (EM : M' = add_mem m4 slot (bp + asize)).
  { unfold M', M4, M3, M2, M1, m4, m3, m2, m1, slot1. rewrite Hfl. reflexivity. }
  rewrite EM. split; [reflexivity|].
  assert (Hout : forall n a, bp - 4 <= a -> a + Z.of_nat n <= bp + blk_size ->
                 (a + Z.of_nat n <= bp + asize \/ bp + asize + 16 <= a) ->
                 load n (add_mem m4 slot (bp + asize)) a = load n m4 a).
  { intros n a Ha1 Ha2 Ha3. apply load_add_mem_other.
    - unfold slot. lia.
    - lia.
    - fold hd1. destruct Hhd1 as [?|(? & ? & ?)]; [left; assumption | right; lia]. }
  repeat split.
  - rewrite Hout by (simpl Z.of_nat; lia).
    unfold m4, m3. rewrite !load_store_other by (simpl Z.of_nat; lia).
    unfold m2. rewrite load_store_same. simpl Z.of_nat.
    change (256 ^ 4) with (2 ^ 32). apply Z.mod_small. lia.
  - rewrite Hout by (simpl Z.of_nat; lia).
    unfold m4. rewrite !load_store_other by (simpl Z.of_nat; lia).
    unfold m3. rewrite load_store_same. simpl Z.of_nat.
    change (256 ^ 4) with (2 ^ 32). apply Z.mod_small. lia.
  - rewrite Hout by (simpl Z.of_nat; lia).
    unfold m4. rewrite load_store_same. simpl Z.of_nat.
    change (256 ^ 4) with (2 ^ 32). apply Z.mod_small. lia.
  - apply add_mem_head; [lia | unfold slot; lia |].
    fold hd1. destruct Hhd1 as [?|(? & ? & ?)]; [left; assumption | right; unfold slot; lia].
  - apply add_mem_prev.
    fold hd1. destruct Hhd1 as [?|(? & ? & ?)]; [left; assumption | right; lia].
  - rewrite Hout by (simpl Z.of_nat; lia).
    unfold m4, m3, m2. rewrite !load_store_other by (simpl Z.of_nat; lia).
    apply Hm1; simpl Z.of_nat; lia.
Qed.

(** C5, amended.  [place] on a free block [bp] of a heap with the
    well-formed free lists [L], when the remainder [extra] is at least 24
    bytes: the first [asize] bytes are marked allocated and keep the
    incoming P flag; header and footer of a free remainder [rest] with
    P = 1 are written; [bp] leaves its list and [rest] is put in front of
    the list of its size, that is, the lists afterwards are [L] without
    [bp] and with [rest] pushed on list [get_index extra]; the header of the
    block that follows the remainder is left as it was; and no byte outside
    the block, the table of slots and the link fields of the listed nodes
    changes.  [bp] is a node of the list of its size, and the other nodes
    lie outside the block. *)
Theorem place_split h L bp asize :
  let hdr := load 4 (contents h) (bp - 4) in
  let blk_size := Z.land hdr (2 ^ 32 - 8) in
  let extra := blk_size - asize in
  let rest := bp + asize in
  mem_brk h < 2 ^ 64 ->
  0 <= mem_start_brk h <= heap_ptr h ->
  heap_ptr h + 96 <= bp - 4 ->
  bp + blk_size <= mem_brk h ->
  8 <= asize -> asize mod 8 = 0 -> MIN_BLOCK_SIZE <= extra ->
  free_lists h L ->
  In bp (L (get_index blk_size)) ->
  (forall i x, 0 <= i < 12 -> In x (L i) ->
     x = bp \/ x + 16 <= bp - 4 \/ bp + blk_size <= x) ->
  exists m',
    place bp asize h = Ok tt (set_contents h m') /\
    load 4 m' (bp - 4) = Z.lor asize (Z.lor (Z.land hdr 2) 1) /\
    load 4 m' (rest - 4) = Z.lor extra 2 /\
    load 4 m' (bp + blk_size - 8) = Z.lor extra 2 /\
    load 4 m' (bp + blk_size - 4) = load 4 (contents h) (bp + blk_size - 4) /\
    free_lists (set_contents h m') (push (get_index extra) rest (drop bp L)) /\
    (forall n a,
       (a + Z.of_nat n <= bp - 4 \/ bp + blk_size <= a) ->
       (a + Z.of_nat n <= heap_ptr h \/ heap_ptr h + 96 <= a) ->
       (forall i x, 0 <= i < 12 -> In x (L i) -> a + Z.of_nat n <= x \/ x + 16 <= a) ->
       load n m' a = load n (contents h) a).
Proof.
  intros hdr blk_size extra rest Hbrk Hlo Hbp Hend Ha8 Ham Hex HL Hin Hsep.
  pose proof (get_index_range blk_size) as Hc.
  pose proof (get_index_range extra) as Hce.
  set (c := get_index blk_size) in *.
  set (ce := get_index extra) in *.
  assert (Hc' : 0 <= c < 12) by lia.
  assert (Hce' : 0 <= ce < 12) by lia.
  assert (Hrange : 0 <= blk_size < 2 ^ 32)
    by (unfold blk_size; rewrite land_size_mask; zlia).
  unfold MIN_BLOCK_SIZE in Hex.
  (* the neighbours of [bp] in its list and the head of the list of the
     remainder *)
  destruct (fl_split h L Hlo HL c bp Hc' Hin)
    as (l1 & l2 & E & N1 & N2 & _ & _ & Hpv & Hnx & _).
  assert (Hout : forall i x, 0 <= i < 12 -> In x (L i) -> x <> bp ->
            node_ok h x (bp - 4) (bp + blk_size)).
  { intros i x Hi Hx Hne. right. destruct (fl_node h L HL i x Hi Hx).
    destruct (Hsep i x Hi Hx) as [?|?]; [contradiction|]. conjs; assumption. }
  assert (Gnx : node_ok h (load 8 (contents h) bp) (bp - 4) (bp + blk_size)).
  { destruct Hnx as [[_ ?]|(_ & l2' & E2)]; [left; assumption|].
    apply (Hout c); [exact Hc' | |].
    - rewrite E, E2. apply in_or_app. right. right. left. reflexivity.
    - intros Heq. apply N2. rewrite E2. left. exact Heq. }
  assert (Gpv : node_ok h (load 8 (contents h) (bp + 8)) (bp - 4) (bp + blk_size)).
  { destruct Hpv as [[_ ?]|(_ & _ & Hi1)]; [left; assumption|].
    apply (Hout c); [exact Hc' | |].
    - rewrite E. apply in_or_app. left. exact Hi1.
    - intros Heq. apply N1. rewrite <- Heq at 1. exact Hi1. }
  assert (Ghd : (load 8 (contents h) (heap_ptr h + find_list_by_size extra) = bp /\
                 find_list_by_size extra = find_list_by_size blk_size /\
                 load 8 (contents h) (bp + 8) = NULL) \/
                node_ok h (load 8 (contents h) (heap_ptr h + find_list_by_size extra))
                        (bp - 4) (bp + blk_size)).
  { rewrite !slot_of_size. fold c ce.
    destruct (fl_head h L HL ce Hce') as [[? _]|(_ & Hi & Hp0 & _)];
      [right; left; assumption|].
    destruct (Z.eq_dec (load 8 (contents h) (heap_ptr h + 8 * ce)) bp) as [Heq|Hne].
    - left. rewrite Heq in Hi, Hp0. conjs; try assumption.
      destruct (fl_apart h L HL ce c bp bp Hce' Hc' Hi Hin) as [[_ ->]|?];
        [reflexivity | lia].
    - right. exact (Hout ce _ Hce' Hi Hne). }
  destruct (place_split_run h bp asize Hbrk Hlo Hbp Hend Ha8 Ham Hex Gnx Gpv Ghd)
    as (Hrun & H1 & H2 & H3 & _ & _ & H6).
  fold hdr blk_size extra in Hrun, H1, H2, H3, H6.
  rewrite !slot_of_size in Hrun, H1, H2, H3, H6. fold c ce in Hrun, H1, H2, H3, H6.
  set (m1 := rem_mem (contents h) (heap_ptr h + 8 * c) bp) in *.
  set (m2 := store 4 m1 (bp - 4) (Z.lor asize (Z.lor (Z.land hdr 2) 1))) in *.
  set (m3 := store 4 m2 (bp + asize - 4) (Z.lor extra 2)) in *.
  set (m4 := store 4 m3 (bp + blk_size - 8) (Z.lor extra 2)) in *.
  set (m5 := add_mem m4 (heap_ptr h + 8 * ce) (bp + asize)) in *.
  exists m5. split; [exact Hrun|]. split; [exact H1|]. split; [exact H2|].
  split; [exact H3|]. split; [exact H6|].
  (* the lists, step by step *)
  assert (Hrest : forall i x, 0 <= i < 12 -> In x (drop bp L i) ->
            x + 16 <= bp - 4 \/ bp + blk_size <= x).
  { intros i x Hi Hx. apply in_drop in Hx. destruct Hx as [Hx Hne].
    destruct (Hsep i x Hi Hx) as [?|?]; [contradiction | assumption]. }
  assert (FL1 : free_lists (set_contents h m1) (drop bp L))
    by (apply rem_mem_lists; assumption).
  assert (FL2 : free_lists (set_contents h m2) (drop bp L)).
  { apply (free_lists_store4 (set_contents h m1)); [exact FL1 | heap_proj; lia |].
    intros i x Hi Hx. pose proof (Hrest i x Hi Hx). lia. }
  assert (FL3 : free_lists (set_contents h m3) (drop bp L)).
  { apply (free_lists_store4 (set_contents h m2)); [exact FL2 | heap_proj; lia |].
    intros i x Hi Hx. pose proof (Hrest i x Hi Hx). lia. }
  assert (FL4 : free_lists (set_contents h m4) (drop bp L)).
  { apply (free_lists_store4 (set_contents h m3)); [exact FL3 | heap_proj; lia |].
    intros i x Hi Hx. pose proof (Hrest i x Hi Hx). lia. }
  split.
  - apply (add_mem_lists (set_contents h m4)); heap_proj; try assumption; try lia.
    intros i x Hi Hx. pose proof (Hrest i x Hi Hx). lia.
  - intros n a Ha1 Ha2 Ha3.
    unfold m5.
    rewrite (add_mem_away (set_contents h m4) (drop bp L) FL4); heap_proj;
      try assumption; try lia.
    2:{ intros i x Hi Hx. apply in_drop in Hx. exact (Ha3 i x Hi (proj1 Hx)). }
    unfold m4, m3, m2. rewrite !load_store_other by lia.
    unfold m1. apply (rem_mem_away h L Hlo HL); try assumption.
    intros i x Hi Hx _. exact (Ha3 i x Hi Hx).
Qed.

(** The block at 4272 of [front_free_heap] has 104 bytes and is the second
    node of list 0, behind 4208; a request of 32 bytes splits it, and the
    remainder at 4304 becomes the head of list 0, in front of 4208. *)
Lemma place_split_witness :
  exists m',
    place 4272 32 front_free_heap = Ok tt (set_contents front_free_heap m') /\
    load 4 m' (4272 - 4) = 35 /\
    load 4 m' (4304 - 4) = 74 /\
    load 4 m' (4376 - 4) = 1 /\
    free_lists (set_contents front_free_heap m') (just 0 [4304; 4208]).
Proof.
  destruct front_free_heap_facts as (Elo & Ebrk & Ehp & _ & _ & _ & _ & _ & Eh & En).
  pose proof (place_split front_free_heap (just 0 [4208; 4272]) 4272 32) as P.
  cbv zeta in P. rewrite Eh in P.
  change (Z.land 106 (2 ^ 32 - 8)) with 104 in P.
  change (Z.lor 32 (Z.lor (Z.land 106 2) 1)) with 35 in P.
  change (Z.lor (104 - 32) 2) with 74 in P.
  change (4272 + 32) with 4304 in P. change (4272 + 104) with 4376 in P.
  rewrite En in P. rewrite Ehp, Elo, Ebrk in P.
  destruct P as (m' & Hrun & H1 & H2 & _ & H4 & HL & _).
  - lia.
  - lia.
  - lia.
  - lia.
  - lia.
  - reflexivity.
  - unfold MIN_BLOCK_SIZE. lia.
  - exact front_free_heap_lists.
  - right. left. reflexivity.
  - intros i x Hi Hx. unfold just in Hx.
    destruct (i =? 0); [|destruct Hx].
    destruct Hx as [<-|[<-|[]]]; lia.
  - exists m'. conjs; try assumption.
    apply (free_lists_ext _ (push (get_index (104 - 32)) 4304 (drop 4272 (just 0 [4208; 4272]))));
      [|exact HL].
    intros i Hi. unfold push, drop, just.
    destruct (Z.eqb_spec i 0) as [->|Hne]; [reflexivity|].
    change (get_index (104 - 32)) with 0.
    destruct (Z.eqb_spec i 0); [contradiction | reflexivity].
Defined.

(** ** C6: the adjusted request size *)

(** C6.  Every request above 16 bytes is to be adjusted to the request
    plus 4, rounded up to a multiple of 8.  At the request 2^64 - 1 the sum
    wraps around in [size_t]: the adjusted size is 8, not the request plus 4
    rounded up, and after [mm_init] the call returns the block 4208 of 8
    bytes, where the comment above [malloc] promises at least [size]
    bytes. *)
Theorem malloc_asize_wraps :
  16 < 2 ^ 64 - 1 < 2 ^ 64 /\
  malloc_asize (2 ^ 64 - 1) = 8 /\
  align8 (2 ^ 64 - 1 + 4) = 2 ^ 64 + 8 /\
  malloc_asize (2 ^ 64 - 1) <> align8 (2 ^ 64 - 1 + 4) /\
  returns huge_request_script fresh_heap (4208, 8).
Proof.
  conjs; try lia; try reflexivity.
  - vm_compute. discriminate.
  - eexists. vm_compute. reflexivity.
Qed.

(** Requests that do not wrap: [malloc 0] returns null and leaves the heap
    untouched; a request of 1 to 16 bytes is adjusted to 24; a request [n]
    with 16 < n <= 2^64 - 12 is adjusted to [n + 4] rounded up to a multiple
    of 8; and for every positive [n] the adjusted size is what [malloc]
    searches for, extends by and places. *)
Lemma malloc_adjusts_request fuel n h :
  0 <= n < 2 ^ 64 ->
  (n = 0 -> malloc fuel n h = Ok NULL h) /\
  (1 <= n <= 16 -> malloc_asize n = MIN_BLOCK_SIZE) /\
  (16 < n <= 2 ^ 64 - 12 -> malloc_asize n = align8 (n + 4)) /\
  (0 < n ->
   malloc fuel n h =
   (bp <- find_fit fuel (malloc_asize n) ;;
    if negb (bp =? NULL) then place bp (malloc_asize n) ;; ret bp
    else
      bp <- extend_heap (Z.max (malloc_asize n) CHUNKSIZE) ;;
      if bp =? NULL then ret NULL
      else place bp (malloc_asize n) ;; ret bp) h).
Proof.
  intros Hn. conjs.
  - intros ->. reflexivity.
  - intros H. unfold malloc_asize, DSIZE.
    destruct (Z.leb_spec n (2 * 8)); [reflexivity | lia].
  - apply malloc_asize_large.
  - intros H. unfold malloc. destruct (Z.leb_spec n 0); [lia | reflexivity].
Qed.

Example malloc_adjusts_100 :
  0 <= 100 < 2 ^ 64 /\ malloc_asize 100 = align8 (100 + 4).
Proof.
  split; [lia|].
  apply (malloc_adjusts_request 0 100 fresh_heap); lia.
Qed.

(** ** C7: no two adjacent free blocks *)

(** C7.  After every call of the interface no two physically adjacent blocks
    are to be both free.  After [mm_init], [malloc (2^64 - 1)] and [free] of
    the pointer it returned, the block at 4208 and its physical successor
    are both free; [check_free_blk] on the block and [mm_checkheap] both
    return 1. *)
Theorem adjacent_free_blocks_after_overflow :
  returns overflow_script fresh_heap (4208, true, 1, 1).
Proof. eexists. vm_compute. reflexivity. Qed.

(** ** C8: the cycle scan *)

(** C8.  The scan is to end on every list, reporting an error exactly when
    the list has a cycle.  On [cyclic_heap] the head of the smallest list is
    4208, whose successor is 4272, whose successor is 4208 again; no amount
    of fuel lets [check_for_cycle] return there. *)
Theorem check_for_cycle_diverges :
  double_free_script fresh_heap = Ok (4208, 4272) cyclic_heap /\
  (heap_ptr cyclic_heap = 4096 /\
   GET 4096 cyclic_heap = Ok 4208 cyclic_heap /\
   GET 4208 cyclic_heap = Ok 4272 cyclic_heap /\
   GET 4272 cyclic_heap = Ok 4208 cyclic_heap) /\
  forall fuel, check_for_cycle fuel cyclic_heap = OutOfFuel.
Proof.
  split; [exact cyclic_heap_reached|].
  split; [exact cyclic_heap_links|].
  intros fuel. destruct cyclic_heap_links as (Hp & H0 & H1 & H2).
  unfold check_for_cycle. change (Z.to_nat NO_OF_LISTS) with 12%nat.
  cbn [cycle_lists]. unfold bind at 1, get_heap_ptr. rewrite Hp.
  change (padd 4096 (find_list 0)) with 4096.
  unfold bind at 1.
  destruct fuel as [|f]; [reflexivity|].
  rewrite (cycle_loop_step f 4096 4096 cyclic_heap 4208 4272);
    unfold NULL; try lia; try assumption.
  rewrite (proj1 (cycle_loop_spins f)). reflexivity.
Qed.

(** ** C9: [calloc] after a failed allocation *)

(** C9.  Whenever the [malloc] call inside [calloc] returns null and the
    element count is positive, the zeroing loop stores through the null
    pointer: [calloc] ends in a bad write at address 0.  This is so for
    every call with element size 0, since [malloc 0] returns null. *)
Theorem calloc_writes_through_null fuel nmemb size h :
  0 < nmemb -> 0 < mem_start_brk h ->
  (forall h', malloc fuel (wrap64 (nmemb * size)) h = Ok NULL h' ->
              calloc fuel nmemb size h = Fault (BadWrite NULL)) /\
  malloc fuel (wrap64 (nmemb * 0)) h = Ok NULL h /\
  calloc fuel nmemb 0 h = Fault (BadWrite NULL).
Proof.
  intros Hn Hlo.
  assert (H0 : malloc fuel (wrap64 (nmemb * 0)) h = Ok NULL h).
  { rewrite Z.mul_0_r. reflexivity. }
  conjs.
  - intros h' Hm. eapply calloc_after_null_malloc; eassumption.
  - exact H0.
  - eapply calloc_after_null_malloc; eassumption.
Qed.

Lemma calloc_writes_through_null_witness :
  0 < 3 /\ 0 < mem_start_brk init_heap /\
  calloc 16 3 0 init_heap = Fault (BadWrite NULL).
Proof.
  assert (H : 0 < mem_start_brk init_heap) by by_eval.
  conjs; [lia | exact H |].
  apply (calloc_writes_through_null 16 3 0 init_heap); [lia | exact H].
Defined.

(** ** C10: insertion followed by removal *)

(** C10.  For a block [b] whose link fields lie in the heap above the bucket
    table, and a list whose head is null or a node apart from [b] with a
    null [prev] link (the form in which [add_free_blk] and [rem_free_blk]
    leave every head), [add_free_blk b s] followed by [rem_free_blk b s]
    restores the twelve head slots and the link fields of every other node;
    indeed every byte outside the link fields of [b]. *)
Theorem add_then_remove_restores h b s :
  let slot := heap_ptr h + find_list_by_size s in
  let hd := load 8 (contents h) slot in
  mem_brk h < 2 ^ 64 ->
  0 <= mem_start_brk h <= heap_ptr h ->
  heap_ptr h + 96 <= b -> b + 16 <= mem_brk h ->
  (hd = NULL \/
   (heap_ptr h + 96 <= hd /\ hd + 16 <= mem_brk h /\
    (hd + 16 <= b \/ b + 16 <= hd) /\
    load 8 (contents h) (hd + 8) = NULL)) ->
  exists h',
    (add_free_blk b s ;; rem_free_blk b s) h = Ok tt h' /\
    heap_ptr h' = heap_ptr h /\
    (forall k, 0 <= k < 12 ->
       load 8 (contents h') (heap_ptr h + 8 * k) =
       load 8 (contents h) (heap_ptr h + 8 * k)) /\
    (forall x, x + 16 <= b \/ b + 16 <= x ->
       load 8 (contents h') x = load 8 (contents h) x /\
       load 8 (contents h') (x + 8) = load 8 (contents h) (x + 8)) /\
    (forall a, a < b \/ b + 16 <= a ->
       load 1 (contents h') a = load 1 (contents h) a).
Proof.
  intros slot hd Hbrk Hlo Hb1 Hb2 Hhd.
  pose proof (find_list_by_size_range s) as Hk.
  pose proof (load8_range (contents h) slot) as Hr. fold hd in Hr.
  unfold bind.
  rewrite add_free_blk_run; try lia.
  2:{ fold slot hd. destruct Hhd as [?|(? & ? & ? & ?)]; [left; assumption | right; lia]. }
  fold slot.
  set (m1 := add_mem (contents h) slot b).
  assert (Hnx : load 8 m1 b = hd) by apply add_mem_next.
  assert (Hpv : load 8 m1 (b + 8) = NULL).
  { apply add_mem_prev. fold hd.
    destruct Hhd as [?|(? & ? & ? & ?)]; [left; assumption | right; lia]. }
  rewrite rem_free_blk_run; heap_proj; fold m1; rewrite ?Hnx, ?Hpv; try lia.
  assert (Hbytes : forall a, a < b \/ b + 16 <= a ->
            load 1 (rem_mem m1 slot b) a = load 1 (contents h) a).
  { intros a Ha. rewrite !load1_eq.
    unfold rem_mem. rewrite Hnx, Hpv.
    change (NULL =? NULL) with true. cbn [andb negb].
    unfold m1, add_mem. fold hd.
    destruct (Z.eqb_spec hd NULL) as [E|E]; cbn [negb].
    - destruct (Z_lt_ge_dec a slot) as [?|?]; [|destruct (Z_lt_ge_dec a (slot + 8))].
      + now rewrite !store_outside by (simpl Z.of_nat; lia).
      + rewrite store_inside by (simpl Z.of_nat; lia).
        rewrite (byte_of_load 8 (contents h) slot a) by (simpl Z.of_nat; lia).
        fold hd. rewrite E. reflexivity.
      + now rewrite !store_outside by (simpl Z.of_nat; lia).
    - destruct Hhd as [?|(? & ? & ? & Hz)]; [contradiction|].
      destruct (Z_lt_ge_dec a slot) as [?|?]; [|destruct (Z_lt_ge_dec a (slot + 8))].
      + now rewrite !store_outside by (simpl Z.of_nat; lia).
      + rewrite store_outside by (simpl Z.of_nat; lia).
        rewrite store_inside by (simpl Z.of_nat; lia).
        rewrite (byte_of_load 8 (contents h) slot a) by (simpl Z.of_nat; lia).
        apply Z.mod_mod; lia.
      + destruct (Z_lt_ge_dec a (hd + 8)) as [?|?]; [|destruct (Z_lt_ge_dec a (hd + 16))].
        * now rewrite !store_outside by (simpl Z.of_nat; lia).
        * rewrite store_inside by (simpl Z.of_nat; lia).
          rewrite (byte_of_load 8 (contents h) (hd + 8) a) by (simpl Z.of_nat; lia).
          rewrite Hz. reflexivity.
        * now rewrite !store_outside by (simpl Z.of_nat; lia). }
  eexists. split; [reflexivity|]. heap_proj. conjs.
  - reflexivity.
  - intros k Hk12. apply load_ext_bytes. intros x Hx. apply Hbytes.
    simpl Z.of_nat in Hx. lia.
  - intros x Hx.
    split; apply load_ext_bytes; intros y Hy; apply Hbytes; simpl Z.of_nat in Hy; lia.
  - exact Hbytes.
Qed.

Lemma add_then_remove_restores_witness :
  exists h',
    (add_free_blk 4272 32 ;; rem_free_blk 4272 32) one_free_heap = Ok tt h' /\
    load 8 (contents h') 4096 = 4208.
Proof.
  destruct one_free_heap_facts as (_ & Hlo & Hbrk & Hp & Hhd & Hpv).
  destruct (add_then_remove_restores one_free_heap 4272 32) as (h' & Hrun & _ & Hslots & _).
  - rewrite Hbrk. lia.
  - rewrite Hlo, Hp. lia.
  - rewrite Hp. lia.
  - rewrite Hbrk. lia.
  - right. rewrite Hp. change (4096 + find_list_by_size 32) with 4096.
    rewrite Hhd, Hbrk. conjs; solve [lia | exact Hpv].
  - exists h'. split; [exact Hrun|].
    rewrite <- Hhd. specialize (Hslots 0 ltac:(lia)). rewrite Hp in Hslots.
    exact Hslots.
Defined.

(** * Ordinary runs *)

(** Three small requests get three blocks of the minimum size and the
    checker accepts the heap. *)
Example three_small_requests :
  returns (mm_init ;;
           p <- malloc 16 1 ;; q <- malloc 16 5 ;; r <- malloc 16 12 ;;
           c <- mm_checkheap 16 0 ;;
           sp <- GET_SIZE (HDRP p) ;; sq <- GET_SIZE (HDRP q) ;;
           sr <- GET_SIZE (HDRP r) ;;
           ret (p, q, r, c, (sp, sq, sr)))
          fresh_heap (4208, 4232, 4256, 0, (24, 24, 24)).
Proof. eexists. vm_compute. reflexivity. Qed.

(** Two neighbouring blocks are freed: they merge with the free block behind
    them into one block of 336 bytes, and the checker accepts the heap after
    every call. *)
Example two_frees_coalesce :
  returns (mm_init ;;
           p <- malloc 16 100 ;; q <- malloc 16 100 ;;
           c1 <- mm_checkheap 16 0 ;;
           free p ;;
           c2 <- mm_checkheap 16 0 ;;
           free q ;;
           c3 <- mm_checkheap 16 0 ;;
           s <- GET_SIZE (HDRP p) ;;
           a <- GET_ALLOC (HDRP p) ;;
           ret (p, q, (c1, c2, c3), s, a))
          fresh_heap (4208, 4312, (0, 0, 0), 336, 0).
Proof. eexists. vm_compute. reflexivity. Qed.

(** A double free of one block makes it its own successor; this cycle the
    scan does report. *)
Example self_loop_is_reported :
  returns (mm_init ;;
           a <- malloc 16 24 ;; x <- malloc 16 24 ;;
           free a ;; free a ;;
           check_for_cycle 16)
          fresh_heap 1.
Proof. eexists. vm_compute. reflexivity. Qed.

(** * Further properties of the allocator *)

(** ** More about words, loads and runs *)

Lemma load4_store_same m a v : 0 <= v < 2 ^ 32 -> load 4 (store 4 m a v) a = v.
Proof.
  intros H. rewrite load_store_same. simpl Z.of_nat.
  change (256 ^ 4) with (2 ^ 32). apply Z.mod_small. exact H.
Qed.

Lemma land_size_of s f :
  0 <= s < 2 ^ 32 -> s mod 8 = 0 -> 0 <= f < 8 -> Z.land (s + f) (2 ^ 32 - 8) = s.
Proof. intros Hs Hm Hf. rewrite land_size_mask. change (2 ^ 32) with 4294967296 in *. zlia. Qed.

Lemma lor_bound x f n :
  0 <= x < 2 ^ n -> 0 <= f < 2 ^ n -> 0 <= n -> 0 <= Z.lor x f < 2 ^ n.
Proof.
  intros Hx Hf Hn.
  assert (H0 : 0 <= Z.lor x f) by (apply Z.lor_nonneg; lia).
  split; [exact H0|].
  destruct (Z.eq_dec (Z.lor x f) 0) as [E|E]; [rewrite E; lia|].
  apply Z.log2_lt_pow2; [lia|].
  rewrite Z.log2_lor by lia.
  assert (Hlx : Z.log2 x < n \/ x = 0).
  { destruct (Z.eq_dec x 0); [right; assumption|left]. apply Z.log2_lt_pow2; lia. }
  assert (Hlf : Z.log2 f < n \/ f = 0).
  { destruct (Z.eq_dec f 0); [right; assumption|left]. apply Z.log2_lt_pow2; lia. }
  assert (n <> 0).
  { intros ->. change (2 ^ 0) with 1 in *. assert (x = 0) by lia. assert (f = 0) by lia.
    subst. apply E. reflexivity. }
  pose proof (Z.log2_nonneg x). pose proof (Z.log2_nonneg f).
  destruct Hlx as [?| ->]; destruct Hlf as [?| ->];
    try change (Z.log2 0) with 0 in *; lia.
Qed.

Lemma land_lor_P_size x : Z.land (Z.lor x 2) (2 ^ 32 - 8) = Z.land x (2 ^ 32 - 8).
Proof. rewrite Z.land_lor_distr_l. change (Z.land 2 (2 ^ 32 - 8)) with 0. apply Z.lor_0_r. Qed.

Lemma land_lor_P_alloc x : Z.land (Z.lor x 2) 1 = Z.land x 1.
Proof. rewrite Z.land_lor_distr_l. change (Z.land 2 1) with 0. apply Z.lor_0_r. Qed.

Lemma bind_Ok_inv {A B} (c : M A) (k : A -> M B) h r h' :
  bind c k h = Ok r h' -> exists x h1, c h = Ok x h1 /\ k x h1 = Ok r h'.
Proof.
  unfold bind. destruct (c h) as [x h1| |]; try discriminate.
  intros H. exists x, h1. split; [reflexivity | exact H].
Qed.

Lemma load_at_Ok_inv n p h x h' :
  load_at n p h = Ok x h' ->
  h' = h /\ x = load n (contents h) p /\ valid h p n = true.
Proof.
  unfold load_at. destruct (valid h p n); [|discriminate].
  intros H. inversion H. auto.
Qed.

Lemma GET_SIZE_Ok_inv p h x h' :
  GET_SIZE p h = Ok x h' ->
  h' = h /\ x = Z.land (load 4 (contents h) p) (2 ^ 32 - 8) /\ valid h p 4 = true.
Proof.
  intros H. unfold GET_SIZE in H.
  apply bind_Ok_inv in H. destruct H as (v & h1 & H1 & H2).
  apply load_at_Ok_inv in H1. destruct H1 as (-> & -> & Hv).
  inversion H2; subst. conjs; [reflexivity | reflexivity | exact Hv].
Qed.

Lemma bind_PREV_BLKP {B} bp (k : Z -> M B) h :
  8 <= bp < 2 ^ 64 ->
  valid h (bp - 8) 4 = true ->
  bind (PREV_BLKP bp) k h =
  k (padd bp (- Z.land (load 4 (contents h) (bp - 8)) (2 ^ 32 - 8))) h.
Proof.
  intros H1 H. unfold PREV_BLKP, DSIZE.
  rewrite padd_small by lia.
  replace (bp + - 8) with (bp - 8) by lia.
  rewrite bind_assoc, bind_GET_SIZE by exact H.
  rewrite bind_ret. reflexivity.
Qed.

Lemma run_NEXT_BLKP_size_of {B} blk (k : Z -> M B) h :
  valid h (HDRP blk) 4 = true ->
  bind (NEXT_BLKP blk) k h = k (padd blk (size_of h blk)) h.
Proof.
  intros Hv. unfold NEXT_BLKP. fold (HDRP blk).
  rewrite bind_assoc, bind_GET_SIZE by exact Hv. reflexivity.
Qed.

Lemma forallb_same {A} (f g : A -> bool) l :
  (forall x, f x = g x) -> forallb f l = forallb g l.
Proof.
  intros H. induction l as [|x l IH]; [reflexivity|].
  cbn [forallb]. rewrite H, IH. reflexivity.
Qed.

(** ** Size classes and alignment *)

(** X1.  The three size-class functions agree: for every size
    [get_index] yields a list number from 0 to 11, and the table offset that
    [find_list_by_size] computes from the size is the one [find_list] gives
    for that number, 8 bytes per list. *)
Theorem size_class_slot s :
  0 <= get_index s <= 11 /\
  find_list_by_size s = find_list (get_index s) /\
  find_list (get_index s) = 8 * get_index s.
Proof.
  split; [apply get_index_range|]. apply find_list_by_size_get_index.
Qed.

(** X2.  [get_index] is monotone: a larger size never goes to a
    lower list. *)
Theorem get_index_monotone s t : s <= t -> get_index s <= get_index t.
Proof.
  intros H. unfold get_index.
  unfold LIST0_SIZE, LIST1_SIZE, LIST2_SIZE, LIST3_SIZE, LIST4_SIZE, LIST5_SIZE,
    LIST6_SIZE, LIST7_SIZE, LIST8_SIZE, LIST9_SIZE, LIST10_SIZE.
  repeat match goal with
         | |- context [?a <=? ?b] => destruct (Z.leb_spec a b)
         end; lia.
Qed.

Lemma aligned_iff p :
  0 <= p < 2 ^ 64 -> (aligned p = true <-> p mod 8 = 0).
Proof.
  intros Hp. unfold aligned, wrap64.
  rewrite mask_size64, land_shifted_ones by lia.
  change (2 ^ 3) with 8.
  change (2 ^ 64) with 18446744073709551616 in *.
  change (2 ^ 61) with 2305843009213693952.
  rewrite Z.eqb_eq. split; intros H; zlia.
Qed.

(** X3.  [check_alloc_blk] reads only the bounds of the heap.  It
    returns 0 exactly for a pointer that lies between the first and the last
    byte of the heap and is a multiple of 8, and 1 for every other
    pointer. *)
Theorem check_alloc_blk_accepts blk h :
  0 <= blk < 2 ^ 64 ->
  exists r,
    check_alloc_blk blk h = Ok r h /\
    (r = 0 \/ r = 1) /\
    (r = 0 <-> mem_start_brk h <= blk < mem_brk h /\ blk mod 8 = 0).
Proof.
  intros Hb. unfold check_alloc_blk, in_heap, mem_heap_hi, mem_heap_lo, bind, ret.
  pose proof (aligned_iff blk Hb) as Ha.
  destruct (Z.leb_spec blk (mem_brk h - 1));
    destruct (Z.leb_spec (mem_start_brk h) blk); cbn [andb negb];
    try (exists 1; split; [reflexivity|]; split; [right; reflexivity|];
         split; [intros E | intros (E1 & E2)]; lia).
  destruct (aligned blk); cbn [negb].
  - exists 0. split; [reflexivity|]. split; [left; reflexivity|].
    split; [|reflexivity].
    intros _. split; [lia|]. apply Ha. reflexivity.
  - exists 1. split; [reflexivity|]. split; [right; reflexivity|].
    split; [intros E; lia|].
    intros (_ & Hm). apply Ha in Hm. discriminate.
Qed.

(** ** Searching the lists *)

Lemma find_block_loop_sound fuel size : forall b h r h',
  find_block_loop fuel size b h = Ok r h' -> h' = h /\ fits h size r.
Proof.
  induction fuel as [|f IH]; intros b h r h' H.
  - discriminate.
  - cbn [find_block_loop] in H.
    destruct (Z.eqb_spec b NULL) as [E|E].
    + inversion H; subst. split; [reflexivity | left; reflexivity].
    + apply bind_Ok_inv in H. destruct H as (s & h1 & H1 & H2).
      apply GET_SIZE_Ok_inv in H1. destruct H1 as (-> & -> & Hv).
      destruct (Z.leb_spec size (Z.land (load 4 (contents h) (HDRP b)) (2 ^ 32 - 8))).
      * inversion H2; subst. split; [reflexivity|]. right. split; assumption.
      * apply bind_Ok_inv in H2. destruct H2 as (nx & h2 & H3 & H4).
        apply load_at_Ok_inv in H3. destruct H3 as (-> & -> & _).
        apply IH in H4. exact H4.
Qed.

Lemma find_fit_loop_sound fuel asize n : forall i h r h',
  find_fit_loop fuel n i asize h = Ok r h' -> h' = h /\ fits h asize r.
Proof.
  induction n as [|n IH]; intros i h r h' H.
  - inversion H; subst. split; [reflexivity | left; reflexivity].
  - cbn [find_fit_loop] in H.
    apply bind_Ok_inv in H. destruct H as (b & h1 & E & H).
    unfold find_block_in_list in E.
    apply bind_Ok_inv in E. destruct E as (hp & h2 & E1 & E).
    inversion E1; subst h2 hp.
    apply bind_Ok_inv in E. destruct E as (hd & h3 & E2 & E).
    apply load_at_Ok_inv in E2. destruct E2 as (-> & -> & _).
    apply find_block_loop_sound in E. destruct E as [-> Hf].
    destruct (Z.eqb_spec b NULL) as [Eb|Eb]; cbn [negb] in H.
    + apply IH in H. exact H.
    + inversion H; subst. split; [reflexivity | exact Hf].
Qed.

(** X4.  Whenever [find_fit] returns, the heap is as it was, and the
    result is null or a block whose header it could read and whose size
    field is at least the size asked for. *)
Theorem find_fit_sound fuel asize h bp h' :
  find_fit fuel asize h = Ok bp h' -> h' = h /\ fits h asize bp.
Proof. unfold find_fit. apply find_fit_loop_sound. Qed.

Lemma find_block_loop_first_fit h size l : forall p fuel,
  chain h p l ->
  (forall x, In x l -> valid h (HDRP x) 4 = true) ->
  (length l < fuel)%nat ->
  find_block_loop fuel size p h = Ok (first_fit h size l) h.
Proof.
  induction l as [|x l IH]; intros p fuel Hc Hv Hf.
  - apply chain_nil_inv in Hc. subst p.
    destruct fuel as [|f]; [simpl in Hf; lia|]. reflexivity.
  - apply chain_cons_inv in Hc. destruct Hc as (-> & Hp & Hvx & Hc).
    destruct fuel as [|f]; [simpl in Hf; lia|].
    cbn [find_block_loop first_fit]. unfold size_of.
    destruct (Z.eqb_spec x NULL); [contradiction|].
    rewrite bind_GET_SIZE by (apply Hv; left; reflexivity).
    destruct (size <=? Z.land (load 4 (contents h) (HDRP x)) (2 ^ 32 - 8));
      [reflexivity|].
    unfold NEXT_FREE, GET. rewrite bind_load_at by exact Hvx.
    apply IH; [exact Hc | | simpl in Hf; lia].
    intros y Hy. apply Hv. right. exact Hy.
Qed.

Lemma find_block_in_list_first_fit h fuel i size l :
  0 <= i < 12 ->
  0 <= mem_start_brk h <= heap_ptr h -> heap_ptr h + 96 <= mem_brk h ->
  mem_brk h < 2 ^ 64 ->
  list_is h i l -> (length l < fuel)%nat ->
  find_block_in_list fuel i size h = Ok (first_fit h size l) h.
Proof.
  intros Hi Hlo Htab Hbrk [Hc Hv] Hf.
  unfold find_block_in_list, GET. unfold bind at 1, get_heap_ptr.
  rewrite find_list_slot by exact Hi.
  rewrite padd_small by lia.
  rewrite bind_load_at by solve_valid.
  apply find_block_loop_first_fit; assumption.
Qed.

Lemma find_fit_loop_first_fit h fuel asize (L : Z -> list Z) n : forall i,
  0 <= i -> i + Z.of_nat n = 12 ->
  0 <= mem_start_brk h <= heap_ptr h -> heap_ptr h + 96 <= mem_brk h ->
  mem_brk h < 2 ^ 64 ->
  (forall j, i <= j < 12 -> list_is h j (L j) /\ (length (L j) < fuel)%nat) ->
  exists bp,
    find_fit_loop fuel n i asize h = Ok bp h /\
    ((bp = NULL /\ forall j, i <= j < 12 -> first_fit h asize (L j) = NULL) \/
     (bp <> NULL /\
      exists k, i <= k < 12 /\ bp = first_fit h asize (L k) /\
                forall j, i <= j < k -> first_fit h asize (L j) = NULL)).
Proof.
  induction n as [|n IH]; intros i Hi Hn Hlo Htab Hbrk HL.
  - exists NULL. split; [reflexivity|]. left. split; [reflexivity|].
    intros j Hj. simpl in Hn. lia.
  - cbn [find_fit_loop]. unfold bind at 1.
    destruct (HL i ltac:(lia)) as [Hli Hlen].
    rewrite (find_block_in_list_first_fit h fuel i asize (L i)); try assumption; try lia.
    destruct (Z.eqb_spec (first_fit h asize (L i)) NULL) as [E|E]; cbn [negb].
    + destruct (IH (i + 1)) as (bp & Hrun & Hres); try assumption; try lia.
      { intros j Hj. apply HL. lia. }
      exists bp. split; [exact Hrun|].
      destruct Hres as [[Hb Hall]|(Hb & k & Hk & Hbk & Hbefore)].
      * left. split; [exact Hb|]. intros j Hj.
        destruct (Z.eq_dec j i) as [->|?]; [exact E | apply Hall; lia].
      * right. split; [exact Hb|]. exists k. split; [lia|]. split; [exact Hbk|].
        intros j Hj. destruct (Z.eq_dec j i) as [->|?]; [exact E | apply Hbefore; lia].
    + exists (first_fit h asize (L i)). split; [reflexivity|].
      right. split; [exact E|]. exists i. split; [lia|]. split; [reflexivity|].
      intros j Hj. lia.
Qed.

(** X5.  [find_fit] is a first fit over the lists from
    [get_index asize] upwards.  When every such list [j] is a chain [L j]
    that ends, with readable headers and fewer nodes than the fuel, the
    result is the first fitting node of the first list that has one, and
    null only if no list has one. *)
Theorem find_fit_first_fit h fuel asize (L : Z -> list Z) :
  let i := get_index asize in
  0 <= mem_start_brk h <= heap_ptr h -> heap_ptr h + 96 <= mem_brk h ->
  mem_brk h < 2 ^ 64 ->
  (forall j, i <= j < 12 -> list_is h j (L j) /\ (length (L j) < fuel)%nat) ->
  exists bp,
    find_fit fuel asize h = Ok bp h /\
    ((bp = NULL /\ forall j, i <= j < 12 -> first_fit h asize (L j) = NULL) \/
     (bp <> NULL /\
      exists k, i <= k < 12 /\ bp = first_fit h asize (L k) /\
                forall j, i <= j < k -> first_fit h asize (L j) = NULL)).
Proof.
  intros i Hlo Htab Hbrk HL. unfold find_fit. fold i.
  pose proof (get_index_range asize) as Hr. fold i in Hr.
  apply find_fit_loop_first_fit; try assumption; try lia.
  unfold NO_OF_LISTS. lia.
Qed.

(** ** Insertion and removal *)

(** X6.  [add_free_blk] pushes the block on the front of the list
    of its size: if the list was the chain [l], it is [bp :: l] afterwards,
    the slot of the list holds [bp], the [prev] link of [bp] is null, the
    [prev] link of the old head is [bp], and every byte outside the slot
    and these link fields is as before. *)
Theorem add_free_blk_pushes h bp size l :
  let slot := heap_ptr h + find_list_by_size size in
  let hd := load 8 (contents h) slot in
  mem_brk h < 2 ^ 64 ->
  0 <= mem_start_brk h <= heap_ptr h ->
  heap_ptr h + 96 <= bp -> bp + 16 <= mem_brk h ->
  chain h hd l -> nodes_apart h l ->
  (forall x, In x l -> x + 16 <= bp \/ bp + 16 <= x) ->
  exists h',
    add_free_blk bp size h = Ok tt h' /\
    chain h' (load 8 (contents h') slot) (bp :: l) /\
    load 8 (contents h') slot = bp /\
    load 8 (contents h') (bp + 8) = NULL /\
    (hd <> NULL -> load 8 (contents h') (hd + 8) = bp) /\
    (forall n a,
       (a + Z.of_nat n <= slot \/ slot + 8 <= a) ->
       (a + Z.of_nat n <= bp \/ bp + 16 <= a) ->
       (hd = NULL \/ a + Z.of_nat n <= hd + 8 \/ hd + 16 <= a) ->
       load n (contents h') a = load n (contents h) a).
Proof.
  intros slot hd Hbrk Hlo Hb1 Hb2 Hc [Hin Hsep] Hbp.
  pose proof (find_list_by_size_range size) as Hk.
  pose proof (load8_range (contents h) slot) as Hhr. fold hd in Hhr.
  assert (Hhd : hd = NULL \/
                (heap_ptr h + 96 <= hd /\ hd + 16 <= mem_brk h /\
                 (hd + 16 <= bp \/ bp + 16 <= hd) /\ In hd l)).
  { destruct (Z.eq_dec hd NULL) as [E|E]; [left; exact E|right].
    pose proof (chain_in_head _ _ _ Hc E) as Hi.
    destruct (Hin _ Hi). pose proof (Hbp _ Hi). conjs; try lia. exact Hi. }
  rewrite add_free_blk_run; try lia.
  2:{ fold slot hd. destruct Hhd as [?|(? & ? & ? & ?)]; [left; assumption | right; lia]. }
  fold slot.
  eexists. split; [reflexivity|]. heap_proj.
  assert (Hhead : load 8 (add_mem (contents h) slot bp) slot = bp).
  { apply add_mem_head; [lia | unfold slot; lia |].
    fold hd. destruct Hhd as [?|(? & ? & ? & ?)];
               [left; assumption | right; unfold slot; lia]. }
  conjs.
  - rewrite Hhead. apply chain_cons.
    + unfold NULL. lia.
    + apply valid_true; heap_proj; simpl Z.of_nat; lia.
    + heap_proj. rewrite add_mem_next. fold hd.
      apply (chain_frame h); [exact Hc|].
      intros x Hx. destruct (Hin _ Hx) as [Hx1 Hx2]. pose proof (Hbp _ Hx) as Hx3.
      split; [apply valid_true; heap_proj; simpl Z.of_nat; lia|].
      heap_proj. apply load_add_mem_other; simpl Z.of_nat.
      * unfold slot. lia.
      * lia.
      * fold hd. destruct Hhd as [?|(? & ? & ? & Hi)]; [left; assumption | right].
        destruct (Hsep _ _ Hx Hi) as [->|[?|?]]; lia.
  - exact Hhead.
  - apply add_mem_prev.
    fold hd. destruct Hhd as [?|(? & ? & ? & ?)]; [left; assumption | right; lia].
  - intros Hne. unfold add_mem. fold hd.
    destruct (Z.eqb_spec hd NULL); [contradiction|].
    destruct Hhd as [?|(? & ? & ? & ?)]; [contradiction|].
    rewrite load_store_other by (simpl Z.of_nat; lia).
    rewrite load_store_same. apply Z.mod_small. lia.
  - intros n a Ha1 Ha2 Ha3. apply load_add_mem_other; assumption.
Qed.

(** X7.  [rem_free_blk] unlinks the block: when the list of its
    size is the chain [l1 ++ bp :: l2] of separate nodes and the [prev]
    link of [bp] is the last node of [l1] (null if [bp] is the head), the
    list is the chain [l1 ++ l2] afterwards and the [prev] link of the
    successor of [bp] is the predecessor of [bp]. *)
Theorem rem_free_blk_unlinks h bp size l1 l2 :
  let slot := heap_ptr h + find_list_by_size size in
  let nx := load 8 (contents h) bp in
  let pv := load 8 (contents h) (bp + 8) in
  mem_brk h < 2 ^ 64 ->
  0 <= mem_start_brk h <= heap_ptr h ->
  chain h (load 8 (contents h) slot) (l1 ++ bp :: l2) ->
  NoDup (l1 ++ bp :: l2) ->
  nodes_apart h (l1 ++ bp :: l2) ->
  pv = last l1 NULL ->
  exists h',
    rem_free_blk bp size h = Ok tt h' /\
    chain h' (load 8 (contents h') slot) (l1 ++ l2) /\
    (nx <> NULL -> load 8 (contents h') (nx + 8) = pv).
Proof.
  intros slot nx pv Hbrk Hlo Hc Hnd [Hin Hsep] Hpv.
  pose proof (find_list_by_size_range size) as Hk.
  pose proof (load8_range (contents h) bp) as Hnr. fold nx in Hnr.
  assert (Hbp : In bp (l1 ++ bp :: l2)) by (apply in_or_app; right; left; reflexivity).
  destruct (Hin _ Hbp) as [Hb1 Hb2].
  assert (Hsub : forall x, In x (l1 ++ l2) -> In x (l1 ++ bp :: l2)).
  { intros x Hx. apply in_app_or in Hx. apply in_or_app.
    destruct Hx; [left | right; right]; assumption. }
  assert (Hnb : forall x, In x (l1 ++ l2) -> x <> bp).
  { intros x Hx ->. apply NoDup_remove_2 in Hnd. contradiction. }
  (* the successor *)
  assert (Hc2 : chain h nx l2).
  { clear - Hc. revert Hc. generalize (load 8 (contents h) slot).
    induction l1 as [|x l1 IH]; intros p Hc; cbn [app] in Hc;
      apply chain_cons_inv in Hc; destruct Hc as (-> & _ & _ & Hc).
    - exact Hc.
    - exact (IH _ Hc). }
  assert (Hnx : nx = NULL \/ In nx l2).
  { destruct (Z.eq_dec nx NULL); [left; assumption | right].
    exact (chain_in_head _ _ _ Hc2 ltac:(assumption)). }
  assert (Hnx' : nx = NULL \/
                 (heap_ptr h + 96 <= nx /\ nx + 16 <= mem_brk h /\ In nx (l1 ++ l2))).
  { destruct Hnx as [?|Hi]; [left; assumption | right].
    assert (Hi' : In nx (l1 ++ l2)) by (apply in_or_app; right; exact Hi).
    destruct (Hin _ (Hsub _ Hi')). conjs; assumption. }
  (* the predecessor *)
  assert (Hpv' : (l1 = [] /\ pv = NULL) \/
                 (l1 <> [] /\ heap_ptr h + 96 <= pv /\ pv + 16 <= mem_brk h /\
                  In pv l1)).
  { destruct l1 as [|x l1]; [left; split; [reflexivity | exact Hpv] | right].
    assert (Hi : In pv (x :: l1)) by (rewrite Hpv; apply last_in; discriminate).
    destruct (Hin pv) as [? ?]; [apply in_or_app; left; exact Hi|].
    conjs; try assumption. discriminate. }
  assert (Hpn : pv = NULL \/ nx = NULL \/ pv + 16 <= nx \/ nx + 16 <= pv).
  { destruct Hpv' as [[_ ?]|(_ & _ & _ & Hi1)]; [left; assumption|].
    destruct Hnx as [?|Hi2]; [right; left; assumption|].
    right; right.
    destruct (Hsep pv nx) as [E|?]; try assumption.
    - apply in_or_app. left. exact Hi1.
    - apply in_or_app. right. right. exact Hi2.
    - exfalso. apply NoDup_remove_1 in Hnd.
      rewrite E in Hi1. clear - Hnd Hi1 Hi2.
      induction l1 as [|x l1 IH]; [destruct Hi1|].
      cbn [app] in Hnd. inversion Hnd as [|? ? Hn Hnd']; subst.
      destruct Hi1 as [->|Hi1]; [apply Hn; apply in_or_app; right; exact Hi2|].
      exact (IH Hnd' Hi1). }
  rewrite rem_free_blk_run; try lia.
  fold slot.
  eexists. split; [reflexivity|]. heap_proj.
  set (m' := rem_mem (contents h) slot bp).
  assert (Hfr : forall x, In x (l1 ++ l2) -> x <> pv -> load 8 m' x = load 8 (contents h) x).
  { intros x Hx Hne. pose proof (Hsub _ Hx) as Hx'. destruct (Hin _ Hx') as [Hx1 Hx2].
    unfold m'. apply load_rem_mem_other; simpl Z.of_nat.
    - unfold slot. lia.
    - fold nx. destruct Hnx' as [?|(_ & _ & Hi)]; [left; assumption | right].
      destruct (Hsep x nx Hx' (Hsub _ Hi)) as [->|[?|?]]; lia.
    - fold pv. destruct Hpv' as [[_ ?]|(_ & _ & _ & Hi)]; [left; assumption | right].
      destruct (Hsep x pv Hx') as [?|[?|?]]; try lia.
      apply in_or_app. left. exact Hi. }
  split.
  - destruct Hpv' as [[-> Hp0]|(Hne & Hp1 & Hp2 & Hi)].
    + (* [bp] was the head *)
      assert (Hs : load 8 m' slot = nx).
      { unfold m', rem_mem. fold nx pv. rewrite Hp0. change (NULL =? NULL) with true.
        destruct (Z.eqb_spec nx NULL) as [En|En]; cbn [andb negb].
        - rewrite load_store_same, En. reflexivity.
        - destruct Hnx' as [?|(? & ? & ?)]; [contradiction|].
          rewrite load_store_other by (unfold slot; simpl Z.of_nat; lia).
          rewrite load_store_same. apply Z.mod_small. lia. }
      rewrite Hs.
      apply (chain_unlink h _ bp l2 [] (load 8 (contents h) slot)); try assumption.
      * intros x Hx. destruct (Hin _ (Hsub _ Hx)).
        apply valid_true; heap_proj; simpl Z.of_nat; lia.
      * intros x Hx _. heap_proj. apply Hfr; [exact Hx|].
        rewrite Hp0. destruct (Hin _ (Hsub _ Hx)). unfold NULL. lia.
      * intros H. contradiction.
    + assert (Hs : load 8 m' slot = load 8 (contents h) slot).
      { unfold m', rem_mem. fold nx pv.
        destruct (Z.eqb_spec pv NULL) as [E|_]; [unfold NULL in E; lia|].
        destruct (Z.eqb_spec nx NULL) as [En|En]; cbn [andb negb].
        - rewrite load_store_other by (unfold slot; simpl Z.of_nat; lia). reflexivity.
        - destruct Hnx' as [?|(? & ? & ?)]; [contradiction|].
          rewrite !load_store_other by (unfold slot; simpl Z.of_nat; lia).
          reflexivity. }
      rewrite Hs.
      pose proof (chain_unlink h (set_contents h m') bp l2 l1
                    (load 8 (contents h) slot) Hc Hnd) as Q.
      destruct l1 as [|x l1]; [contradiction|].
      apply Q.
      * intros z Hz. destruct (Hin _ (Hsub _ Hz)).
        apply valid_true; heap_proj; simpl Z.of_nat; lia.
      * intros z Hz Hzp. heap_proj. apply Hfr; [exact Hz|]. rewrite Hpv. exact Hzp.
      * intros _. heap_proj. rewrite <- Hpv. fold nx.
        unfold m', rem_mem. fold nx pv.
        destruct (Z.eqb_spec pv NULL) as [E|_]; [unfold NULL in E; lia|].
        destruct (Z.eqb_spec nx NULL) as [En|En]; cbn [andb negb].
        -- rewrite load_store_same, En. reflexivity.
        -- destruct Hpn as [E|[E|Hd]]; [unfold NULL in E; lia | contradiction |].
           rewrite load_store_other by (simpl Z.of_nat; lia).
           rewrite load_store_same. apply Z.mod_small. lia.
  - intros Hne. fold m'. unfold m', rem_mem. fold nx pv.
    destruct (Z.eqb_spec nx NULL) as [?|_]; [contradiction|].
    pose proof (load8_range (contents h) (bp + 8)) as Hpr. fold pv in Hpr.
    destruct (Z.eqb_spec pv NULL) as [Ep|Ep]; cbn [andb negb].
    + rewrite load_store_same, Ep. reflexivity.
    + rewrite load_store_same. apply Z.mod_small. lia.
Qed.

(** X8.  Insertion followed by lookup: after [add_free_blk bp size],
    [find_block_in_list] on the list [get_index size] returns [bp] at once
    for every request that is at most the size in the header of [bp]; the
    header is not touched. *)
Theorem add_then_find h bp size asize fuel :
  let slot := heap_ptr h + find_list_by_size size in
  let hd := load 8 (contents h) slot in
  mem_brk h < 2 ^ 64 ->
  0 <= mem_start_brk h <= heap_ptr h ->
  heap_ptr h + 96 <= bp - 4 -> bp + 16 <= mem_brk h ->
  (hd = NULL \/
   (heap_ptr h + 96 <= hd /\ hd + 16 <= mem_brk h /\
    (hd + 16 <= bp - 4 \/ bp + 16 <= hd))) ->
  asize <= size_of h bp ->
  exists h',
    (add_free_blk bp size ;;
     find_block_in_list (S fuel) (get_index size) asize) h = Ok bp h' /\
    load 8 (contents h') slot = bp /\
    size_of h' bp = size_of h bp.
Proof.
  intros slot hd Hbrk Hlo Hb1 Hb2 Hhd Has.
  pose proof (find_list_by_size_range size) as Hk.
  pose proof (get_index_range size) as Hi.
  destruct (find_list_by_size_get_index size) as [Efl _].
  unfold bind at 1.
  rewrite add_free_blk_run; try lia.
  2:{ fold slot hd. destruct Hhd as [?|(? & ? & ?)]; [left; assumption | right; lia]. }
  fold slot.
  set (m' := add_mem (contents h) slot bp).
  assert (Hhead : load 8 m' slot = bp).
  { apply add_mem_head; [lia | unfold slot; lia |].
    fold hd. destruct Hhd as [?|(? & ? & ?)];
               [left; assumption | right; unfold slot; lia]. }
  assert (Hsz : load 4 m' (bp - 4) = load 4 (contents h) (bp - 4)).
  { apply load_add_mem_other; simpl Z.of_nat.
    - unfold slot. lia.
    - lia.
    - fold hd. destruct Hhd as [?|(? & ? & ?)]; [left; assumption | right; lia]. }
  unfold find_block_in_list, GET. unfold bind at 1, get_heap_ptr. heap_proj.
  rewrite <- Efl. rewrite padd_small by lia. fold slot.
  rewrite bind_load_at by solve_valid. heap_proj. fold m'. rewrite Hhead.
  cbn [find_block_loop].
  destruct (Z.eqb_spec bp NULL) as [E|_]; [unfold NULL in E; lia|].
  rewrite (HDRP_small bp) by lia.
  rewrite bind_GET_SIZE by solve_valid. heap_proj. fold m'. rewrite Hsz.
  unfold size_of in Has. rewrite (HDRP_small bp) in Has by lia.
  destruct (Z.leb_spec asize (Z.land (load 4 (contents h) (bp - 4)) (2 ^ 32 - 8)));
    [|lia].
  eexists. split; [reflexivity|]. heap_proj. fold m'. split; [exact Hhead|].
  unfold size_of. rewrite (HDRP_small bp) by lia. heap_proj. rewrite Hsz. reflexivity.
Qed.

(** ** Extension, placement and release *)

(** Between two allocated neighbours [coalesce] has nothing to merge. *)
Lemma coalesce_nothing h bp :
  let hdr := load 4 (contents h) (bp - 4) in
  let size := Z.land hdr (2 ^ 32 - 8) in
  mem_brk h < 2 ^ 64 ->
  0 <= mem_start_brk h <= bp - 8 ->
  4 <= size -> bp + size <= mem_brk h ->
  Z.land hdr 2 = 2 ->
  Z.land (load 4 (contents h) (bp + size - 4)) 1 = 1 ->
  coalesce bp h = Ok bp h.
Proof.
  intros hdr size Hbrk Hlo Hs Hend Hp Ha.
  unfold coalesce.
  rewrite !(HDRP_small bp) by lia.
  rewrite bind_GET_SIZE by solve_valid. fold hdr size.
  rewrite bind_PREV_BLKP by (solve [lia | solve_valid]).
  rewrite bind_NEXT_BLKP by (fold hdr size; solve [lia | solve_valid]).
  fold hdr size.
  rewrite (HDRP_small (bp + size)) by lia.
  rewrite bind_GET_SIZE by solve_valid.
  rewrite bind_NEXT_BLKP by (fold hdr size; solve [lia | solve_valid]).
  fold hdr size.
  rewrite (HDRP_small (bp + size)) by lia.
  rewrite bind_GET_ALLOC by solve_valid. rewrite Ha.
  rewrite bind_GET_PREV_ALLOC by solve_valid. fold hdr. rewrite Hp.
  reflexivity.
Qed.

(** The block [extend_heap] appends when the last block of the heap is
    allocated. *)
Lemma extend_heap_run h words :
  let b := mem_brk h in
  let slot := heap_ptr h + find_list_by_size words in
  let hd := load 8 (contents h) slot in
  0 <= mem_start_brk h <= heap_ptr h ->
  heap_ptr h + 96 <= b - 8 ->
  MIN_BLOCK_SIZE <= words < 2 ^ 32 -> words mod 8 = 0 ->
  b + words <= mem_max_addr h -> b + words < 2 ^ 63 ->
  Z.land (load 4 (contents h) (b - 4)) 2 = 2 ->
  (hd = NULL \/ (heap_ptr h + 96 <= hd /\ hd + 16 <= b - 4)) ->
  exists m',
    extend_heap words h = Ok b (set_contents (set_brk h (b + words)) m') /\
    load 4 m' (b - 4) = words + 2 /\
    load 4 m' (b + words - 8) = words + 2 /\
    load 4 m' (b + words - 4) = 1 /\
    load 8 m' slot = b /\
    load 8 m' b = hd /\
    load 8 m' (b + 8) = NULL /\
    (hd <> NULL -> load 8 m' (hd + 8) = b) /\
    (forall n a, a + Z.of_nat n <= b - 4 ->
       (a + Z.of_nat n <= slot \/ slot + 8 <= a) ->
       (hd = NULL \/ a + Z.of_nat n <= hd + 8 \/ hd + 16 <= a) ->
       load n m' a = load n (contents h) a).
Proof.
  intros b slot hd Hlo Htab Hw Hw8 Hmax H63 Hpa Hhd.
  unfold MIN_BLOCK_SIZE in Hw.
  pose proof (find_list_by_size_range words) as Hk.
  assert (H64 : 2 ^ 63 < 2 ^ 64) by lia.
  assert (Hw7 : words + 7 < 2 ^ 32)
    by (change (2 ^ 32) with 4294967296 in *; zlia).
  unfold extend_heap.
  unfold bind at 1, mem_sbrk. fold b.
  destruct (Z.ltb_spec words 0); [lia|].
  destruct (Z.ltb_spec (mem_max_addr h) (b + words)); [lia|].
  cbn [orb].
  destruct (Z.leb_spec (2 ^ 63) b); [lia|].
  rewrite !(HDRP_small b) by lia.
  rewrite bind_GET_PREV_ALLOC by solve_valid. heap_proj. fold b. rewrite Hpa.
  change (Z.lor (Z.lor 0 2) 0) with 2. unfold PACK.
  rewrite (lor_flags words 2) by lia.
  rewrite bind_PUT_4 by solve_valid. heap_proj.
  set (m1 := store 4 (contents h) (b - 4) (words + 2)).
  assert (E1 : load 4 m1 (b - 4) = words + 2) by (apply load4_store_same; lia).
  rewrite bind_FTRP by (heap_proj; fold m1; rewrite ?E1, ?land_size_of by lia;
                        solve [lia | solve_valid]).
  heap_proj. fold m1. rewrite E1, land_size_of by lia.
  rewrite bind_GET_4 by solve_valid. heap_proj. fold m1. rewrite E1.
  rewrite bind_PUT_4 by solve_valid. heap_proj. fold m1.
  set (m2 := store 4 m1 (b + words - 8) (words + 2)).
  assert (E2 : load 4 m2 (b - 4) = words + 2).
  { unfold m2. rewrite load_store_other by (simpl Z.of_nat; lia). exact E1. }
  rewrite bind_NEXT_BLKP by (heap_proj; fold m1 m2; rewrite ?E2, ?land_size_of by lia;
                             solve [lia | solve_valid]).
  heap_proj. fold m1 m2. rewrite E2, land_size_of by lia.
  rewrite (HDRP_small (b + words)) by lia.
  change (Z.lor 0 1) with 1.
  rewrite bind_PUT_4 by solve_valid. heap_proj. fold m1 m2.
  set (m3 := store 4 m2 (b + words - 4) 1).
  assert (Hslot : load 8 m3 slot = hd).
  { unfold m3, m2, m1. rewrite !load_store_other by (unfold slot; simpl Z.of_nat; lia).
    reflexivity. }
  pose proof (load8_range (contents h) slot) as Hhr. fold hd in Hhr.
  unfold bind at 1.
  rewrite add_free_blk_run; heap_proj; fold m1 m2 m3 slot; rewrite ?Hslot; try lia.
  set (m4 := add_mem m3 slot b).
  assert (Hout : forall n a,
            (a + Z.of_nat n <= b \/ b + 16 <= a) ->
            (a + Z.of_nat n <= slot \/ slot + 8 <= a) ->
            (hd = NULL \/ a + Z.of_nat n <= hd + 8 \/ hd + 16 <= a) ->
            load n m4 a = load n m3 a).
  { intros n a Ha1 Ha2 Ha3. unfold m4. apply load_add_mem_other.
    - exact Ha2.
    - exact Ha1.
    - rewrite Hslot. exact Ha3. }
  assert (Hnear : forall n a, b - 4 <= a ->
            (hd = NULL \/ a + Z.of_nat n <= hd + 8 \/ hd + 16 <= a)).
  { intros n a Ha. destruct Hhd as [?|(? & ?)]; [left; assumption | right; right; lia]. }
  assert (F1 : load 4 m4 (b - 4) = words + 2).
  { rewrite Hout; [| simpl Z.of_nat; lia | unfold slot; simpl Z.of_nat; lia
                   | apply Hnear; lia].
    unfold m3. rewrite load_store_other by (simpl Z.of_nat; lia). exact E2. }
  assert (F2 : load 4 m4 (b + words - 8) = words + 2).
  { rewrite Hout; [| simpl Z.of_nat; lia | unfold slot; simpl Z.of_nat; lia
                   | apply Hnear; lia].
    unfold m3. rewrite load_store_other by (simpl Z.of_nat; lia).
    unfold m2. apply load4_store_same. lia. }
  assert (F3 : load 4 m4 (b + words - 4) = 1).
  { rewrite Hout; [| simpl Z.of_nat; lia | unfold slot; simpl Z.of_nat; lia
                   | apply Hnear; lia].
    unfold m3. apply load4_store_same. lia. }
  (* coalesce *)
  unfold coalesce.
  rewrite !(HDRP_small b) by lia.
  rewrite bind_GET_SIZE by solve_valid. heap_proj. fold m4. rewrite F1, land_size_of by lia.
  rewrite bind_PREV_BLKP by (solve [lia | solve_valid]). heap_proj. fold m4.
  rewrite bind_NEXT_BLKP by (heap_proj; fold m4; rewrite ?F1, ?land_size_of by lia;
                             solve [lia | solve_valid]).
  heap_proj. fold m4. rewrite F1, land_size_of by lia.
  rewrite (HDRP_small (b + words)) by lia.
  rewrite bind_GET_SIZE by solve_valid. heap_proj. fold m4. rewrite F3.
  rewrite bind_NEXT_BLKP by (heap_proj; fold m4; rewrite ?F1, ?land_size_of by lia;
                             solve [lia | solve_valid]).
  heap_proj. fold m4. rewrite F1, land_size_of by lia.
  rewrite (HDRP_small (b + words)) by lia.
  rewrite bind_GET_ALLOC by solve_valid. heap_proj. fold m4. rewrite F3.
  rewrite bind_GET_PREV_ALLOC by solve_valid. heap_proj. fold m4. rewrite F1.
  assert (Ep : Z.land (words + 2) 2 = 2) by (rewrite land_prev_alloc; zlia).
  rewrite Ep. change (Z.lor 2 (Z.land 1 1) =? 3) with true. cbv iota.
  exists m4. conjs.
  - reflexivity.
  - exact F1.
  - exact F2.
  - exact F3.
  - unfold m4. apply add_mem_head; [lia | unfold slot; lia |].
    rewrite Hslot. destruct Hhd as [?|(? & ?)]; [left; assumption | right; unfold slot; lia].
  - unfold m4. rewrite add_mem_next. exact Hslot.
  - unfold m4. apply add_mem_prev. rewrite Hslot.
    destruct Hhd as [?|(? & ?)]; [left; assumption | right; lia].
  - intros Hne. unfold m4, add_mem. rewrite Hslot.
    destruct (Z.eqb_spec hd NULL); [contradiction|].
    destruct Hhd as [?|(? & ?)]; [contradiction|].
    rewrite load_store_other by (simpl Z.of_nat; lia).
    rewrite load_store_same. apply Z.mod_small. lia.
  - intros n a Ha1 Ha2 Ha3.
    rewrite Hout by (solve [lia | assumption]).
    unfold m3, m2, m1. rewrite !load_store_other by (simpl Z.of_nat; lia). reflexivity.
Qed.

(** X9.  When the last block of the heap is allocated (the P bit
    of the epilogue is set) and the limit allows [words] more bytes,
    [extend_heap] returns the old brk [b], moves the brk by [words], writes
    header and footer [words | 2] of a free block at [b], a new epilogue 1
    behind it, and makes the block the head of the list of its size; bytes
    below the old epilogue, other than the list slot and the old head's
    [prev] link, keep their values. *)
Theorem extend_heap_appends h words :
  let b := mem_brk h in
  let slot := heap_ptr h + find_list_by_size words in
  let hd := load 8 (contents h) slot in
  0 <= mem_start_brk h <= heap_ptr h ->
  heap_ptr h + 96 <= b - 8 ->
  MIN_BLOCK_SIZE <= words < 2 ^ 32 -> words mod 8 = 0 ->
  b + words <= mem_max_addr h -> b + words < 2 ^ 63 ->
  Z.land (load 4 (contents h) (b - 4)) 2 = 2 ->
  (hd = NULL \/ (heap_ptr h + 96 <= hd /\ hd + 16 <= b - 4)) ->
  exists h',
    extend_heap words h = Ok b h' /\
    mem_brk h' = b + words /\
    load 4 (contents h') (b - 4) = words + 2 /\
    load 4 (contents h') (b + words - 8) = words + 2 /\
    load 4 (contents h') (b + words - 4) = 1 /\
    load 8 (contents h') slot = b /\
    load 8 (contents h') b = hd /\
    load 8 (contents h') (b + 8) = NULL /\
    (hd <> NULL -> load 8 (contents h') (hd + 8) = b) /\
    (forall n a, a + Z.of_nat n <= b - 4 ->
       (a + Z.of_nat n <= slot \/ slot + 8 <= a) ->
       (hd = NULL \/ a + Z.of_nat n <= hd + 8 \/ hd + 16 <= a) ->
       load n (contents h') a = load n (contents h) a).
Proof.
  intros b slot hd Hlo Htab Hw Hw8 Hmax H63 Hpa Hhd.
  destruct (extend_heap_run h words Hlo Htab Hw Hw8 Hmax H63 Hpa Hhd)
    as (m' & Hrun & H1 & H2 & H3 & H4 & H5 & H6 & H7 & H8).
  eexists. split; [exact Hrun|]. heap_proj.
  split; [reflexivity|].
  split; [exact H1|]. split; [exact H2|]. split; [exact H3|]. split; [exact H4|].
  split; [exact H5|]. split; [exact H6|]. split; [exact H7 | exact H8].
Qed.

(** X10.  When the remainder would be smaller than 24 bytes,
    [place] allocates the whole block: the header keeps its size and P bit
    and gets A = 1, the P bit of the following block is set (in its footer
    as well, should that block be free), and the block is unlinked from its
    list.  Its list neighbours are null or nodes outside the blocks
    written. *)
Theorem place_whole_block h bp asize :
  let hdr := load 4 (contents h) (bp - 4) in
  let blk_size := Z.land hdr (2 ^ 32 - 8) in
  let nhdr := load 4 (contents h) (bp + blk_size - 4) in
  let nsize := Z.land nhdr (2 ^ 32 - 8) in
  let hi := if Z.land nhdr 1 =? 0 then bp + blk_size + nsize else bp + blk_size in
  let slot := heap_ptr h + find_list_by_size blk_size in
  let nx := load 8 (contents h) bp in
  let pv := load 8 (contents h) (bp + 8) in
  mem_brk h < 2 ^ 64 ->
  0 <= mem_start_brk h <= heap_ptr h ->
  heap_ptr h + 96 <= bp - 4 ->
  bp + blk_size <= mem_brk h ->
  MIN_BLOCK_SIZE <= blk_size ->
  asize <= blk_size -> blk_size - asize < MIN_BLOCK_SIZE ->
  (Z.land nhdr 1 = 0 -> 8 <= nsize /\ hi <= mem_brk h) ->
  node_ok h nx (bp - 4) hi ->
  node_ok h pv (bp - 4) hi ->
  (nx = NULL \/ pv = NULL \/ pv <= nx \/ nx + 16 <= pv) ->
  exists h',
    place bp asize h = Ok tt h' /\
    load 4 (contents h') (bp - 4) = Z.lor blk_size (Z.lor (Z.land hdr 2) 1) /\
    load 4 (contents h') (bp + blk_size - 4) = Z.lor nhdr 2 /\
    (Z.land nhdr 1 = 0 ->
     load 4 (contents h') (bp + blk_size + nsize - 8) = Z.lor nhdr 2) /\
    (pv = NULL -> load 8 (contents h') slot = nx) /\
    (pv <> NULL -> load 8 (contents h') pv = nx) /\
    (nx <> NULL -> load 8 (contents h') (nx + 8) = pv).
Proof.
  intros hdr blk_size nhdr nsize hi slot nx pv
    Hbrk Hlo Hbp Hend Hmin Has Hex Hnext Hnx Hpv Hsep.
  unfold MIN_BLOCK_SIZE in *.
  pose proof (load4_range (contents h) (bp - 4)) as Hhr. fold hdr in Hhr.
  pose proof (load4_range (contents h) (bp + blk_size - 4)) as Hnr. fold nhdr in Hnr.
  assert (Hbs : blk_size = 8 * ((hdr / 8) mod 2 ^ 29)) by apply land_size_mask.
  assert (Hbr : 0 <= blk_size < 2 ^ 32 /\ blk_size mod 8 = 0) by (rewrite Hbs; zlia).
  assert (Hns : nsize = 8 * ((nhdr / 8) mod 2 ^ 29)) by apply land_size_mask.
  assert (Hnsr : 0 <= nsize < 2 ^ 32) by (rewrite Hns; zlia).
  assert (Hhi : bp + blk_size <= hi).
  { unfold hi. destruct (Z.land nhdr 1 =? 0); lia. }
  assert (Hpa : 0 <= Z.land hdr 2 <= 2) by (rewrite land_prev_alloc; zlia).
  set (pa := Z.land hdr 2) in *.
  assert (Hfl : Z.lor pa 1 = pa + 1).
  { unfold pa. rewrite land_prev_alloc.
    assert ((hdr / 2) mod 2 = 0 \/ (hdr / 2) mod 2 = 1) as [-> | ->] by zlia; reflexivity. }
  pose proof (load8_range (contents h) bp) as Hnxr. fold nx in Hnxr.
  pose proof (load8_range (contents h) (bp + 8)) as Hpvr. fold pv in Hpvr.
  pose proof (find_list_by_size_range blk_size) as Hk.
  unfold place.
  rewrite !(HDRP_small bp) by lia.
  unfold MIN_BLOCK_SIZE, ALLOC, PREV_ALLOC, PACK.
  rewrite bind_GET_SIZE by solve_valid. fold hdr. fold blk_size.
  unfold wrap64. rewrite (Z.mod_small (blk_size - asize)) by lia.
  rewrite bind_NEXT_BLKP by (fold hdr blk_size; solve [lia | solve_valid]).
  fold hdr blk_size.
  rewrite (HDRP_small (bp + blk_size)) by lia.
  unfold bind at 1.
  rewrite rem_free_blk_run; try lia.
  2:{ fold nx. destruct Hnx as [?|(? & ? & ?)]; [left; assumption | right; lia]. }
  2:{ fold pv. destruct Hpv as [?|(? & ? & ?)]; [left; assumption | right; lia]. }
  fold slot.
  set (m1 := rem_mem (contents h) slot bp).
  assert (Hm1 : forall n a, bp - 4 <= a -> a + Z.of_nat n <= hi ->
                load n m1 a = load n (contents h) a).
  { intros n a Ha1 Ha2. unfold m1. apply load_rem_mem_other.
    - unfold slot. lia.
    - fold nx. destruct Hnx as [?|(? & ? & ?)]; [left; assumption | right; lia].
    - fold pv. destruct Hpv as [?|(? & ? & ?)]; [left; assumption | right; lia]. }
  destruct (Z.leb_spec 24 (blk_size - asize)) as [?|_]; [lia|].
  rewrite bind_GET_PREV_ALLOC by solve_valid. heap_proj.
  rewrite (Hm1 4%nat (bp - 4)) by (simpl Z.of_nat; lia). fold hdr pa.
  rewrite Hfl.
  assert (Hh1 : Z.lor blk_size (pa + 1) = blk_size + (pa + 1)) by (apply lor_flags; lia).
  assert (Hb7 : blk_size + 7 < 2 ^ 32)
    by (change (2 ^ 32) with 4294967296 in *; zlia).
  rewrite bind_PUT_4 by solve_valid. heap_proj.
  set (m2 := store 4 m1 (bp - 4) (Z.lor blk_size (pa + 1))).
  assert (E2 : load 4 m2 (bp + blk_size - 4) = nhdr).
  { unfold m2. rewrite load_store_other by (simpl Z.of_nat; lia).
    apply Hm1; simpl Z.of_nat; lia. }
  rewrite bind_GET_4 by solve_valid. heap_proj. rewrite E2.
  rewrite bind_PUT_4 by solve_valid. heap_proj.
  set (m3 := store 4 m2 (bp + blk_size - 4) (Z.lor nhdr 2)).
  assert (Hl2 : 0 <= Z.lor nhdr 2 < 2 ^ 32) by (apply lor_bound; lia).
  assert (E3 : load 4 m3 (bp + blk_size - 4) = Z.lor nhdr 2)
    by (apply load4_store_same; exact Hl2).
  rewrite bind_GET_ALLOC by solve_valid. heap_proj. rewrite E3, land_lor_P_alloc.
  assert (Hlist : forall m,
            (forall n a, (a + Z.of_nat n <= bp - 4 \/ hi <= a) ->
                         load n m a = load n m1 a) ->
            (pv = NULL -> load 8 m slot = nx) /\
            (pv <> NULL -> load 8 m pv = nx) /\
            (nx <> NULL -> load 8 m (nx + 8) = pv)).
  { intros m Hm. conjs.
    - intros E. rewrite Hm by (unfold slot; simpl Z.of_nat; lia).
      unfold m1, rem_mem. fold nx pv. rewrite E. change (NULL =? NULL) with true.
      destruct (Z.eqb_spec nx NULL) as [En|En]; cbn [andb negb].
      + rewrite load_store_same, En. reflexivity.
      + destruct Hnx as [?|(? & ? & ?)]; [contradiction|].
        rewrite load_store_other by (unfold slot; simpl Z.of_nat; lia).
        rewrite load_store_same. apply Z.mod_small. lia.
    - intros E. destruct Hpv as [?|(? & ? & ?)]; [contradiction|].
      rewrite Hm by (simpl Z.of_nat; lia).
      unfold m1, rem_mem. fold nx pv.
      destruct (Z.eqb_spec pv NULL) as [?|_]; [contradiction|].
      destruct (Z.eqb_spec nx NULL) as [En|En]; cbn [andb negb].
      + rewrite load_store_same, En. reflexivity.
      + destruct Hnx as [?|(? & ? & ?)]; [contradiction|].
        destruct Hsep as [?|[?|Hsep]]; try contradiction.
        rewrite load_store_other by (simpl Z.of_nat; lia).
        rewrite load_store_same. apply Z.mod_small. lia.
    - intros E. destruct Hnx as [?|(? & ? & ?)]; [contradiction|].
      rewrite Hm by (simpl Z.of_nat; lia).
      unfold m1, rem_mem. fold nx pv.
      destruct (Z.eqb_spec nx NULL) as [?|_]; [contradiction|].
      destruct (Z.eqb_spec pv NULL) as [Ep|Ep]; cbn [andb negb].
      + rewrite load_store_same, Ep. reflexivity.
      + rewrite load_store_same. apply Z.mod_small. lia. }
  destruct (Z.eqb_spec (Z.land nhdr 1) 0) as [Ea|Ea].
  - destruct (Hnext Ea) as [Hn8 Hhib].
    assert (Ehi : hi = bp + blk_size + nsize).
    { unfold hi. reflexivity. }
    rewrite bind_FTRP by (heap_proj; replace (bp + blk_size - 4) with (bp + blk_size - 4) by lia;
                          rewrite ?E3, ?land_lor_P_size; fold nsize;
                          solve [lia | solve_valid]).
    heap_proj. rewrite E3, land_lor_P_size. fold nsize.
    rewrite bind_GET_4 by solve_valid. heap_proj. rewrite E3.
    unfold PUT_4. rewrite run_store_at by solve_valid.
    eexists. split; [reflexivity|]. heap_proj. conjs.
    + rewrite load_store_other by (simpl Z.of_nat; lia).
      unfold m3. rewrite load_store_other by (simpl Z.of_nat; lia).
      unfold m2. rewrite Hh1. apply load4_store_same. lia.
    + rewrite load_store_other by (simpl Z.of_nat; lia). exact E3.
    + intros _. apply load4_store_same. exact Hl2.
    + apply Hlist. intros n a Ha. unfold m3, m2.
      rewrite !load_store_other by (simpl Z.of_nat; lia). reflexivity.
    + apply Hlist. intros n a Ha. unfold m3, m2.
      rewrite !load_store_other by (simpl Z.of_nat; lia). reflexivity.
    + apply Hlist. intros n a Ha. unfold m3, m2.
      rewrite !load_store_other by (simpl Z.of_nat; lia). reflexivity.
  - eexists. split; [reflexivity|]. heap_proj. conjs.
    + unfold m3. rewrite load_store_other by (simpl Z.of_nat; lia).
      unfold m2. rewrite Hh1. apply load4_store_same. lia.
    + exact E3.
    + intros E. contradiction.
    + apply Hlist. intros n a Ha. unfold m3, m2.
      rewrite !load_store_other by (simpl Z.of_nat; lia). reflexivity.
    + apply Hlist. intros n a Ha. unfold m3, m2.
      rewrite !load_store_other by (simpl Z.of_nat; lia). reflexivity.
    + apply Hlist. intros n a Ha. unfold m3, m2.
      rewrite !load_store_other by (simpl Z.of_nat; lia). reflexivity.
Qed.

(** X11.  [free] of a block of at least 24 bytes whose two
    neighbours are allocated: header and footer become [size | 2], the
    following header loses its P bit, the block heads the list of its size
    with a null [prev] link and the old head behind it, and nothing is
    merged. *)
Theorem free_between_allocated h bp :
  let hdr := load 4 (contents h) (bp - 4) in
  let size := Z.land hdr (2 ^ 32 - 8) in
  let nhdr := load 4 (contents h) (bp + size - 4) in
  let slot := heap_ptr h + find_list_by_size size in
  let hd := load 8 (contents h) slot in
  mem_brk h < 2 ^ 64 ->
  0 <= mem_start_brk h <= heap_ptr h ->
  heap_ptr h + 96 <= bp - 8 ->
  MIN_BLOCK_SIZE <= size -> bp + size <= mem_brk h ->
  Z.land hdr 2 = 2 -> Z.land nhdr 1 = 1 ->
  node_ok h hd (bp - 4) (bp + size) ->
  exists h',
    free bp h = Ok tt h' /\
    load 4 (contents h') (bp - 4) = size + 2 /\
    load 4 (contents h') (bp + size - 8) = size + 2 /\
    load 4 (contents h') (bp + size - 4) = Z.land nhdr (2 ^ 32 - 8) + 1 /\
    load 8 (contents h') slot = bp /\
    load 8 (contents h') bp = hd /\
    load 8 (contents h') (bp + 8) = NULL /\
    (hd <> NULL -> load 8 (contents h') (hd + 8) = bp) /\
    (forall n a,
       (a + Z.of_nat n <= bp - 4 \/ bp + size <= a) ->
       (a + Z.of_nat n <= slot \/ slot + 8 <= a) ->
       (hd = NULL \/ a + Z.of_nat n <= hd + 8 \/ hd + 16 <= a) ->
       load n (contents h') a = load n (contents h) a).
Proof.
  intros hdr size nhdr slot hd Hbrk Hlo Hbp Hmin Hend Hp Ha Hhd.
  unfold MIN_BLOCK_SIZE in Hmin.
  pose proof (load4_range (contents h) (bp - 4)) as Hhr. fold hdr in Hhr.
  pose proof (load4_range (contents h) (bp + size - 4)) as Hnr. fold nhdr in Hnr.
  assert (Hbs : size = 8 * ((hdr / 8) mod 2 ^ 29)) by apply land_size_mask.
  assert (Hbr : 0 <= size < 2 ^ 32 /\ size mod 8 = 0) by (rewrite Hbs; zlia).
  assert (Hs7 : size + 7 < 2 ^ 32) by (change (2 ^ 32) with 4294967296 in *; zlia).
  set (s1 := Z.land nhdr (2 ^ 32 - 8)).
  assert (Hs1 : s1 = 8 * ((nhdr / 8) mod 2 ^ 29)) by apply land_size_mask.
  assert (Hs1r : 0 <= s1 < 2 ^ 32 /\ s1 mod 8 = 0) by (rewrite Hs1; zlia).
  assert (Hs17 : s1 + 7 < 2 ^ 32) by (change (2 ^ 32) with 4294967296 in *; zlia).
  pose proof (find_list_by_size_range size) as Hk.
  pose proof (load8_range (contents h) slot) as Hhdr. fold hd in Hhdr.
  unfold free.
  destruct (Z.eqb_spec bp NULL) as [E|_]; [unfold NULL in E; lia|].
  rewrite bind_NEXT_BLKP by (fold hdr size; solve [lia | solve_valid]).
  fold hdr size.
  rewrite !(HDRP_small bp) by lia.
  rewrite (HDRP_small (bp + size)) by lia.
  rewrite bind_GET_SIZE by solve_valid. fold hdr size.
  rewrite bind_GET_SIZE by solve_valid. fold nhdr s1.
  rewrite bind_GET_ALLOC by solve_valid. fold nhdr. rewrite Ha.
  rewrite Z.lor_0_r. rewrite (lor_flags s1 1) by lia.
  rewrite bind_PUT_4 by solve_valid. heap_proj.
  set (m1 := store 4 (contents h) (bp + size - 4) (s1 + 1)).
  assert (E1 : load 4 m1 (bp - 4) = hdr).
  { unfold m1. rewrite load_store_other by (simpl Z.of_nat; lia). reflexivity. }
  rewrite bind_GET_PREV_ALLOC by solve_valid. heap_proj. rewrite E1, Hp.
  rewrite Z.lor_0_r. rewrite (lor_flags size 2) by lia.
  rewrite bind_PUT_4 by solve_valid. heap_proj.
  set (m2 := store 4 m1 (bp - 4) (size + 2)).
  assert (E2 : load 4 m2 (bp - 4) = size + 2) by (apply load4_store_same; lia).
  rewrite bind_FTRP by (heap_proj; rewrite ?E2, ?land_size_of by lia;
                        solve [lia | solve_valid]).
  heap_proj. rewrite E2, land_size_of by lia.
  rewrite bind_GET_4 by solve_valid. heap_proj. rewrite E2.
  rewrite bind_PUT_4 by solve_valid. heap_proj.
  set (m3 := store 4 m2 (bp + size - 8) (size + 2)).
  assert (Hslot : load 8 m3 slot = hd).
  { unfold m3, m2, m1. rewrite !load_store_other by (unfold slot; simpl Z.of_nat; lia).
    reflexivity. }
  unfold bind at 1.
  rewrite add_free_blk_run; heap_proj; fold slot; rewrite ?Hslot; try lia.
  2:{ destruct Hhd as [?|(? & ? & ?)]; [left; assumption | right; lia]. }
  set (m4 := add_mem m3 slot bp).
  assert (Hout : forall n a,
            (a + Z.of_nat n <= bp \/ bp + 16 <= a) ->
            (a + Z.of_nat n <= slot \/ slot + 8 <= a) ->
            (hd = NULL \/ a + Z.of_nat n <= hd + 8 \/ hd + 16 <= a) ->
            load n m4 a = load n m3 a).
  { intros n a Ha1 Ha2 Ha3. unfold m4. apply load_add_mem_other.
    - exact Ha2.
    - exact Ha1.
    - rewrite Hslot. exact Ha3. }
  assert (Hnear : forall n a, bp - 4 <= a -> a + Z.of_nat n <= bp + size ->
            (hd = NULL \/ a + Z.of_nat n <= hd + 8 \/ hd + 16 <= a)).
  { intros n a Ha1 Ha2. destruct Hhd as [?|(? & ? & ?)]; [left; assumption | right; lia]. }
  assert (F1 : load 4 m4 (bp - 4) = size + 2).
  { rewrite Hout; [| simpl Z.of_nat; lia | unfold slot; simpl Z.of_nat; lia
                   | apply Hnear; simpl Z.of_nat; lia].
    unfold m3. rewrite load_store_other by (simpl Z.of_nat; lia). exact E2. }
  assert (F2 : load 4 m4 (bp + size - 8) = size + 2).
  { rewrite Hout; [| simpl Z.of_nat; lia | unfold slot; simpl Z.of_nat; lia
                   | apply Hnear; simpl Z.of_nat; lia].
    unfold m3. apply load4_store_same. lia. }
  assert (F3 : load 4 m4 (bp + size - 4) = s1 + 1).
  { rewrite Hout; [| simpl Z.of_nat; lia | unfold slot; simpl Z.of_nat; lia
                   | apply Hnear; simpl Z.of_nat; lia].
    unfold m3, m2. rewrite !load_store_other by (simpl Z.of_nat; lia).
    unfold m1. apply load4_store_same. lia. }
  unfold bind at 1.
  rewrite coalesce_nothing; heap_proj; fold m4; rewrite ?F1, ?land_size_of by lia;
    try lia.
  2:{ rewrite land_prev_alloc. zlia. }
  2:{ rewrite F3. rewrite land_alloc. zlia. }
  eexists. split; [reflexivity|]. heap_proj. fold m4. conjs.
  - exact F1.
  - exact F2.
  - exact F3.
  - unfold m4. apply add_mem_head; [lia | unfold slot; lia |].
    rewrite Hslot. destruct Hhd as [?|(? & ? & ?)]; [left; assumption | right; unfold slot; lia].
  - unfold m4. rewrite add_mem_next. exact Hslot.
  - unfold m4. apply add_mem_prev. rewrite Hslot.
    destruct Hhd as [?|(? & ? & ?)]; [left; assumption | right; lia].
  - intros Hne. unfold m4, add_mem. rewrite Hslot.
    destruct (Z.eqb_spec hd NULL); [contradiction|].
    destruct Hhd as [?|(? & ? & ?)]; [contradiction|].
    rewrite load_store_other by (simpl Z.of_nat; lia).
    rewrite load_store_same. apply Z.mod_small. lia.
  - intros n a Ha1 Ha2 Ha3.
    rewrite Hout by (solve [lia | assumption]).
    unfold m3, m2, m1. rewrite !load_store_other by (simpl Z.of_nat; lia). reflexivity.
Qed.

(** The memory that [free] leaves when the predecessor of the block is
    allocated and its successor is free, write by write.  The list
    neighbours of the successor are null or nodes outside the two blocks;
    so are the heads of the two lists involved, unless the successor itself
    is the head. *)
Lemma free_merges_next_run h bp :
  let hdr := load 4 (contents h) (bp - 4) in
  let s := Z.land hdr (2 ^ 32 - 8) in
  let n := bp + s in
  let nhdr := load 4 (contents h) (n - 4) in
  let ns := Z.land nhdr (2 ^ 32 - 8) in
  let slotS := heap_ptr h + find_list_by_size s in
  let slotT := heap_ptr h + find_list_by_size (s + ns) in
  let m1 := store 4 (contents h) (n - 4) ns in
  let m2 := store 4 m1 (bp - 4) (s + 2) in
  let m3 := store 4 m2 (bp + s - 8) (s + 2) in
  let m4 := add_mem m3 slotS bp in
  let m5 := rem_mem m4 slotS bp in
  let m6 := rem_mem m5 (heap_ptr h + find_list_by_size ns) n in
  let m7 := store 4 m6 (bp - 4) (s + ns + 2) in
  let m8 := store 4 m7 (bp + (s + ns) - 8) (s + ns + 2) in
  let m' := add_mem m8 slotT bp in
  mem_brk h < 2 ^ 64 ->
  0 <= mem_start_brk h <= heap_ptr h ->
  heap_ptr h + 96 <= bp - 8 ->
  MIN_BLOCK_SIZE <= s -> MIN_BLOCK_SIZE <= ns -> s + ns < 2 ^ 32 ->
  n + ns <= mem_brk h ->
  Z.land hdr 2 = 2 -> Z.land nhdr 1 = 0 ->
  (load 8 (contents h) slotS = n \/
   node_ok h (load 8 (contents h) slotS) (bp - 4) (n + ns)) ->
  (load 8 (contents h) slotT = n \/
   node_ok h (load 8 (contents h) slotT) (bp - 4) (n + ns)) ->
  node_ok h (load 8 (contents h) n) (bp - 4) (n + ns) ->
  node_ok h (load 8 (contents h) (n + 8)) (bp - 4) (n + ns) ->
  free bp h = Ok tt (set_contents h m') /\
  load 4 m' (bp - 4) = s + ns + 2 /\
  load 4 m' (n + ns - 8) = s + ns + 2 /\
  load 4 m' (n + ns - 4) = load 4 (contents h) (n + ns - 4) /\
  load 8 m' slotT = bp /\
  load 8 m' (bp + 8) = NULL.
Proof.
  intros hdr s n nhdr ns slotS slotT M1 M2 M3 M4 M5 M6 M7 M8 M'
    Hbrk Hlo Hbp Hs Hns H32 Hend Hp Ha HhdS HhT Hnx2 Hpv2.
  unfold MIN_BLOCK_SIZE in *.
  assert (En : n = bp + s) by reflexivity.
  clearbody n.
  set (hdS := load 8 (contents h) slotS) in *.
  set (hT := load 8 (contents h) slotT) in *.
  set (nx2 := load 8 (contents h) n) in *.
  set (pv2 := load 8 (contents h) (n + 8)) in *.
  pose proof (load4_range (contents h) (bp - 4)) as Hhr. fold hdr in Hhr.
  pose proof (load4_range (contents h) (n - 4)) as Hnr. fold nhdr in Hnr.
  assert (Hsr : 0 <= s < 2 ^ 32 /\ s mod 8 = 0)
    by (unfold s; rewrite land_size_mask; zlia).
  assert (Hnsr : 0 <= ns < 2 ^ 32 /\ ns mod 8 = 0)
    by (unfold ns; rewrite land_size_mask; zlia).
  assert (Hs7 : s + 7 < 2 ^ 32) by (change (2 ^ 32) with 4294967296 in *; zlia).
  assert (Hn7 : ns + 7 < 2 ^ 32) by (change (2 ^ 32) with 4294967296 in *; zlia).
  assert (Ht7 : s + ns + 7 < 2 ^ 32) by (change (2 ^ 32) with 4294967296 in *; zlia).
  assert (Hts : (s + ns) mod 8 = 0) by zlia.
  pose proof (find_list_by_size_range s) as HkS.
  pose proof (find_list_by_size_range ns) as HkN.
  pose proof (find_list_by_size_range (s + ns)) as HkT.
  pose proof (load8_range (contents h) slotS) as RhdS. fold hdS in RhdS.
  pose proof (load8_range (contents h) n) as Rnx2. fold nx2 in Rnx2.
  pose proof (load8_range (contents h) (n + 8)) as Rpv2. fold pv2 in Rpv2.
  (* a list head: the successor itself, null, or a node outside the two
     blocks *)
  set (good := fun x => x = n \/ node_ok h x (bp - 4) (n + ns)).
  assert (Gnull : good NULL) by (right; left; reflexivity).
  assert (Gb : forall x, good x ->
            x = NULL \/ (heap_ptr h + 96 <= x /\ x + 16 <= mem_brk h /\
                         (x + 16 <= bp - 4 \/ n <= x))).
  { intros x [->|[?|(? & ? & ?)]]; [right; lia | left; assumption | right; lia]. }
  (* the list operations leave the two blocks alone, but for the link
     fields of [bp] and the [prev] link of the successor *)
  assert (Hadd : forall m slot k x a, good (load 8 m slot) ->
            slot = heap_ptr h + k -> 0 <= k <= 88 ->
            bp - 4 <= a -> a + Z.of_nat x <= n + ns ->
            (a + Z.of_nat x <= bp \/ bp + 16 <= a) ->
            (a + Z.of_nat x <= n + 8 \/ n + 16 <= a) ->
            load x (add_mem m slot bp) a = load x m a).
  { intros m slot k x a Hg -> Hk Ha1 Ha2 Ha3 Ha4. apply load_add_mem_other.
    - lia.
    - exact Ha3.
    - destruct Hg as [->|[?|(? & ? & ?)]]; [right; lia | left; assumption | right; lia]. }
  assert (Hrem : forall m slot k q x a,
            good (load 8 m q) -> node_ok h (load 8 m (q + 8)) (bp - 4) (n + ns) ->
            slot = heap_ptr h + k -> 0 <= k <= 88 ->
            bp - 4 <= a -> a + Z.of_nat x <= n + ns ->
            (a + Z.of_nat x <= n + 8 \/ n + 16 <= a) ->
            load x (rem_mem m slot q) a = load x m a).
  { intros m slot k q x a Hg1 Hg2 -> Hk Ha1 Ha2 Ha4. apply load_rem_mem_other.
    - lia.
    - destruct Hg1 as [->|[?|(? & ? & ?)]]; [right; lia | left; assumption | right; lia].
    - destruct Hg2 as [?|(? & ? & ?)]; [left; assumption | right; lia]. }
  unfold free.
  destruct (Z.eqb_spec bp NULL) as [E|_]; [unfold NULL in E; lia|].
  rewrite bind_NEXT_BLKP by (fold hdr s; solve [lia | solve_valid]).
  fold hdr s. rewrite <- En.
  rewrite !(HDRP_small bp) by lia.
  rewrite (HDRP_small n) by lia.
  rewrite bind_GET_SIZE by solve_valid. fold hdr s.
  rewrite bind_GET_SIZE by solve_valid. fold nhdr ns.
  rewrite bind_GET_ALLOC by solve_valid. fold nhdr. rewrite Ha.
  rewrite !Z.lor_0_r.
  rewrite bind_PUT_4 by solve_valid. heap_proj.
  set (m1 := store 4 (contents h) (n - 4) ns).
  assert (E1 : load 4 m1 (bp - 4) = hdr).
  { unfold m1. rewrite load_store_other by (simpl Z.of_nat; lia). reflexivity. }
  rewrite bind_GET_PREV_ALLOC by solve_valid. heap_proj. rewrite E1, Hp.
  rewrite Z.lor_0_r. rewrite (lor_flags s 2) by lia.
  rewrite bind_PUT_4 by solve_valid. heap_proj.
  set (m2 := store 4 m1 (bp - 4) (s + 2)).
  assert (E2 : load 4 m2 (bp - 4) = s + 2) by (apply load4_store_same; lia).
  rewrite bind_FTRP by (heap_proj; rewrite ?E2, ?land_size_of by lia;
                        solve [lia | solve_valid]).
  heap_proj. rewrite E2, land_size_of by lia.
  rewrite bind_GET_4 by solve_valid. heap_proj. rewrite E2.
  rewrite bind_PUT_4 by solve_valid. heap_proj.
  set (m3 := store 4 m2 (bp + s - 8) (s + 2)).
  (* the three stores change nothing outside the block and nothing from the
     successor on *)
  assert (H3 : forall x a, a + Z.of_nat x <= bp - 4 \/ n <= a ->
            load x m3 a = load x (contents h) a).
  { intros x a Hx. unfold m3, m2, m1.
    rewrite !load_store_other by (simpl Z.of_nat; lia). reflexivity. }
  assert (EhdS : load 8 m3 slotS = hdS) by (apply H3; unfold slotS; simpl Z.of_nat; lia).
  assert (GhdS : good hdS).
  { destruct HhdS as [?|?]; [left | right]; assumption. }
  pose proof (Gb _ GhdS) as BhdS.
  unfold bind at 1.
  rewrite add_free_blk_run; heap_proj; fold slotS; rewrite ?EhdS;
    [ | solve [ lia | destruct BhdS as [?|(? & ? & ?)];
                      [left; assumption | right; lia] ] .. ].
  set (m4 := add_mem m3 slotS bp).
  assert (F4 : forall x a, bp - 4 <= a -> a + Z.of_nat x <= n + ns ->
            (a + Z.of_nat x <= bp \/ bp + 16 <= a) ->
            (a + Z.of_nat x <= n + 8 \/ n + 16 <= a) ->
            load x m4 a = load x m3 a).
  { intros x a Ha1 Ha2 Ha3 Ha4. unfold m4.
    apply (Hadd m3 slotS (find_list_by_size s)); try assumption; try reflexivity.
    rewrite EhdS. exact GhdS. }
  assert (E4h : load 4 m4 (bp - 4) = s + 2).
  { rewrite F4 by (simpl Z.of_nat; lia).
    unfold m3. rewrite load_store_other by (simpl Z.of_nat; lia). exact E2. }
  assert (E4n : load 4 m4 (n - 4) = ns).
  { rewrite F4 by (simpl Z.of_nat; lia).
    unfold m3, m2. rewrite !load_store_other by (simpl Z.of_nat; lia).
    unfold m1. apply load4_store_same. lia. }
  assert (E4nx : load 8 m4 bp = hdS).
  { unfold m4. rewrite add_mem_next. exact EhdS. }
  assert (E4pv : load 8 m4 (bp + 8) = NULL).
  { unfold m4. apply add_mem_prev. rewrite EhdS.
    destruct BhdS as [?|(? & ? & ?)]; [left; assumption | right; lia]. }
  (* coalesce *)
  unfold bind at 1. unfold coalesce.
  rewrite !(HDRP_small bp) by lia.
  rewrite bind_GET_SIZE by solve_valid. heap_proj. fold m4.
  rewrite E4h, land_size_of by lia.
  rewrite bind_PREV_BLKP by (solve [lia | solve_valid]). heap_proj. fold m4.
  rewrite bind_NEXT_BLKP by (heap_proj; fold m4; rewrite ?E4h, ?land_size_of by lia;
                             solve [lia | solve_valid]).
  heap_proj. fold m4. rewrite E4h, land_size_of by lia. rewrite <- En.
  rewrite (HDRP_small n) by lia.
  rewrite bind_GET_SIZE by solve_valid. heap_proj. fold m4.
  rewrite E4n. replace (Z.land ns (2 ^ 32 - 8)) with ns
    by (symmetry; rewrite <- (Z.add_0_r ns) at 1; apply land_size_of; lia).
  rewrite bind_NEXT_BLKP by (heap_proj; fold m4; rewrite ?E4h, ?land_size_of by lia;
                             solve [lia | solve_valid]).
  heap_proj. fold m4. rewrite E4h, land_size_of by lia. rewrite <- En.
  rewrite (HDRP_small n) by lia.
  rewrite bind_GET_ALLOC by solve_valid. heap_proj. fold m4.
  rewrite E4n.
  assert (Ea0 : Z.land ns 1 = 0) by (rewrite land_alloc; zlia).
  rewrite Ea0.
  rewrite bind_GET_PREV_ALLOC by solve_valid. heap_proj. fold m4. rewrite E4h.
  assert (Ep2 : Z.land (s + 2) 2 = 2) by (rewrite land_prev_alloc; zlia).
  rewrite Ep2. change (Z.lor 2 0 =? 3) with false. change (Z.lor 2 0 =? 2) with true.
  cbv iota.
  (* the block leaves its list again *)
  unfold bind at 1.
  rewrite rem_free_blk_run; heap_proj; fold m4 slotS; rewrite ?E4nx, ?E4pv;
    [ | solve [ lia | left; reflexivity
              | destruct BhdS as [?|(? & ? & ?)]; [left; assumption | right; lia] ] .. ].
  set (m5 := rem_mem m4 slotS bp).
  assert (F5 : forall x a, bp - 4 <= a -> a + Z.of_nat x <= n + ns ->
            (a + Z.of_nat x <= n + 8 \/ n + 16 <= a) ->
            load x m5 a = load x m4 a).
  { intros x a Ha1 Ha2 Ha4. unfold m5.
    apply (Hrem m4 slotS (find_list_by_size s)); try assumption; try reflexivity.
    - rewrite E4nx. exact GhdS.
    - rewrite E4pv. left. reflexivity. }
  assert (E5nx : load 8 m5 n = nx2).
  { rewrite F5 by (simpl Z.of_nat; lia). rewrite F4 by (simpl Z.of_nat; lia).
    apply H3. lia. }
  (* the [prev] link of the successor: as before, or null if the successor
     headed the list of [bp] *)
  assert (E5pv : load 8 m5 (n + 8) = pv2 \/ load 8 m5 (n + 8) = NULL).
  { unfold m5, rem_mem. rewrite E4nx, E4pv. change (NULL =? NULL) with true.
    destruct (Z.eqb_spec hdS NULL) as [E0|E0]; cbn [andb negb].
    - left. rewrite load_store_other by (unfold slotS; simpl Z.of_nat; lia).
      unfold m4, add_mem. rewrite EhdS.
      destruct (Z.eqb_spec hdS NULL); [|contradiction].
      rewrite !load_store_other by (unfold slotS; simpl Z.of_nat; lia).
      apply H3. lia.
    - destruct (Z.eq_dec hdS n) as [E1'|E1'].
      + right. rewrite E1'. rewrite load_store_same. reflexivity.
      + left. destruct BhdS as [?|(? & ? & ?)]; [contradiction|].
        assert (hdS + 16 <= bp - 4 \/ n + ns <= hdS).
        { destruct GhdS as [?|[?|(? & ? & ?)]]; [contradiction | contradiction | lia]. }
        rewrite !load_store_other by (unfold slotS; simpl Z.of_nat; lia).
        unfold m4, add_mem. rewrite EhdS.
        destruct (Z.eqb_spec hdS NULL); [contradiction|].
        rewrite !load_store_other by (unfold slotS; simpl Z.of_nat; lia).
        apply H3. lia. }
  set (pv2' := load 8 m5 (n + 8)) in *.
  assert (Gpv : node_ok h pv2' (bp - 4) (n + ns)).
  { destruct E5pv as [->| ->]; [exact Hpv2 | left; reflexivity]. }
  pose proof (load8_range m5 (n + 8)) as Rpv2'. fold pv2' in Rpv2'.
  unfold bind at 1.
  set (slotN := heap_ptr h + find_list_by_size ns).
  rewrite rem_free_blk_run; heap_proj; fold m4 m5 slotN; rewrite ?E5nx; fold pv2';
    [ | solve [ lia
              | destruct Hnx2 as [?|(? & ? & ?)]; [left; assumption | right; lia]
              | destruct Gpv as [?|(? & ? & ?)]; [left; assumption | right; lia] ] .. ].
  set (m6 := rem_mem m5 slotN n).
  assert (F6 : forall x a, bp - 4 <= a -> a + Z.of_nat x <= n + ns ->
            (a + Z.of_nat x <= n + 8 \/ n + 16 <= a) ->
            load x m6 a = load x m5 a).
  { intros x a Ha1 Ha2 Ha4. unfold m6.
    apply (Hrem m5 slotN (find_list_by_size ns)); try assumption; try reflexivity.
    rewrite E5nx. right. exact Hnx2. }
  unfold wrap64. rewrite (Z.mod_small (s + ns)) by lia.
  unfold PACK. rewrite (lor_flags (s + ns) 2) by lia.
  rewrite bind_PUT_4 by solve_valid. heap_proj. fold m4 m5 m6.
  set (m7 := store 4 m6 (bp - 4) (s + ns + 2)).
  assert (E7 : load 4 m7 (bp - 4) = s + ns + 2) by (apply load4_store_same; lia).
  rewrite bind_FTRP by (heap_proj; fold m4 m5 m6 m7; rewrite ?E7, ?land_size_of by lia;
                        solve [lia | solve_valid]).
  heap_proj. fold m4 m5 m6 m7. rewrite E7, land_size_of by lia.
  rewrite bind_PUT_4 by solve_valid. heap_proj. fold m4 m5 m6 m7.
  set (m8 := store 4 m7 (bp + (s + ns) - 8) (s + ns + 2)).
  (* the head of the list of the merged size *)
  assert (GhdT : good (load 8 m8 slotT)).
  { unfold m8, m7.
    rewrite !load_store_other by (unfold slotT; simpl Z.of_nat; lia).
    unfold m6, slotN, slotT.
    destruct (rem_mem_head m5 (heap_ptr h) ns (s + ns) n) as [[E _]|[E|E]];
      rewrite ?E5nx; fold pv2'.
    - destruct Hnx2 as [?|(? & ? & ?)]; [left; assumption | right; lia].
    - destruct Gpv as [?|(? & ? & ?)]; [left; assumption | right; lia].
    - rewrite E. unfold m5, slotS.
      destruct (rem_mem_head m4 (heap_ptr h) s (s + ns) bp) as [[E' Hd]|[E'|E']];
        rewrite ?E4nx, ?E4pv.
      + destruct BhdS as [?|(? & ? & ?)]; [left; assumption | right; lia].
      + left. reflexivity.
      + rewrite E'. rewrite E4pv in Hd.
        destruct Hd as [Hd|Hd]; [|contradiction].
        assert (Hss : slotS + 8 <= slotT \/ slotT + 8 <= slotS).
        { destruct (find_list_by_size_slot s) as (k1 & Hk1 & Ek1).
          destruct (find_list_by_size_slot (s + ns)) as (k2 & Hk2 & Ek2).
          unfold slotS, slotT. lia. }
        assert (ET : load 8 m4 slotT = hT).
        { unfold m4, add_mem. rewrite EhdS.
          destruct (Z.eqb_spec hdS NULL).
          - rewrite !load_store_other by (unfold slotT; simpl Z.of_nat; lia).
            apply H3. unfold slotT; simpl Z.of_nat; lia.
          - destruct BhdS as [?|(? & ? & ?)]; [contradiction|].
            rewrite !load_store_other by (unfold slotT; simpl Z.of_nat; lia).
            apply H3. unfold slotT; simpl Z.of_nat; lia. }
        fold slotT. rewrite ET.
        destruct HhT as [?|?]; [left | right]; assumption.
      + rewrite E'. rewrite E4nx. exact GhdS.
      + rewrite E'. exact Gnull.
    - rewrite E. rewrite E5nx. right. exact Hnx2.
    - rewrite E. exact Gnull. }
  set (hdT := load 8 m8 slotT) in *.
  pose proof (load8_range m8 slotT) as RhdT. fold hdT in RhdT.
  pose proof (Gb _ GhdT) as BhdT.
  unfold bind at 1.
  rewrite add_free_blk_run; heap_proj; fold m4 m5 m6 m7 m8 slotT; fold hdT;
    [ | solve [ lia | destruct BhdT as [?|(? & ? & ?)];
                      [left; assumption | right; lia] ] .. ].
  assert (EM : M' = add_mem m8 slotT bp) by reflexivity.
  rewrite EM. split; [reflexivity|].
  assert (F9 : forall x a, bp - 4 <= a -> a + Z.of_nat x <= n + ns ->
            (a + Z.of_nat x <= bp \/ bp + 16 <= a) ->
            (a + Z.of_nat x <= n + 8 \/ n + 16 <= a) ->
            load x (add_mem m8 slotT bp) a = load x m8 a).
  { intros x a Ha1 Ha2 Ha3 Ha4.
    apply (Hadd m8 slotT (find_list_by_size (s + ns))); try assumption; reflexivity. }
  conjs.
  - rewrite F9 by (simpl Z.of_nat; lia).
    unfold m8. rewrite load_store_other by (simpl Z.of_nat; lia).
    exact E7.
  - rewrite F9 by (simpl Z.of_nat; lia).
    unfold m8. replace (n + ns - 8) with (bp + (s + ns) - 8) by lia.
    apply load4_store_same. lia.
  - rewrite F9 by (simpl Z.of_nat; lia).
    unfold m8, m7. rewrite !load_store_other by (simpl Z.of_nat; lia).
    rewrite F6, F5, F4 by (simpl Z.of_nat; lia).
    apply H3. lia.
  - apply add_mem_head; [lia | unfold slotT; lia |].
    fold hdT. destruct BhdT as [?|(? & ? & ?)];
                [left; assumption | right; unfold slotT; lia].
  - apply add_mem_prev.
    fold hdT. destruct BhdT as [?|(? & ? & ?)];
                [left; assumption | right; lia].
Qed.

(** X12.  [free] of a block [bp] whose predecessor is allocated and
    whose successor [n] is free, on a heap with the well-formed free lists
    [L]: header and footer of the merged block record the sum of the two
    sizes with P = 1 and A = 0; the header behind the successor is as
    before; the successor leaves its list and the merged block is put in
    front of the list of the summed size, that is, the lists afterwards are
    [L] without [n] and with [bp] pushed on list [get_index (s + ns)]; and
    no byte outside the two blocks, the table of slots and the link fields
    of the listed nodes changes.  The successor is a node of the list of
    its size, and the other nodes lie outside the two blocks. *)
Theorem free_merges_with_next h L bp :
  let hdr := load 4 (contents h) (bp - 4) in
  let s := Z.land hdr (2 ^ 32 - 8) in
  let n := bp + s in
  let nhdr := load 4 (contents h) (n - 4) in
  let ns := Z.land nhdr (2 ^ 32 - 8) in
  mem_brk h < 2 ^ 64 ->
  0 <= mem_start_brk h <= heap_ptr h ->
  heap_ptr h + 96 <= bp - 8 ->
  MIN_BLOCK_SIZE <= s -> MIN_BLOCK_SIZE <= ns -> s + ns < 2 ^ 32 ->
  n + ns <= mem_brk h ->
  Z.land hdr 2 = 2 -> Z.land nhdr 1 = 0 ->
  free_lists h L ->
  In n (L (get_index ns)) ->
  (forall i x, 0 <= i < 12 -> In x (L i) ->
     x = n \/ x + 16 <= bp - 4 \/ n + ns <= x) ->
  exists m',
    free bp h = Ok tt (set_contents h m') /\
    load 4 m' (bp - 4) = s + ns + 2 /\
    load 4 m' (n + ns - 8) = s + ns + 2 /\
    load 4 m' (n + ns - 4) = load 4 (contents h) (n + ns - 4) /\
    free_lists (set_contents h m') (push (get_index (s + ns)) bp (drop n L)) /\
    (forall k a,
       (a + Z.of_nat k <= bp - 4 \/ n + ns <= a) ->
       (a + Z.of_nat k <= heap_ptr h \/ heap_ptr h + 96 <= a) ->
       (forall i x, 0 <= i < 12 -> In x (L i) -> a + Z.of_nat k <= x \/ x + 16 <= a) ->
       load k m' a = load k (contents h) a).
Proof.
  intros hdr s n nhdr ns Hbrk Hlo Hbp Hs Hns H32 Hend Hp Ha HL Hin Hsep.
  assert (En : n = bp + s) by reflexivity.
  clearbody n.
  pose proof (get_index_range s) as HcS.
  pose proof (get_index_range ns) as HcN.
  pose proof (get_index_range (s + ns)) as HcT.
  set (cS := get_index s) in *.
  set (cN := get_index ns) in *.
  set (cT := get_index (s + ns)) in *.
  assert (HcS' : 0 <= cS < 12) by lia.
  assert (HcN' : 0 <= cN < 12) by lia.
  assert (HcT' : 0 <= cT < 12) by lia.
  unfold MIN_BLOCK_SIZE in Hs, Hns.
  assert (Hsr : 0 <= s < 2 ^ 32) by (unfold s; rewrite land_size_mask; zlia).
  assert (Hnsr : 0 <= ns < 2 ^ 32) by (unfold ns; rewrite land_size_mask; zlia).
  (* the nodes other than the successor lie outside the two blocks *)
  assert (Hout : forall i x, 0 <= i < 12 -> In x (L i) -> x <> n ->
            node_ok h x (bp - 4) (n + ns)).
  { intros i x Hi Hx Hne. right. destruct (fl_node h L HL i x Hi Hx).
    destruct (Hsep i x Hi Hx) as [?|?]; [contradiction|]. conjs; assumption. }
  assert (Hhead : forall c, 0 <= c < 12 ->
            load 8 (contents h) (heap_ptr h + 8 * c) = n \/
            node_ok h (load 8 (contents h) (heap_ptr h + 8 * c)) (bp - 4) (n + ns)).
  { intros c Hc. destruct (fl_head h L HL c Hc) as [[? _]|(_ & Hi & _)];
      [right; left; assumption|].
    destruct (Z.eq_dec (load 8 (contents h) (heap_ptr h + 8 * c)) n) as [?|Hne];
      [left; assumption | right; exact (Hout c _ Hc Hi Hne)]. }
  destruct (fl_split h L Hlo HL cN n HcN' Hin)
    as (l1 & l2 & E & N1 & N2 & _ & _ & Hpv & Hnx & _).
  assert (Gnx : node_ok h (load 8 (contents h) n) (bp - 4) (n + ns)).
  { destruct Hnx as [[_ ?]|(_ & l2' & E2)]; [left; assumption|].
    apply (Hout cN); [exact HcN' | |].
    - rewrite E, E2. apply in_or_app. right. right. left. reflexivity.
    - intros Heq. apply N2. rewrite E2. left. exact Heq. }
  assert (Gpv : node_ok h (load 8 (contents h) (n + 8)) (bp - 4) (n + ns)).
  { destruct Hpv as [[_ ?]|(_ & _ & Hi1)]; [left; assumption|].
    apply (Hout cN); [exact HcN' | |].
    - rewrite E. apply in_or_app. left. exact Hi1.
    - intros Heq. apply N1. rewrite <- Heq at 1. exact Hi1. }
  pose proof (free_merges_next_run h bp) as R. cbv zeta in R.
  fold hdr s in R. rewrite <- En in R. fold nhdr ns in R.
  rewrite !slot_of_size in R. fold cS cN cT in R.
  specialize (R Hbrk Hlo Hbp Hs Hns H32 Hend Hp Ha (Hhead cS HcS') (Hhead cT HcT')
                Gnx Gpv).
  destruct R as (Hrun & H1 & H2 & H3 & _ & _).
  set (m1 := store 4 (contents h) (n - 4) ns) in *.
  set (m2 := store 4 m1 (bp - 4) (s + 2)) in *.
  set (m3 := store 4 m2 (n - 8) (s + 2)) in *.
  set (m4 := add_mem m3 (heap_ptr h + 8 * cS) bp) in *.
  set (m5 := rem_mem m4 (heap_ptr h + 8 * cS) bp) in *.
  set (m6 := rem_mem m5 (heap_ptr h + 8 * cN) n) in *.
  set (m7 := store 4 m6 (bp - 4) (s + ns + 2)) in *.
  set (m8 := store 4 m7 (bp + (s + ns) - 8) (s + ns + 2)) in *.
  set (m9 := add_mem m8 (heap_ptr h + 8 * cT) bp) in *.
  exists m9. split; [exact Hrun|]. split; [exact H1|]. split; [exact H2|].
  split; [exact H3|].
  (* the lists, step by step *)
  assert (Hnot : forall j, 0 <= j < 12 -> ~ In bp (L j)).
  { intros j Hj Hi. pose proof (Hsep j bp Hj Hi). lia. }
  assert (Hrest : forall i x, 0 <= i < 12 -> In x (drop n L i) ->
            x + 16 <= bp - 4 \/ n + ns <= x).
  { intros i x Hi Hx. apply in_drop in Hx. destruct Hx as [Hx Hne].
    destruct (Hsep i x Hi Hx) as [?|?]; [contradiction | assumption]. }
  assert (FL1 : free_lists (set_contents h m1) L).
  { apply free_lists_store4; [exact HL | lia |].
    intros i x Hi Hx. pose proof (Hsep i x Hi Hx). lia. }
  assert (FL2 : free_lists (set_contents h m2) L).
  { apply (free_lists_store4 (set_contents h m1)); [exact FL1 | heap_proj; lia |].
    intros i x Hi Hx. pose proof (Hsep i x Hi Hx). lia. }
  assert (FL3 : free_lists (set_contents h m3) L).
  { apply (free_lists_store4 (set_contents h m2)); [exact FL2 | heap_proj; lia |].
    intros i x Hi Hx. pose proof (Hsep i x Hi Hx). lia. }
  assert (FL4 : free_lists (set_contents h m4) (push cS bp L)).
  { apply (add_mem_lists (set_contents h m3)); heap_proj; try assumption; try lia.
    intros i x Hi Hx. pose proof (Hsep i x Hi Hx). lia. }
  assert (Hbp4 : In bp (push cS bp L cS)).
  { unfold push. rewrite Z.eqb_refl. left. reflexivity. }
  assert (FL5 : free_lists (set_contents h m5) L).
  { apply (free_lists_ext _ (drop bp (push cS bp L))).
    - intros i Hi. apply drop_push_same; assumption.
    - apply (rem_mem_lists (set_contents h m4)); heap_proj; assumption. }
  assert (FL6 : free_lists (set_contents h m6) (drop n L)).
  { apply (rem_mem_lists (set_contents h m5)); heap_proj; assumption. }
  assert (FL7 : free_lists (set_contents h m7) (drop n L)).
  { apply (free_lists_store4 (set_contents h m6)); [exact FL6 | heap_proj; lia |].
    intros i x Hi Hx. pose proof (Hrest i x Hi Hx). lia. }
  assert (FL8 : free_lists (set_contents h m8) (drop n L)).
  { apply (free_lists_store4 (set_contents h m7)); [exact FL7 | heap_proj; lia |].
    intros i x Hi Hx. pose proof (Hrest i x Hi Hx). lia. }
  split.
  - apply (add_mem_lists (set_contents h m8)); heap_proj; try assumption; try lia.
    intros i x Hi Hx. pose proof (Hrest i x Hi Hx). lia.
  - intros k a Ha1 Ha2 Ha3.
    unfold m9.
    rewrite (add_mem_away (set_contents h m8) (drop n L) FL8); heap_proj;
      try assumption; try lia.
    2:{ intros i x Hi Hx. apply in_drop in Hx. exact (Ha3 i x Hi (proj1 Hx)). }
    unfold m8, m7. rewrite !load_store_other by lia.
    unfold m6.
    rewrite (rem_mem_away (set_contents h m5) L Hlo FL5); heap_proj;
      try assumption.
    2:{ intros i x Hi Hx _. exact (Ha3 i x Hi Hx). }
    unfold m5.
    rewrite (rem_mem_away (set_contents h m4) (push cS bp L) Hlo FL4); heap_proj;
      try assumption.
    2:{ intros i x Hi Hx Hne. apply (Ha3 i x Hi). unfold push in Hx.
        destruct (i =? cS); [destruct Hx as [?|Hx]; [congruence | exact Hx] | exact Hx]. }
    unfold m4.
    rewrite (add_mem_away (set_contents h m3) L FL3); heap_proj;
      try assumption; try lia.
    unfold m3, m2, m1. rewrite !load_store_other by lia. reflexivity.
Qed.

(** The head of a list after [rem_free_blk]: the successor of the removed
    block if that block had no predecessor and the list is its own, and
    the old head otherwise. *)
Lemma rem_mem_slot m hp s1 s2 q :
  let nx := load 8 m q in
  let pv := load 8 m (q + 8) in
  (nx = NULL \/ hp + 96 <= nx) -> (pv = NULL \/ hp + 96 <= pv) ->
  load 8 (rem_mem m (hp + find_list_by_size s1) q) (hp + find_list_by_size s2) =
  if (find_list_by_size s1 =? find_list_by_size s2) && (pv =? NULL) then nx
  else load 8 m (hp + find_list_by_size s2).
Proof.
  intros nx pv Hn Hp.
  destruct (find_list_by_size_slot s1) as (k1 & Hk1 & E1).
  destruct (find_list_by_size_slot s2) as (k2 & Hk2 & E2).
  pose proof (load8_range m q) as Hr. fold nx in Hr.
  unfold rem_mem. fold nx pv.
  destruct (Z.eqb_spec (find_list_by_size s1) (find_list_by_size s2)) as [Ek|Ek];
    destruct (Z.eqb_spec pv NULL) as [Ev|Ev];
    destruct (Z.eqb_spec nx NULL) as [Ex|Ex]; cbn [andb negb];
    rewrite ?Ek;
    try (destruct Hn as [?|?]; [contradiction|]);
    try (destruct Hp as [?|?]; [contradiction|]).
  - rewrite load_store_same, Ex. reflexivity.
  - rewrite load_store_other by (simpl Z.of_nat; lia).
    rewrite load_store_same. apply Z.mod_small. exact Hr.
  - rewrite load_store_other by (simpl Z.of_nat; lia). reflexivity.
  - rewrite !load_store_other by (simpl Z.of_nat; lia). reflexivity.
  - rewrite load_store_other by (simpl Z.of_nat; lia). reflexivity.
  - rewrite !load_store_other by (simpl Z.of_nat; lia). reflexivity.
  - rewrite load_store_other by (simpl Z.of_nat; lia). reflexivity.
  - rewrite !load_store_other by (simpl Z.of_nat; lia). reflexivity.
Qed.

(** The memory that [free] leaves when the predecessor [p] of the block is
    free and its successor is allocated, write by write.  The list
    neighbours of [p] are null or nodes outside the two blocks; so are the
    heads of the two lists involved, unless [p] itself heads the list of
    its own size. *)
Lemma free_merges_prev_run h bp :
  let hdr := load 4 (contents h) (bp - 4) in
  let s := Z.land hdr (2 ^ 32 - 8) in
  let ps := Z.land (load 4 (contents h) (bp - 8)) (2 ^ 32 - 8) in
  let p := bp - ps in
  let phdr := load 4 (contents h) (p - 4) in
  let n := bp + s in
  let nhdr := load 4 (contents h) (n - 4) in
  let slotS := heap_ptr h + find_list_by_size s in
  let slotT := heap_ptr h + find_list_by_size (s + ps) in
  let m1 := store 4 (contents h) (n - 4) (Z.land nhdr (2 ^ 32 - 8) + 1) in
  let m2 := store 4 m1 (bp - 4) s in
  let m3 := store 4 m2 (bp + s - 8) s in
  let m4 := add_mem m3 slotS bp in
  let m5 := rem_mem m4 slotS bp in
  let m6 := rem_mem m5 (heap_ptr h + find_list_by_size ps) p in
  let m7 := store 4 m6 (p - 4) (s + ps + Z.land phdr 2) in
  let m8 := store 4 m7 (p + (s + ps) - 8) (s + ps + Z.land phdr 2) in
  let m' := add_mem m8 slotT p in
  mem_brk h < 2 ^ 64 ->
  0 <= mem_start_brk h <= heap_ptr h ->
  heap_ptr h + 96 <= p - 4 ->
  MIN_BLOCK_SIZE <= s -> MIN_BLOCK_SIZE <= ps -> s + ps < 2 ^ 32 ->
  n <= mem_brk h ->
  Z.land hdr 2 = 0 -> Z.land phdr (2 ^ 32 - 8) = ps -> Z.land nhdr 1 = 1 ->
  ((load 8 (contents h) slotS = p /\
    find_list_by_size s = find_list_by_size ps) \/
   node_ok h (load 8 (contents h) slotS) (p - 4) n) ->
  ((load 8 (contents h) slotT = p /\
    find_list_by_size (s + ps) = find_list_by_size ps /\
    load 8 (contents h) (p + 8) = NULL) \/
   node_ok h (load 8 (contents h) slotT) (p - 4) n) ->
  node_ok h (load 8 (contents h) p) (p - 4) n ->
  node_ok h (load 8 (contents h) (p + 8)) (p - 4) n ->
  free bp h = Ok tt (set_contents h m') /\
  load 4 m' (p - 4) = s + ps + Z.land phdr 2 /\
  load 4 m' (n - 8) = s + ps + Z.land phdr 2 /\
  load 4 m' (n - 4) = Z.land nhdr (2 ^ 32 - 8) + 1 /\
  load 8 m' slotT = p /\
  load 8 m' (p + 8) = NULL.
Proof.
  intros hdr s ps p phdr n nhdr slotS slotT M1 M2 M3 M4 M5 M6 M7 M8 M' Hbrk Hlo Hbp Hs Hps H32 Hend Hp Hph Ha
    HhdS HhT Hnxp Hpvp.
  unfold MIN_BLOCK_SIZE in *.
  assert (En : n = bp + s) by reflexivity.
  assert (Ep : p = bp - ps) by reflexivity.
  clearbody n p.
  set (hdS := load 8 (contents h) slotS) in *.
  set (hT := load 8 (contents h) slotT) in *.
  set (nxp := load 8 (contents h) p) in *.
  set (pvp := load 8 (contents h) (p + 8)) in *.
  set (s1 := Z.land nhdr (2 ^ 32 - 8)).
  set (ppa := Z.land phdr 2).
  pose proof (load4_range (contents h) (bp - 4)) as Hhr. fold hdr in Hhr.
  pose proof (load4_range (contents h) (n - 4)) as Hnr. fold nhdr in Hnr.
  pose proof (load4_range (contents h) (p - 4)) as Hpr. fold phdr in Hpr.
  pose proof (load4_range (contents h) (bp - 8)) as Hfr.
  assert (Hsr : 0 <= s < 2 ^ 32 /\ s mod 8 = 0)
    by (unfold s; rewrite land_size_mask; zlia).
  assert (Hpsr : 0 <= ps < 2 ^ 32 /\ ps mod 8 = 0)
    by (unfold ps; rewrite land_size_mask; zlia).
  assert (Hs1r : 0 <= s1 < 2 ^ 32 /\ s1 mod 8 = 0)
    by (unfold s1; rewrite land_size_mask; zlia).
  assert (Hppa : ppa = 0 \/ ppa = 2) by (unfold ppa; rewrite land_prev_alloc; zlia).
  assert (Hs7 : s + 7 < 2 ^ 32) by (change (2 ^ 32) with 4294967296 in *; zlia).
  assert (H17 : s1 + 7 < 2 ^ 32) by (change (2 ^ 32) with 4294967296 in *; zlia).
  assert (Ht7 : s + ps + 7 < 2 ^ 32) by (change (2 ^ 32) with 4294967296 in *; zlia).
  assert (Hts : (s + ps) mod 8 = 0) by zlia.
  pose proof (find_list_by_size_range s) as HkS.
  pose proof (find_list_by_size_range ps) as HkP.
  pose proof (find_list_by_size_range (s + ps)) as HkT.
  pose proof (load8_range (contents h) slotS) as RhdS. fold hdS in RhdS.
  pose proof (load8_range (contents h) p) as Rnxp. fold nxp in Rnxp.
  pose proof (load8_range (contents h) (p + 8)) as Rpvp. fold pvp in Rpvp.
  (* a list head: the predecessor itself, null, or a node outside the two
     blocks *)
  set (good := fun x => x = p \/ node_ok h x (p - 4) n).
  assert (Gnull : good NULL) by (right; left; reflexivity).
  assert (Gb : forall x, good x ->
            x = NULL \/ (heap_ptr h + 96 <= x /\ x + 16 <= mem_brk h /\
                         (x + 16 <= p - 4 \/ n <= x \/ x = p))).
  { intros x [->|[?|(? & ? & ?)]]; [right; lia | left; assumption | right; lia]. }
  (* the list operations leave the two blocks alone, but for the link
     fields of the inserted block and the [prev] link of the predecessor *)
  assert (Hadd : forall m slot k q x a, good (load 8 m slot) ->
            slot = heap_ptr h + k -> 0 <= k <= 88 ->
            p - 4 <= a -> a + Z.of_nat x <= n ->
            (a + Z.of_nat x <= q \/ q + 16 <= a) ->
            (a + Z.of_nat x <= p + 8 \/ p + 16 <= a) ->
            load x (add_mem m slot q) a = load x m a).
  { intros m slot k q x a Hg -> Hk Ha1 Ha2 Ha3 Ha4. apply load_add_mem_other.
    - lia.
    - exact Ha3.
    - destruct Hg as [->|[?|(? & ? & ?)]]; [right; lia | left; assumption | right; lia]. }
  assert (Hrem : forall m slot k q x a,
            good (load 8 m q) -> node_ok h (load 8 m (q + 8)) (p - 4) n ->
            slot = heap_ptr h + k -> 0 <= k <= 88 ->
            p - 4 <= a -> a + Z.of_nat x <= n ->
            (a + Z.of_nat x <= p + 8 \/ p + 16 <= a) ->
            load x (rem_mem m slot q) a = load x m a).
  { intros m slot k q x a Hg1 Hg2 -> Hk Ha1 Ha2 Ha4. apply load_rem_mem_other.
    - lia.
    - destruct Hg1 as [->|[?|(? & ? & ?)]]; [right; lia | left; assumption | right; lia].
    - destruct Hg2 as [?|(? & ? & ?)]; [left; assumption | right; lia]. }
  unfold free.
  destruct (Z.eqb_spec bp NULL) as [E|_]; [unfold NULL in E; lia|].
  rewrite bind_NEXT_BLKP by (fold hdr s; solve [lia | solve_valid]).
  fold hdr s. rewrite <- En.
  rewrite !(HDRP_small bp) by lia.
  rewrite (HDRP_small n) by lia.
  rewrite bind_GET_SIZE by solve_valid. fold hdr s.
  rewrite bind_GET_SIZE by solve_valid. fold nhdr s1.
  rewrite bind_GET_ALLOC by solve_valid. fold nhdr. rewrite Ha.
  rewrite Z.lor_0_r. rewrite (lor_flags s1 1) by lia.
  rewrite bind_PUT_4 by solve_valid. heap_proj.
  set (m1 := store 4 (contents h) (n - 4) (s1 + 1)).
  assert (E1 : load 4 m1 (bp - 4) = hdr).
  { unfold m1. rewrite load_store_other by (simpl Z.of_nat; lia). reflexivity. }
  rewrite bind_GET_PREV_ALLOC by solve_valid. heap_proj. rewrite E1, Hp.
  rewrite !Z.lor_0_r.
  rewrite bind_PUT_4 by solve_valid. heap_proj.
  set (m2 := store 4 m1 (bp - 4) s).
  assert (E2 : load 4 m2 (bp - 4) = s) by (apply load4_store_same; lia).
  assert (Ls : Z.land s (2 ^ 32 - 8) = s)
    by (rewrite <- (Z.add_0_r s) at 1; apply land_size_of; lia).
  rewrite bind_FTRP by (heap_proj; rewrite ?E2, ?Ls; solve [lia | solve_valid]).
  heap_proj. rewrite E2, Ls.
  rewrite bind_GET_4 by solve_valid. heap_proj. rewrite E2.
  rewrite bind_PUT_4 by solve_valid. heap_proj.
  set (m3 := store 4 m2 (bp + s - 8) s).
  (* the three stores change nothing below the header of [bp] *)
  assert (H3 : forall x a, a + Z.of_nat x <= bp - 4 \/ n <= a ->
            load x m3 a = load x (contents h) a).
  { intros x a Hx. unfold m3, m2, m1.
    rewrite !load_store_other by (simpl Z.of_nat; lia). reflexivity. }
  assert (EhdS : load 8 m3 slotS = hdS) by (apply H3; unfold slotS; simpl Z.of_nat; lia).
  assert (GhdS : good hdS).
  { destruct HhdS as [[? _]|?]; [left | right]; assumption. }
  pose proof (Gb _ GhdS) as BhdS.
  unfold bind at 1.
  rewrite add_free_blk_run; heap_proj; fold slotS; rewrite ?EhdS;
    [ | solve [ lia | destruct BhdS as [?|(? & ? & ?)];
                      [left; assumption | right; lia] ] .. ].
  set (m4 := add_mem m3 slotS bp).
  assert (F4 : forall x a, p - 4 <= a -> a + Z.of_nat x <= n ->
            (a + Z.of_nat x <= bp \/ bp + 16 <= a) ->
            (a + Z.of_nat x <= p + 8 \/ p + 16 <= a) ->
            load x m4 a = load x m3 a).
  { intros x a Ha1 Ha2 Ha3 Ha4. unfold m4.
    apply (Hadd m3 slotS (find_list_by_size s)); try assumption; try reflexivity.
    rewrite EhdS. exact GhdS. }
  assert (E4h : load 4 m4 (bp - 4) = s).
  { rewrite F4 by (simpl Z.of_nat; lia).
    unfold m3. rewrite load_store_other by (simpl Z.of_nat; lia). exact E2. }
  assert (E4n : load 4 m4 (n - 4) = s1 + 1).
  { rewrite F4 by (simpl Z.of_nat; lia).
    unfold m3, m2. rewrite !load_store_other by (simpl Z.of_nat; lia).
    unfold m1. apply load4_store_same. lia. }
  assert (E4f : load 4 m4 (bp - 8) = load 4 (contents h) (bp - 8)).
  { rewrite F4 by (simpl Z.of_nat; lia). apply H3. simpl Z.of_nat. lia. }
  assert (E4p : load 4 m4 (p - 4) = phdr).
  { rewrite F4 by (simpl Z.of_nat; lia). apply H3. simpl Z.of_nat. lia. }
  assert (E4nx : load 8 m4 bp = hdS).
  { unfold m4. rewrite add_mem_next. exact EhdS. }
  assert (E4pv : load 8 m4 (bp + 8) = NULL).
  { unfold m4. apply add_mem_prev. rewrite EhdS.
    destruct BhdS as [?|(? & ? & ?)]; [left; assumption | right; lia]. }
  (* coalesce *)
  unfold bind at 1. unfold coalesce.
  rewrite !(HDRP_small bp) by lia.
  rewrite bind_GET_SIZE by solve_valid. heap_proj. fold m4.
  rewrite E4h, Ls.
  rewrite bind_PREV_BLKP by (solve [lia | solve_valid]). heap_proj. fold m4.
  rewrite E4f. fold ps.
  rewrite (padd_small bp (- ps)) by lia.
  replace (bp + - ps) with p by lia.
  rewrite (HDRP_small p) by lia.
  rewrite bind_NEXT_BLKP by (heap_proj; fold m4; rewrite ?E4h, ?Ls;
                             solve [lia | solve_valid]).
  heap_proj. fold m4. rewrite E4h, Ls. rewrite <- En.
  rewrite (HDRP_small n) by lia.
  rewrite bind_GET_SIZE by solve_valid. heap_proj. fold m4.
  rewrite E4n.
  rewrite bind_NEXT_BLKP by (heap_proj; fold m4; rewrite ?E4h, ?Ls;
                             solve [lia | solve_valid]).
  heap_proj. fold m4. rewrite E4h, Ls. rewrite <- En.
  rewrite (HDRP_small n) by lia.
  rewrite bind_GET_ALLOC by solve_valid. heap_proj. fold m4.
  rewrite E4n.
  assert (Ea1 : Z.land (s1 + 1) 1 = 1) by (rewrite land_alloc; zlia).
  rewrite Ea1.
  rewrite bind_GET_PREV_ALLOC by solve_valid. heap_proj. fold m4. rewrite E4h.
  assert (Ep0 : Z.land s 2 = 0) by (rewrite land_prev_alloc; zlia).
  rewrite Ep0. change (Z.lor 0 1 =? 3) with false. change (Z.lor 0 1 =? 2) with false.
  change (Z.lor 0 1 =? 1) with true. cbv iota.
  rewrite bind_GET_SIZE by solve_valid. heap_proj. fold m4. rewrite E4p, Hph.
  (* the block leaves its list again *)
  unfold bind at 1.
  rewrite rem_free_blk_run; heap_proj; fold m4 slotS; rewrite ?E4nx, ?E4pv;
    [ | solve [ lia | left; reflexivity
              | destruct BhdS as [?|(? & ? & ?)]; [left; assumption | right; lia] ] .. ].
  set (m5 := rem_mem m4 slotS bp).
  assert (F5 : forall x a, p - 4 <= a -> a + Z.of_nat x <= n ->
            (a + Z.of_nat x <= p + 8 \/ p + 16 <= a) ->
            load x m5 a = load x m4 a).
  { intros x a Ha1 Ha2 Ha4. unfold m5.
    apply (Hrem m4 slotS (find_list_by_size s)); try assumption; try reflexivity.
    - rewrite E4nx. exact GhdS.
    - rewrite E4pv. left. reflexivity. }
  assert (E5nx : load 8 m5 p = nxp).
  { rewrite F5 by (simpl Z.of_nat; lia). rewrite F4 by (simpl Z.of_nat; lia).
    apply H3. simpl Z.of_nat. lia. }
  (* the [prev] link of the predecessor: as before, or null if the
     predecessor headed the list of [bp] *)
  assert (E5pv : (hdS = p /\ load 8 m5 (p + 8) = NULL) \/
                 (hdS <> p /\ load 8 m5 (p + 8) = pvp)).
  { unfold m5, rem_mem. rewrite E4nx, E4pv. change (NULL =? NULL) with true.
    destruct (Z.eqb_spec hdS NULL) as [E0|E0]; cbn [andb negb].
    - right. split; [rewrite E0; unfold NULL; lia|].
      rewrite load_store_other by (unfold slotS; simpl Z.of_nat; lia).
      unfold m4, add_mem. rewrite EhdS.
      destruct (Z.eqb_spec hdS NULL); [|contradiction].
      rewrite !load_store_other by (unfold slotS; simpl Z.of_nat; lia).
      apply H3. simpl Z.of_nat. lia.
    - destruct (Z.eq_dec hdS p) as [E1'|E1'].
      + left. split; [exact E1'|]. rewrite E1'. rewrite load_store_same. reflexivity.
      + right. split; [exact E1'|].
        destruct BhdS as [?|(? & ? & ?)]; [contradiction|].
        assert (hdS + 16 <= p - 4 \/ n <= hdS) by lia.
        rewrite !load_store_other by (unfold slotS; simpl Z.of_nat; lia).
        unfold m4, add_mem. rewrite EhdS.
        destruct (Z.eqb_spec hdS NULL); [contradiction|].
        rewrite !load_store_other by (unfold slotS; simpl Z.of_nat; lia).
        apply H3. simpl Z.of_nat. lia. }
  set (pvp' := load 8 m5 (p + 8)) in *.
  assert (Gpv : node_ok h pvp' (p - 4) n).
  { destruct E5pv as [[_ ->]|[_ ->]]; [left; reflexivity | exact Hpvp]. }
  pose proof (load8_range m5 (p + 8)) as Rpvp'. fold pvp' in Rpvp'.
  unfold bind at 1.
  set (slotP := heap_ptr h + find_list_by_size ps).
  rewrite rem_free_blk_run; heap_proj; fold m4 m5 slotP; rewrite ?E5nx; fold pvp';
    [ | solve [ lia
              | destruct Hnxp as [?|(? & ? & ?)]; [left; assumption | right; lia]
              | destruct Gpv as [?|(? & ? & ?)]; [left; assumption | right; lia] ] .. ].
  set (m6 := rem_mem m5 slotP p).
  assert (F6 : forall x a, p - 4 <= a -> a + Z.of_nat x <= n ->
            (a + Z.of_nat x <= p + 8 \/ p + 16 <= a) ->
            load x m6 a = load x m5 a).
  { intros x a Ha1 Ha2 Ha4. unfold m6.
    apply (Hrem m5 slotP (find_list_by_size ps)); try assumption; try reflexivity.
    rewrite E5nx. right. exact Hnxp. }
  unfold wrap64. rewrite (Z.mod_small (s + ps)) by lia.
  assert (E6p : load 4 m6 (p - 4) = phdr).
  { rewrite F6, F5 by (simpl Z.of_nat; lia). exact E4p. }
  rewrite bind_GET_PREV_ALLOC by solve_valid. heap_proj. fold m4 m5 m6.
  rewrite E6p. fold ppa.
  unfold PACK. rewrite (lor_flags (s + ps) ppa) by lia.
  rewrite bind_PUT_4 by solve_valid. heap_proj. fold m4 m5 m6.
  set (m7 := store 4 m6 (p - 4) (s + ps + ppa)).
  assert (E7 : load 4 m7 (p - 4) = s + ps + ppa) by (apply load4_store_same; lia).
  rewrite bind_FTRP by (heap_proj; fold m4 m5 m6 m7; rewrite ?E7, ?land_size_of by lia;
                        solve [lia | solve_valid]).
  heap_proj. fold m4 m5 m6 m7. rewrite E7, land_size_of by lia.
  rewrite bind_GET_4 by solve_valid. heap_proj. fold m4 m5 m6 m7. rewrite E7.
  rewrite bind_PUT_4 by solve_valid. heap_proj. fold m4 m5 m6 m7.
  set (m8 := store 4 m7 (p + (s + ps) - 8) (s + ps + ppa)).
  (* the head of the list of the merged size is not the predecessor *)
  assert (GhdT : node_ok h (load 8 m8 slotT) (p - 4) n).
  { unfold m8, m7.
    rewrite !load_store_other by (unfold slotT; simpl Z.of_nat; lia).
    unfold m6, slotP, slotT.
    rewrite rem_mem_slot; rewrite ?E5nx; fold pvp'.
    2:{ destruct Hnxp as [?|(? & ? & ?)]; [left; assumption | right; lia]. }
    2:{ destruct Gpv as [?|(? & ? & ?)]; [left; assumption | right; lia]. }
    destruct (Z.eqb_spec (find_list_by_size ps) (find_list_by_size (s + ps))) as [EPT|EPT];
      destruct (Z.eqb_spec pvp' NULL) as [Ev|Ev]; cbn [andb]; try exact Hnxp.
    - (* the predecessor had a predecessor of its own *)
      unfold m5, slotS. rewrite rem_mem_slot; rewrite ?E4nx, ?E4pv.
      2:{ destruct BhdS as [?|(? & ? & ?)]; [left; assumption | right; lia]. }
      2:{ left. reflexivity. }
      change (NULL =? NULL) with true. rewrite andb_true_r.
      destruct (Z.eqb_spec (find_list_by_size s) (find_list_by_size (s + ps))) as [EST|EST].
      + destruct HhdS as [[E1' E2']|?]; [|assumption].
        destruct E5pv as [[_ ?]|[? _]]; contradiction.
      + assert (Hss : slotS + 8 <= slotT \/ slotT + 8 <= slotS).
        { destruct (find_list_by_size_slot s) as (k1 & Hk1 & Ek1).
          destruct (find_list_by_size_slot (s + ps)) as (k2 & Hk2 & Ek2).
          unfold slotS, slotT. lia. }
        assert (ET : load 8 m4 slotT = hT).
        { unfold m4, add_mem. rewrite EhdS.
          destruct (Z.eqb_spec hdS NULL).
          - rewrite !load_store_other by (unfold slotT; simpl Z.of_nat; lia).
            apply H3. unfold slotT; simpl Z.of_nat; lia.
          - destruct BhdS as [?|(? & ? & ?)]; [contradiction|].
            rewrite !load_store_other by (unfold slotT; simpl Z.of_nat; lia).
            apply H3. unfold slotT; simpl Z.of_nat; lia. }
        fold slotT. rewrite ET.
        destruct HhT as [(_ & _ & E3')|?]; [|assumption].
        fold pvp in E3'.
        destruct E5pv as [[_ ?]|[_ E4']]; [contradiction|].
        rewrite E4' in Ev. contradiction.
    - (* the lists differ *)
      unfold m5, slotS. rewrite rem_mem_slot; rewrite ?E4nx, ?E4pv.
      2:{ destruct BhdS as [?|(? & ? & ?)]; [left; assumption | right; lia]. }
      2:{ left. reflexivity. }
      change (NULL =? NULL) with true. rewrite andb_true_r.
      destruct (Z.eqb_spec (find_list_by_size s) (find_list_by_size (s + ps))) as [EST|EST].
      + destruct HhdS as [[E1' E2']|?]; [|assumption].
        exfalso. apply EPT. rewrite <- E2'. exact EST.
      + assert (Hss : slotS + 8 <= slotT \/ slotT + 8 <= slotS).
        { destruct (find_list_by_size_slot s) as (k1 & Hk1 & Ek1).
          destruct (find_list_by_size_slot (s + ps)) as (k2 & Hk2 & Ek2).
          unfold slotS, slotT. lia. }
        assert (ET : load 8 m4 slotT = hT).
        { unfold m4, add_mem. rewrite EhdS.
          destruct (Z.eqb_spec hdS NULL).
          - rewrite !load_store_other by (unfold slotT; simpl Z.of_nat; lia).
            apply H3. unfold slotT; simpl Z.of_nat; lia.
          - destruct BhdS as [?|(? & ? & ?)]; [contradiction|].
            rewrite !load_store_other by (unfold slotT; simpl Z.of_nat; lia).
            apply H3. unfold slotT; simpl Z.of_nat; lia. }
        fold slotT. rewrite ET.
        destruct HhT as [(_ & E2' & _)|?]; [|assumption].
        exfalso. apply EPT. symmetry. exact E2'.
    - unfold m5, slotS. rewrite rem_mem_slot; rewrite ?E4nx, ?E4pv.
      2:{ destruct BhdS as [?|(? & ? & ?)]; [left; assumption | right; lia]. }
      2:{ left. reflexivity. }
      change (NULL =? NULL) with true. rewrite andb_true_r.
      destruct (Z.eqb_spec (find_list_by_size s) (find_list_by_size (s + ps))) as [EST|EST].
      + destruct HhdS as [[E1' E2']|?]; [|assumption].
        exfalso. apply EPT. rewrite <- E2'. exact EST.
      + assert (Hss : slotS + 8 <= slotT \/ slotT + 8 <= slotS).
        { destruct (find_list_by_size_slot s) as (k1 & Hk1 & Ek1).
          destruct (find_list_by_size_slot (s + ps)) as (k2 & Hk2 & Ek2).
          unfold slotS, slotT. lia. }
        assert (ET : load 8 m4 slotT = hT).
        { unfold m4, add_mem. rewrite EhdS.
          destruct (Z.eqb_spec hdS NULL).
          - rewrite !load_store_other by (unfold slotT; simpl Z.of_nat; lia).
            apply H3. unfold slotT; simpl Z.of_nat; lia.
          - destruct BhdS as [?|(? & ? & ?)]; [contradiction|].
            rewrite !load_store_other by (unfold slotT; simpl Z.of_nat; lia).
            apply H3. unfold slotT; simpl Z.of_nat; lia. }
        fold slotT. rewrite ET.
        destruct HhT as [(_ & E2' & _)|?]; [|assumption].
        exfalso. apply EPT. symmetry. exact E2'. }
  set (hdT := load 8 m8 slotT) in *.
  pose proof (load8_range m8 slotT) as RhdT. fold hdT in RhdT.
  assert (BhdT : hdT = NULL \/ (heap_ptr h + 96 <= hdT /\ hdT + 16 <= mem_brk h /\
                               (hdT + 16 <= p - 4 \/ n <= hdT)))
    by (destruct GhdT as [?|(? & ? & ?)]; [left; assumption | right; lia]).
  unfold bind at 1.
  rewrite add_free_blk_run; heap_proj; fold m4 m5 m6 m7 m8 slotT; fold hdT;
    [ | solve [ lia | destruct BhdT as [?|(? & ? & ?)];
                      [left; assumption | right; lia] ] .. ].
  assert (EM : M' = add_mem m8 slotT p) by reflexivity.
  rewrite EM. split; [reflexivity|].
  assert (F9 : forall x a, p - 4 <= a -> a + Z.of_nat x <= n ->
            (a + Z.of_nat x <= p \/ p + 16 <= a) ->
            load x (add_mem m8 slotT p) a = load x m8 a).
  { intros x a Ha1 Ha2 Ha3.
    apply (Hadd m8 slotT (find_list_by_size (s + ps))); try assumption; try reflexivity.
    - fold hdT. right. exact GhdT.
    - lia. }
  conjs.
  - rewrite F9 by (simpl Z.of_nat; lia).
    unfold m8. rewrite load_store_other by (simpl Z.of_nat; lia).
    exact E7.
  - rewrite F9 by (simpl Z.of_nat; lia).
    unfold m8. replace (n - 8) with (p + (s + ps) - 8) by lia.
    apply load4_store_same. lia.
  - rewrite F9 by (simpl Z.of_nat; lia).
    unfold m8, m7. rewrite !load_store_other by (simpl Z.of_nat; lia).
    rewrite F6, F5 by (simpl Z.of_nat; lia). exact E4n.
  - apply add_mem_head; [lia | unfold slotT; lia |].
    fold hdT. destruct BhdT as [?|(? & ? & ?)];
                [left; assumption | right; unfold slotT; lia].
  - apply add_mem_prev.
    fold hdT. destruct BhdT as [?|(? & ? & ?)];
                [left; assumption | right; lia].
Qed.

(** X13.  [free] of a block [bp] whose predecessor [p] is free and
    whose successor is allocated, on a heap with the well-formed free lists
    [L]: header and footer of the merged block record the sum of the two
    sizes with the P bit of [p] and A = 0; the header of the successor
    loses its P bit; [bp] does not stay on any list, [p] leaves its list
    and is put in front of the list of the summed size, that is, the lists
    afterwards are [L] without [p] and with [p] pushed on list
    [get_index (s + ps)]; and no byte outside the two blocks, the table of
    slots and the link fields of the listed nodes changes.  [p] is a node
    of the list of its size, and the other nodes lie outside the two
    blocks. *)
Theorem free_merges_with_prev h L bp :
  let hdr := load 4 (contents h) (bp - 4) in
  let s := Z.land hdr (2 ^ 32 - 8) in
  let ps := Z.land (load 4 (contents h) (bp - 8)) (2 ^ 32 - 8) in
  let p := bp - ps in
  let phdr := load 4 (contents h) (p - 4) in
  let n := bp + s in
  let nhdr := load 4 (contents h) (n - 4) in
  mem_brk h < 2 ^ 64 ->
  0 <= mem_start_brk h <= heap_ptr h ->
  heap_ptr h + 96 <= p - 4 ->
  MIN_BLOCK_SIZE <= s -> MIN_BLOCK_SIZE <= ps -> s + ps < 2 ^ 32 ->
  n <= mem_brk h ->
  Z.land hdr 2 = 0 -> Z.land phdr (2 ^ 32 - 8) = ps -> Z.land nhdr 1 = 1 ->
  free_lists h L ->
  In p (L (get_index ps)) ->
  (forall i x, 0 <= i < 12 -> In x (L i) ->
     x = p \/ x + 16 <= p - 4 \/ n <= x) ->
  exists m',
    free bp h = Ok tt (set_contents h m') /\
    load 4 m' (p - 4) = s + ps + Z.land phdr 2 /\
    load 4 m' (n - 8) = s + ps + Z.land phdr 2 /\
    load 4 m' (n - 4) = Z.land nhdr (2 ^ 32 - 8) + 1 /\
    free_lists (set_contents h m') (push (get_index (s + ps)) p (drop p L)) /\
    (forall k a,
       (a + Z.of_nat k <= p - 4 \/ n <= a) ->
       (a + Z.of_nat k <= heap_ptr h \/ heap_ptr h + 96 <= a) ->
       (forall i x, 0 <= i < 12 -> In x (L i) -> a + Z.of_nat k <= x \/ x + 16 <= a) ->
       load k m' a = load k (contents h) a).
Proof.
  intros hdr s ps p phdr n nhdr Hbrk Hlo Hbp Hs Hps H32 Hend Hp Hph Ha HL Hin Hsep.
  assert (En : n = bp + s) by reflexivity.
  assert (Ep : p = bp - ps) by reflexivity.
  clearbody n p.
  pose proof (get_index_range s) as HcS.
  pose proof (get_index_range ps) as HcP.
  pose proof (get_index_range (s + ps)) as HcT.
  set (cS := get_index s) in *.
  set (cP := get_index ps) in *.
  set (cT := get_index (s + ps)) in *.
  assert (HcS' : 0 <= cS < 12) by lia.
  assert (HcP' : 0 <= cP < 12) by lia.
  assert (HcT' : 0 <= cT < 12) by lia.
  unfold MIN_BLOCK_SIZE in Hs, Hps.
  assert (Hsr : 0 <= s < 2 ^ 32) by (unfold s; rewrite land_size_mask; zlia).
  assert (Hpsr : 0 <= ps < 2 ^ 32) by (unfold ps; rewrite land_size_mask; zlia).
  (* the nodes other than the predecessor lie outside the two blocks *)
  assert (Hout : forall i x, 0 <= i < 12 -> In x (L i) -> x <> p ->
            node_ok h x (p - 4) n).
  { intros i x Hi Hx Hne. right. destruct (fl_node h L HL i x Hi Hx).
    destruct (Hsep i x Hi Hx) as [?|?]; [contradiction|]. conjs; assumption. }
  assert (Hsame : forall c, 0 <= c < 12 -> In p (L c) -> 8 * c = 8 * cP).
  { intros c Hc Hi.
    destruct (fl_apart h L HL c cP p p Hc HcP' Hi Hin) as [[_ ->]|?];
      [reflexivity | lia]. }
  assert (HhS : (load 8 (contents h) (heap_ptr h + 8 * cS) = p /\ 8 * cS = 8 * cP) \/
                node_ok h (load 8 (contents h) (heap_ptr h + 8 * cS)) (p - 4) n).
  { destruct (fl_head h L HL cS HcS') as [[? _]|(_ & Hi & _)];
      [right; left; assumption|].
    destruct (Z.eq_dec (load 8 (contents h) (heap_ptr h + 8 * cS)) p) as [Heq|Hne].
    - left. split; [exact Heq|]. rewrite Heq in Hi. exact (Hsame cS HcS' Hi).
    - right. exact (Hout cS _ HcS' Hi Hne). }
  assert (HhT : (load 8 (contents h) (heap_ptr h + 8 * cT) = p /\ 8 * cT = 8 * cP /\
                 load 8 (contents h) (p + 8) = NULL) \/
                node_ok h (load 8 (contents h) (heap_ptr h + 8 * cT)) (p - 4) n).
  { destruct (fl_head h L HL cT HcT') as [[? _]|(_ & Hi & Hp0 & _)];
      [right; left; assumption|].
    destruct (Z.eq_dec (load 8 (contents h) (heap_ptr h + 8 * cT)) p) as [Heq|Hne].
    - left. rewrite Heq in Hi, Hp0. conjs; try assumption. exact (Hsame cT HcT' Hi).
    - right. exact (Hout cT _ HcT' Hi Hne). }
  destruct (fl_split h L Hlo HL cP p HcP' Hin)
    as (l1 & l2 & E & N1 & N2 & _ & _ & Hpv & Hnx & _).
  assert (Gnx : node_ok h (load 8 (contents h) p) (p - 4) n).
  { destruct Hnx as [[_ ?]|(_ & l2' & E2)]; [left; assumption|].
    apply (Hout cP); [exact HcP' | |].
    - rewrite E, E2. apply in_or_app. right. right. left. reflexivity.
    - intros Heq. apply N2. rewrite E2. left. exact Heq. }
  assert (Gpv : node_ok h (load 8 (contents h) (p + 8)) (p - 4) n).
  { destruct Hpv as [[_ ?]|(_ & _ & Hi1)]; [left; assumption|].
    apply (Hout cP); [exact HcP' | |].
    - rewrite E. apply in_or_app. left. exact Hi1.
    - intros Heq. apply N1. rewrite <- Heq at 1. exact Hi1. }
  pose proof (free_merges_prev_run h bp) as R. cbv zeta in R.
  fold hdr s ps in R. rewrite <- Ep, <- En in R. fold phdr nhdr in R.
  rewrite !slot_of_size in R. fold cS cP cT in R.
  specialize (R Hbrk Hlo Hbp Hs Hps H32 Hend Hp Hph Ha HhS HhT Gnx Gpv).
  destruct R as (Hrun & H1 & H2 & H3 & _ & _).
  set (m1 := store 4 (contents h) (n - 4) (Z.land nhdr (2 ^ 32 - 8) + 1)) in *.
  set (m2 := store 4 m1 (bp - 4) s) in *.
  set (m3 := store 4 m2 (n - 8) s) in *.
  set (m4 := add_mem m3 (heap_ptr h + 8 * cS) bp) in *.
  set (m5 := rem_mem m4 (heap_ptr h + 8 * cS) bp) in *.
  set (m6 := rem_mem m5 (heap_ptr h + 8 * cP) p) in *.
  set (m7 := store 4 m6 (p - 4) (s + ps + Z.land phdr 2)) in *.
  set (m8 := store 4 m7 (p + (s + ps) - 8) (s + ps + Z.land phdr 2)) in *.
  set (m9 := add_mem m8 (heap_ptr h + 8 * cT) p) in *.
  exists m9.
  split; [unfold m9, m8, m7, m6, m5, m4, m3, m2, m1; exact Hrun|].
  split; [exact H1|]. split; [exact H2|]. split; [exact H3|].
  (* the lists, step by step *)
  assert (Hnot : forall j, 0 <= j < 12 -> ~ In bp (L j)).
  { intros j Hj Hi. pose proof (Hsep j bp Hj Hi). lia. }
  assert (Hrest : forall i x, 0 <= i < 12 -> In x (drop p L i) ->
            x + 16 <= p - 4 \/ n <= x).
  { intros i x Hi Hx. apply in_drop in Hx. destruct Hx as [Hx Hne].
    destruct (Hsep i x Hi Hx) as [?|?]; [contradiction | assumption]. }
  assert (FL1 : free_lists (set_contents h m1) L).
  { apply free_lists_store4; [exact HL | lia |].
    intros i x Hi Hx. pose proof (Hsep i x Hi Hx). lia. }
  assert (FL2 : free_lists (set_contents h m2) L).
  { apply (free_lists_store4 (set_contents h m1)); [exact FL1 | heap_proj; lia |].
    intros i x Hi Hx. pose proof (Hsep i x Hi Hx). lia. }
  assert (FL3 : free_lists (set_contents h m3) L).
  { apply (free_lists_store4 (set_contents h m2)); [exact FL2 | heap_proj; lia |].
    intros i x Hi Hx. pose proof (Hsep i x Hi Hx). lia. }
  assert (FL4 : free_lists (set_contents h m4) (push cS bp L)).
  { apply (add_mem_lists (set_contents h m3)); heap_proj; try assumption; try lia.
    intros i x Hi Hx. pose proof (Hsep i x Hi Hx). lia. }
  assert (Hbp4 : In bp (push cS bp L cS)).
  { unfold push. rewrite Z.eqb_refl. left. reflexivity. }
  assert (FL5 : free_lists (set_contents h m5) L).
  { apply (free_lists_ext _ (drop bp (push cS bp L))).
    - intros i Hi. apply drop_push_same; assumption.
    - apply (rem_mem_lists (set_contents h m4)); heap_proj; assumption. }
  assert (FL6 : free_lists (set_contents h m6) (drop p L)).
  { apply (rem_mem_lists (set_contents h m5)); heap_proj; assumption. }
  assert (FL7 : free_lists (set_contents h m7) (drop p L)).
  { apply (free_lists_store4 (set_contents h m6)); [exact FL6 | heap_proj; lia |].
    intros i x Hi Hx. pose proof (Hrest i x Hi Hx). lia. }
  assert (FL8 : free_lists (set_contents h m8) (drop p L)).
  { apply (free_lists_store4 (set_contents h m7)); [exact FL7 | heap_proj; lia |].
    intros i x Hi Hx. pose proof (Hrest i x Hi Hx). lia. }
  split.
  - apply (add_mem_lists (set_contents h m8)); heap_proj; try assumption; try lia.
    intros i x Hi Hx. pose proof (Hrest i x Hi Hx). lia.
  - intros k a Ha1 Ha2 Ha3.
    unfold m9.
    rewrite (add_mem_away (set_contents h m8) (drop p L) FL8); heap_proj;
      try assumption; try lia.
    2:{ intros i x Hi Hx. apply in_drop in Hx. exact (Ha3 i x Hi (proj1 Hx)). }
    unfold m8, m7. rewrite !load_store_other by lia.
    unfold m6.
    rewrite (rem_mem_away (set_contents h m5) L Hlo FL5); heap_proj;
      try assumption.
    2:{ intros i x Hi Hx _. exact (Ha3 i x Hi Hx). }
    unfold m5.
    rewrite (rem_mem_away (set_contents h m4) (push cS bp L) Hlo FL4); heap_proj;
      try assumption.
    2:{ intros i x Hi Hx Hne. apply (Ha3 i x Hi). unfold push in Hx.
        destruct (i =? cS); [destruct Hx as [?|Hx]; [congruence | exact Hx] | exact Hx]. }
    unfold m4.
    rewrite (add_mem_away (set_contents h m3) L FL3); heap_proj;
      try assumption; try lia.
    unfold m3, m2, m1. rewrite !load_store_other by lia. reflexivity.
Qed.

(** ** Initialisation *)

(** Up to its call of [extend_heap], [mm_init] claims 112 bytes at the old
    brk [b] and writes the empty bucket table, the padding word, the
    prologue and a first epilogue. *)
Lemma mm_init_prefix h :
  let b := mem_brk h in
  0 < b -> 0 <= mem_start_brk h <= b ->
  b + 112 <= mem_max_addr h -> b + 112 < 2 ^ 64 ->
  exists m,
    mm_init h =
    (r <- extend_heap CHUNKSIZE ;; if r =? NULL then ret (-1) else ret 0)
      (mkHeap m (mem_start_brk h) (b + 112) (mem_max_addr h) b (b + 104)) /\
    (forall k, 0 <= k < 12 -> load 8 m (b + 8 * k) = NULL) /\
    load 4 m (b + 100) = 9 /\
    load 4 m (b + 104) = 9 /\
    load 4 m (b + 108) = 3 /\
    (forall a, a < b \/ b + 112 <= a -> m a = contents h a).
Proof.
  intros b Hb Hlo Hmax H64.
  unfold mm_init, NO_OF_LISTS, DSIZE, WSIZE, PACK, PREV_ALLOC, ALLOC, PUT, PUT_4.
  unfold LIST_0, LIST_1, LIST_2, LIST_3, LIST_4, LIST_5, LIST_6, LIST_7, LIST_8,
    LIST_9, LIST_10, LIST_11.
  unfold bind at 1, mem_sbrk. fold b.
  change (12 * 8) with 96.
  destruct (Z.ltb_spec 96 0); [lia|].
  destruct (Z.ltb_spec (mem_max_addr h) (b + 96)); [lia|].
  cbn [orb].
  unfold bind at 1, put_heap_ptr.
  destruct (Z.eqb_spec b NULL) as [E|_]; [unfold NULL in E; lia|].
  rewrite !(padd_small b) by lia.
  do 12 step.
  unfold bind at 1, mem_sbrk. heap_proj.
  change (4 * 4) with 16.
  destruct (Z.ltb_spec 16 0); [lia|].
  destruct (Z.ltb_spec (mem_max_addr h) (b + 96 + 16)); [lia|].
  cbn [orb].
  unfold bind at 1, put_heap_start.
  destruct (Z.eqb_spec (b + 96) NULL) as [E|_]; [unfold NULL in E; lia|].
  rewrite !(padd_small (b + 96)) by lia.
  do 4 step.
  unfold bind at 1, put_heap_start. heap_proj.
  change (Z.lor 8 1) with 9. change (Z.lor 0 (Z.lor 2 1)) with 3.
  change (2 * 4) with 8. change (3 * 4) with 12.
  replace (b + 96 + 16) with (b + 112) by lia.
  replace (b + 96 + 8) with (b + 104) by lia.
  replace (b + 96 + 4) with (b + 100) by lia.
  replace (b + 96 + 12) with (b + 108) by lia.
  eexists. split; [reflexivity|]. conjs; heap_proj.
  - intros k Hk.
    assert (k = 0 \/ k = 1 \/ k = 2 \/ k = 3 \/ k = 4 \/ k = 5 \/ k = 6 \/ k = 7 \/
            k = 8 \/ k = 9 \/ k = 10 \/ k = 11) as E by lia.
    repeat (destruct E as [-> | E];
            [rewrite ?load_store_other by (simpl Z.of_nat; lia);
             apply load_store_same|]).
    subst. rewrite ?load_store_other by (simpl Z.of_nat; lia).
    apply load_store_same.
  - rewrite ?load_store_other by (simpl Z.of_nat; lia). apply load4_store_same. lia.
  - rewrite ?load_store_other by (simpl Z.of_nat; lia). apply load4_store_same. lia.
  - apply load4_store_same. lia.
  - intros a Ha. rewrite !store_outside by (simpl Z.of_nat; lia). reflexivity.
Qed.

(** The heap that [mm_init] leaves. *)
Lemma mm_init_layout h :
  let b := mem_brk h in
  0 < b -> 0 <= mem_start_brk h <= b ->
  b + 280 <= mem_max_addr h -> b + 280 < 2 ^ 63 ->
  exists h',
    mm_init h = Ok 0 h' /\
    mem_start_brk h' = mem_start_brk h /\
    mem_brk h' = b + 280 /\
    heap_ptr h' = b /\
    heap_start h' = b + 104 /\
    (forall k, 0 <= k < 12 -> k <> 1 -> load 8 (contents h') (b + 8 * k) = NULL) /\
    load 8 (contents h') (b + 8) = b + 112 /\
    load 4 (contents h') (b + 100) = 9 /\
    load 4 (contents h') (b + 104) = 9 /\
    load 4 (contents h') (b + 108) = 170 /\
    load 8 (contents h') (b + 112) = NULL /\
    load 8 (contents h') (b + 120) = NULL /\
    load 4 (contents h') (b + 272) = 170 /\
    load 4 (contents h') (b + 276) = 1 /\
    (forall n a, a + Z.of_nat n <= b ->
       load n (contents h') a = load n (contents h) a).
Proof.
  intros b Hb Hlo Hmax H63.
  assert (H64 : 2 ^ 63 < 2 ^ 64) by lia.
  pose proof (mm_init_prefix h) as P. cbv zeta in P. fold b in P.
  destruct P as (m & Hrun & Htab & Hp1 & Hp2 & Hp3 & Hout); try lia.
  rewrite Hrun. unfold CHUNKSIZE.
  pose proof (Htab 1 ltac:(lia)) as Hhd. change (8 * 1) with 8 in Hhd.
  pose proof (extend_heap_run
                (mkHeap m (mem_start_brk h) (b + 112) (mem_max_addr h) b (b + 104))
                168) as Q.
  cbv zeta in Q. heap_proj.
  change (find_list_by_size 168) with 8 in Q.
  replace (b + 112 - 4) with (b + 108) in Q by lia.
  rewrite Hp3, Hhd in Q. unfold MIN_BLOCK_SIZE in Q.
  destruct Q as (m' & Hext & F1 & F2 & F3 & F4 & F5 & F6 & _ & Hfr);
    [solve [lia | reflexivity | left; reflexivity] .. |].
  - unfold bind. rewrite Hext.
    destruct (Z.eqb_spec (b + 112) NULL) as [E|_]; [unfold NULL in E; lia|].
    eexists. split; [reflexivity|]. heap_proj.
    conjs; try reflexivity; try lia.
    + intros k Hk Hk1.
      rewrite Hfr by (simpl Z.of_nat; solve [lia | left; reflexivity]).
      apply Htab; exact Hk.
    + rewrite Hfr by (simpl Z.of_nat; solve [lia | left; reflexivity]). exact Hp1.
    + rewrite Hfr by (simpl Z.of_nat; solve [lia | left; reflexivity]). exact Hp2.
    + replace (b + 120) with (b + 112 + 8) by lia. exact F6.
    + replace (b + 272) with (b + 112 + 168 - 8) by lia. exact F2.
    + replace (b + 276) with (b + 112 + 168 - 4) by lia. exact F3.
    + intros n a Ha. rewrite Hfr by solve [lia | left; reflexivity].
      apply load_ext. intros x Hx. apply Hout. lia.
Qed.

(** X14.  On a heap with room for 280 bytes at its brk [b],
    [mm_init] returns 0 and builds, whatever the memory held before: twelve
    list slots at [b], all null but the second, which points to the one
    free block at [b + 112]; the prologue 9, 9 at [b + 100]; header and
    footer 170 (168 bytes, P = 1, A = 0) of that block with null links;
    and the epilogue 1 at [b + 276].  Nothing below [b] changes. *)
Theorem mm_init_builds_heap h :
  let b := mem_brk h in
  0 < b -> 0 <= mem_start_brk h <= b ->
  b + 280 <= mem_max_addr h -> b + 280 < 2 ^ 63 ->
  exists h',
    mm_init h = Ok 0 h' /\
    mem_start_brk h' = mem_start_brk h /\
    mem_brk h' = b + 280 /\
    heap_ptr h' = b /\
    heap_start h' = b + 104 /\
    (forall k, 0 <= k < 12 -> k <> 1 -> load 8 (contents h') (b + 8 * k) = NULL) /\
    load 8 (contents h') (b + 8) = b + 112 /\
    load 4 (contents h') (b + 100) = 9 /\
    load 4 (contents h') (b + 104) = 9 /\
    load 4 (contents h') (b + 108) = 170 /\
    load 8 (contents h') (b + 112) = NULL /\
    load 8 (contents h') (b + 120) = NULL /\
    load 4 (contents h') (b + 272) = 170 /\
    load 4 (contents h') (b + 276) = 1 /\
    (forall n a, a + Z.of_nat n <= b ->
       load n (contents h') a = load n (contents h) a).
Proof. exact (mm_init_layout h). Qed.

(** X15.  When the heap has room for the table and the prologue
    but not for the first block of 168 bytes, [mm_init] returns -1; the brk
    has moved by 112 bytes and the table is there, but no block. *)
Theorem mm_init_fails_without_room h :
  let b := mem_brk h in
  0 < b -> 0 <= mem_start_brk h <= b -> b + 112 < 2 ^ 64 ->
  b + 112 <= mem_max_addr h < b + 280 ->
  exists h',
    mm_init h = Ok (-1) h' /\
    mem_brk h' = b + 112 /\
    heap_ptr h' = b /\
    (forall k, 0 <= k < 12 -> load 8 (contents h') (b + 8 * k) = NULL).
Proof.
  intros b Hb Hlo H64 Hmax.
  pose proof (mm_init_prefix h) as P. cbv zeta in P. fold b in P.
  destruct P as (m & Hrun & Htab & _); try lia.
  rewrite Hrun. unfold bind.
  rewrite extend_heap_out_of_memory by (heap_proj; unfold CHUNKSIZE; lia).
  change (NULL =? NULL) with true. cbv iota.
  eexists. split; [reflexivity|]. heap_proj. conjs; try reflexivity. exact Htab.
Qed.

(** ** The bounds of the heap *)

Lemma grows_only_ret {A} (x : A) : grows_only (ret x).
Proof. intros h y h' H. inversion H. lia. Qed.

Lemma grows_only_bind {A B} (c : M A) (k : A -> M B) :
  grows_only c -> (forall x, grows_only (k x)) -> grows_only (bind c k).
Proof.
  intros Hc Hk h y h' H. unfold bind in H.
  destruct (c h) as [x h1| |] eqn:E; try discriminate.
  specialize (Hc h x h1 E). specialize (Hk x h1 y h' H).
  destruct Hc as (? & ? & ? & ? & ? & ?).
  destruct Hk as (? & ? & ? & ? & ? & ?).
  conjs; try congruence; lia.
Qed.

Lemma grows_only_load_at n p : grows_only (load_at n p).
Proof.
  intros h y h' H. unfold load_at in H.
  destruct (valid h p n); inversion H. lia.
Qed.

Lemma grows_only_store_at n p v : grows_only (store_at n p v).
Proof.
  intros h y h' H. unfold store_at in H.
  destruct (valid h p n); inversion H. heap_proj. lia.
Qed.

Lemma grows_only_get_heap_ptr : grows_only get_heap_ptr.
Proof. intros h y h' H. inversion H. lia. Qed.

Lemma grows_only_mem_sbrk incr : grows_only (mem_sbrk incr).
Proof.
  intros h y h' H. unfold mem_sbrk in H.
  destruct (Z.ltb_spec incr 0); cbn [orb] in H.
  - inversion H. lia.
  - destruct (Z.ltb_spec (mem_max_addr h) (mem_brk h + incr)); inversion H;
      heap_proj; lia.
Qed.

Lemma grows_only_out_of_fuel {A} : grows_only (fun _ : heap => @OutOfFuel A).
Proof. intros h y h' H. discriminate. Qed.

Create HintDb grows.
#[local] Hint Resolve grows_only_ret grows_only_load_at grows_only_store_at
  grows_only_get_heap_ptr grows_only_mem_sbrk grows_only_out_of_fuel : grows.

Ltac grows :=
  repeat first
    [ solve [auto with grows]
    | apply grows_only_bind; [ | intros ? ]
    | match goal with
      | |- grows_only (if ?b then _ else _) => destruct b
      end ].

Lemma grows_only_GET_SIZE p : grows_only (GET_SIZE p).
Proof. unfold GET_SIZE, GET_4. grows. Qed.
Lemma grows_only_GET_ALLOC p : grows_only (GET_ALLOC p).
Proof. unfold GET_ALLOC, GET_4. grows. Qed.
Lemma grows_only_GET_PREV_ALLOC p : grows_only (GET_PREV_ALLOC p).
Proof. unfold GET_PREV_ALLOC, GET_4. grows. Qed.
#[local] Hint Resolve grows_only_GET_SIZE grows_only_GET_ALLOC
  grows_only_GET_PREV_ALLOC : grows.
Lemma grows_only_NEXT_BLKP p : grows_only (NEXT_BLKP p).
Proof. unfold NEXT_BLKP. grows. Qed.
Lemma grows_only_PREV_BLKP p : grows_only (PREV_BLKP p).
Proof. unfold PREV_BLKP. grows. Qed.
Lemma grows_only_FTRP p : grows_only (FTRP p).
Proof. unfold FTRP. grows. Qed.
#[local] Hint Resolve grows_only_NEXT_BLKP grows_only_PREV_BLKP grows_only_FTRP : grows.
Lemma grows_only_add_free_blk bp s : grows_only (add_free_blk bp s).
Proof. unfold add_free_blk, GET, PUT. grows. Qed.
Lemma grows_only_rem_free_blk bp s : grows_only (rem_free_blk bp s).
Proof. unfold rem_free_blk, GET, PUT. grows. Qed.
#[local] Hint Resolve grows_only_add_free_blk grows_only_rem_free_blk : grows.
Lemma grows_only_coalesce bp : grows_only (coalesce bp).
Proof. unfold coalesce, GET_4, PUT_4. grows. Qed.
Lemma grows_only_place bp s : grows_only (place bp s).
Proof. unfold place, GET_4, PUT_4. grows. Qed.
#[local] Hint Resolve grows_only_coalesce grows_only_place : grows.
Lemma grows_only_extend_heap w : grows_only (extend_heap w).
Proof. unfold extend_heap, GET_4, PUT_4. grows. Qed.
Lemma grows_only_find_block_loop fuel size :
  forall b, grows_only (find_block_loop fuel size b).
Proof. induction fuel as [|f IH]; intros b; cbn [find_block_loop]; unfold GET; grows. Qed.
#[local] Hint Resolve grows_only_extend_heap grows_only_find_block_loop : grows.
Lemma grows_only_find_fit_loop fuel n asize :
  forall i, grows_only (find_fit_loop fuel n i asize).
Proof.
  induction n as [|n IH]; intros i; cbn [find_fit_loop];
    unfold find_block_in_list, GET; grows.
Qed.
#[local] Hint Resolve grows_only_find_fit_loop : grows.
Lemma grows_only_malloc fuel size : grows_only (malloc fuel size).
Proof. unfold malloc, find_fit. grows. Qed.
Lemma grows_only_free bp : grows_only (free bp).
Proof. unfold free, GET_4, PUT_4. grows. Qed.
#[local] Hint Resolve grows_only_malloc grows_only_free : grows.
Lemma grows_only_memcpy_loop n : forall dst src, grows_only (memcpy_loop n dst src).
Proof. induction n as [|n IH]; intros dst src; cbn [memcpy_loop]; grows. Qed.
Lemma grows_only_calloc_loop n size : forall temp, grows_only (calloc_loop n temp size).
Proof. induction n as [|n IH]; intros temp; cbn [calloc_loop]; grows. Qed.
#[local] Hint Resolve grows_only_memcpy_loop grows_only_calloc_loop : grows.

(** X16.  Whenever [malloc], [free], [realloc] or [calloc] returns,
    the lower bound and the limit of the heap and the globals [heap_ptr]
    and [heap_start] are as before, the brk has not moved down, and it has
    not passed the limit if it was within it. *)
Theorem interface_grows_only fuel :
  (forall size, grows_only (malloc fuel size)) /\
  (forall bp, grows_only (free bp)) /\
  (forall oldptr size, grows_only (realloc fuel oldptr size)) /\
  (forall nmemb size, grows_only (calloc fuel nmemb size)).
Proof.
  conjs; intros.
  - apply grows_only_malloc.
  - apply grows_only_free.
  - unfold realloc, memcpy. grows.
  - unfold calloc. grows.
Qed.

(** ** What [calloc] clears *)

Lemma store1_at_get m a x :
  store 1 m a 0 x = if x =? a then 0 else m x.
Proof. reflexivity. Qed.

(** A byte that is zero stays zero through the loop of [calloc]. *)
Lemma calloc_loop_keeps_zero n : forall temp size h h' a,
  calloc_loop n temp size h = Ok tt h' ->
  load 1 (contents h) a = 0 -> load 1 (contents h') a = 0.
Proof.
  induction n as [|n IH]; intros temp size h h' a H Hz.
  - inversion H; subst. exact Hz.
  - cbn [calloc_loop] in H. unfold bind, store_at in H.
    destruct (valid h temp 1); [|discriminate].
    apply (IH _ _ _ _ a) in H; [exact H|].
    heap_proj. rewrite load1_eq in *. rewrite store1_at_get.
    destruct (a =? temp); [reflexivity | exact Hz].
Qed.

Lemma calloc_loop_zeroes n : forall temp size h h',
  0 <= temp < 2 ^ 64 ->
  calloc_loop n temp size h = Ok tt h' ->
  forall i, (i < n)%nat ->
    load 1 (contents h') (wrap64 (temp + Z.of_nat i * size)) = 0.
Proof.
  induction n as [|n IH]; intros temp size h h' Ht H i Hi.
  - lia.
  - cbn [calloc_loop] in H. unfold bind, store_at in H.
    destruct (valid h temp 1); [|discriminate].
    assert (Hp : 0 <= padd temp size < 2 ^ 64)
      by (unfold padd, wrap64; apply Z.mod_pos_bound; lia).
    destruct i as [|i].
    + apply (calloc_loop_keeps_zero _ _ _ _ _ _ H).
      heap_proj. rewrite load1_eq, store1_at_get.
      cbn [Z.of_nat]. rewrite Z.mul_0_l, Z.add_0_r.
      unfold wrap64. rewrite (Z.mod_small temp) by lia. rewrite Z.eqb_refl. reflexivity.
    + specialize (IH _ _ _ _ Hp H i ltac:(lia)).
      rewrite wrap64_padd in IH.
      replace (Z.of_nat (S i)) with (Z.of_nat i + 1) by lia. exact IH.
Qed.

(** X17.  What [calloc] clears: when it returns [p], the
    bytes at [p], [p + size], ..., [p + (nmemb - 1) * size] (modulo 2^64)
    are 0, and every other byte is as [malloc] left it. *)
Theorem calloc_zeroes_one_byte_per_element fuel nmemb size h p h' :
  0 <= nmemb -> 0 <= p < 2 ^ 64 ->
  calloc fuel nmemb size h = Ok p h' ->
  exists h1,
    malloc fuel (wrap64 (nmemb * size)) h = Ok p h1 /\
    (forall i, 0 <= i < nmemb ->
       load 1 (contents h') (wrap64 (p + i * size)) = 0) /\
    (forall a, (forall i, 0 <= i < nmemb -> a <> wrap64 (p + i * size)) ->
       contents h' a = contents h1 a).
Proof.
  intros Hn Hp H. unfold calloc in H.
  apply bind_Ok_inv in H. destruct H as (q & h1 & Hm & H).
  apply bind_Ok_inv in H. destruct H as ([] & h2 & Hl & H).
  inversion H; subst q h2. exists h1. conjs.
  - exact Hm.
  - intros i Hi.
    pose proof (calloc_loop_zeroes _ _ _ _ _ Hp Hl (Z.to_nat i) ltac:(lia)) as Hz.
    rewrite Z2Nat.id in Hz by lia. exact Hz.
  - intros a Ha. apply (calloc_loop_untouched _ _ _ _ _ Hp Hl).
    intros i Hi. apply Ha. lia.
Qed.

(** ** Exhaustion *)

(** X18.  When no free block fits and the limit does not allow the
    extension, [malloc] returns null and the heap is exactly as before; so
    does [realloc] of any block smaller than the request, which stays
    allocated. *)
Theorem out_of_memory_returns_null fuel size h :
  0 < size ->
  find_fit fuel (malloc_asize size) h = Ok NULL h ->
  mem_max_addr h < mem_brk h + Z.max (malloc_asize size) CHUNKSIZE ->
  malloc fuel size h = Ok NULL h /\
  (forall oldptr,
     oldptr <> NULL -> valid h (HDRP oldptr) 4 = true ->
     wrap32 (Z.land (load 4 (contents h) (HDRP oldptr)) (2 ^ 32 - 8) - OVERHEAD) < size ->
     realloc fuel oldptr size h = Ok NULL h).
Proof.
  intros Hs Hf Hm.
  assert (H : malloc fuel size h = Ok NULL h)
    by (apply malloc_out_of_memory; assumption).
  split; [exact H|].
  intros oldptr Ho Hv Hold.
  apply realloc_out_of_memory; try assumption. lia.
Qed.

(** ** The checker *)

(** On a list that ends, the scan reports nothing, however little fuel it
    has. *)
Lemma cycle_loop_acyclic_any h fuel : forall l hare tortoise,
  chain h hare l -> NoDup l ->
  cycle_loop fuel hare tortoise h = Ok None h \/
  cycle_loop fuel hare tortoise h = OutOfFuel.
Proof.
  induction fuel as [|f IH]; intros l hare tortoise Hc Hnd.
  - right. reflexivity.
  - cbn [cycle_loop]. unfold NEXT_FREE, GET.
    destruct (Z.eqb_spec hare NULL) as [Eh|Eh]; cbn [negb andb];
      [left; reflexivity|].
    destruct (Z.eqb_spec tortoise NULL) as [Et|Et]; cbn [negb];
      [left; reflexivity|].
    inversion Hc as [E0|p l' Hp Hv Hc']; subst; [contradiction|].
    rewrite bind_load_at by exact Hv.
    inversion Hnd as [|? ? Hnotin Hnd']; subst.
    set (nh := load 8 (contents h) hare) in *.
    destruct (Z.eqb_spec nh NULL) as [E|E]; cbn [negb].
    + rewrite bind_ret. rewrite E.
      destruct (Z.eqb_spec NULL tortoise); [congruence|].
      apply (IH []); [apply chain_nil | constructor].
    + inversion Hc' as [E0|q l'' Hq Hvq Hc'']; subst; [symmetry in E0; contradiction|].
      rewrite bind_load_at by exact Hvq.
      set (nt := load 8 (contents h) nh) in *.
      destruct (Z.eqb_spec nh nt) as [Heq|Hd].
      * exfalso. inversion Hnd' as [|? ? Hn2 _]; subst.
        destruct (chain_head _ _ _ Hc'') as [E1|(l3 & ->)].
        -- fold nt in E1. rewrite <- Heq in E1. contradiction.
        -- apply Hn2. fold nt. rewrite <- Heq. left. reflexivity.
      * apply (IH (nh :: l'')); assumption.
Qed.

Lemma cycle_lists_never_end h fuel k n : forall i,
  0 <= i -> i <= k < i + Z.of_nat n -> k < 12 ->
  0 < heap_ptr h -> heap_ptr h + 96 < 2 ^ 64 ->
  (forall j, i <= j < k ->
     exists l, chain h (heap_ptr h + 8 * j) l /\ NoDup l) ->
  (forall m, nth_next h m (heap_ptr h + 8 * k) <> NULL /\
             valid h (nth_next h m (heap_ptr h + 8 * k)) 8 = true /\
             nth_next h (S m) (heap_ptr h + 8 * k) <> nth_next h m (heap_ptr h + 8 * k)) ->
  cycle_lists fuel n i h = OutOfFuel.
Proof.
  induction n as [|n IH]; intros i Hi Hk Hk12 Hp0 Hp1 Hl Hcyc.
  - simpl in Hk. lia.
  - cbn [cycle_lists]. unfold bind at 1, get_heap_ptr.
    assert (Hfl : find_list i = 8 * i) by (apply find_list_slot; lia).
    rewrite Hfl. rewrite padd_small by lia.
    unfold bind at 1.
    destruct (Z.eq_dec i k) as [->|Hne].
    + rewrite cycle_loop_never_ends; [reflexivity | unfold NULL; lia | exact Hcyc].
    + destruct (Hl i ltac:(lia)) as (l & Hc & Hnd).
      destruct (cycle_loop_acyclic_any h fuel l _ (heap_ptr h + 8 * i) Hc Hnd) as [E|E];
        rewrite E; [|reflexivity].
      apply IH; try lia; try assumption.
      intros j Hj. apply Hl. lia.
Qed.

(** X20.  [check_for_cycle] never returns when one list never
    reaches null and no node of it is its own successor (a cycle of two or
    more nodes), the lists before it being chains that end: the scan
    compares each node only with its successor.  Whatever the fuel, the
    result is [OutOfFuel]. *)
Theorem check_for_cycle_never_returns h k :
  0 <= k < 12 ->
  0 < heap_ptr h -> heap_ptr h + 96 < 2 ^ 64 ->
  (forall j, 0 <= j < k ->
     exists l, chain h (heap_ptr h + 8 * j) l /\ NoDup l) ->
  (forall m, nth_next h m (heap_ptr h + 8 * k) <> NULL /\
             valid h (nth_next h m (heap_ptr h + 8 * k)) 8 = true /\
             nth_next h (S m) (heap_ptr h + 8 * k) <> nth_next h m (heap_ptr h + 8 * k)) ->
  forall fuel, check_for_cycle fuel h = OutOfFuel.
Proof.
  intros Hk Hp0 Hp1 Hl Hcyc fuel. unfold check_for_cycle.
  apply (cycle_lists_never_end h fuel k); try assumption; try lia.
Qed.

Lemma nth_next_S h n : forall p,
  nth_next h (S n) p = load 8 (contents h) (nth_next h n p).
Proof.
  induction n as [|n IH]; intros p; [reflexivity|].
  change (nth_next h (S (S n)) p) with (nth_next h (S n) (load 8 (contents h) p)).
  rewrite IH. reflexivity.
Qed.

Lemma cyclic_heap_orbit n :
  nth_next cyclic_heap n 4096 = 4096 \/
  nth_next cyclic_heap n 4096 = 4208 \/
  nth_next cyclic_heap n 4096 = 4272.
Proof.
  destruct cyclic_heap_links as (_ & H0 & H1 & H2).
  assert (V0 : valid cyclic_heap 4096 8 = true) by by_eval.
  assert (V1 : valid cyclic_heap 4208 8 = true) by by_eval.
  assert (V2 : valid cyclic_heap 4272 8 = true) by by_eval.
  unfold GET, load_at in H0, H1, H2. rewrite V0 in H0. rewrite V1 in H1. rewrite V2 in H2.
  induction n as [|n IH]; [left; reflexivity|].
  rewrite nth_next_S.
  destruct IH as [-> | [-> | ->]].
  - right; left. congruence.
  - right; right. congruence.
  - right; left. congruence.
Qed.

Lemma seg_list_loop_run h lo hi l : forall p fuel,
  chain h p l ->
  (forall x, In x l -> valid h (HDRP x) 4 = true) ->
  (length l < fuel)%nat ->
  seg_list_loop fuel lo hi p h =
  Ok (if forallb (fun x => (lo <? size_of h x) && (size_of h x <=? hi)) l
      then None else Some 1) h.
Proof.
  induction l as [|x l IH]; intros p fuel Hc Hv Hf.
  - apply chain_nil_inv in Hc. subst p.
    destruct fuel as [|f]; [simpl in Hf; lia|]. reflexivity.
  - apply chain_cons_inv in Hc. destruct Hc as (-> & Hp & Hvx & Hc).
    destruct fuel as [|f]; [simpl in Hf; lia|].
    cbn [seg_list_loop forallb].
    destruct (Z.eqb_spec x NULL); [contradiction|].
    rewrite bind_GET_SIZE by (apply Hv; left; reflexivity).
    fold (size_of h x).
    destruct ((lo <? size_of h x) && (size_of h x <=? hi)); cbn [negb andb];
      [|reflexivity].
    unfold NEXT_FREE, GET. rewrite bind_load_at by exact Hvx.
    apply IH; [exact Hc | | simpl in Hf; lia].
    intros y Hy. apply Hv. right. exact Hy.
Qed.

Lemma size_of_range h x : 0 <= size_of h x < 2 ^ 32.
Proof.
  unfold size_of. rewrite land_size_mask.
  change (2 ^ 32) with 4294967296. change (2 ^ 29) with 536870912. zlia.
Qed.

(** The bounds [check_seg_lists] uses for list [i] select the sizes that
    [get_index] sends to [i]. *)
Lemma seg_bounds_get_index i s :
  0 <= i < 12 -> 0 <= s < 2 ^ 32 ->
  ((if i =? 0 then 0 else if i =? 11 then LIST10_SIZE else get_list_size (i - 1)) <? s) &&
  (s <=? (if i =? 0 then LIST0_SIZE else if i =? 11 then 2 ^ 64 - 1 else get_list_size i))
  = (0 <? s) && (get_index s =? i).
Proof.
  intros Hi Hs.
  assert (i = 0 \/ i = 1 \/ i = 2 \/ i = 3 \/ i = 4 \/ i = 5 \/ i = 6 \/ i = 7 \/
          i = 8 \/ i = 9 \/ i = 10 \/ i = 11) as E by lia.
  change (2 ^ 32) with 4294967296 in Hs.
  change (2 ^ 64 - 1) with 18446744073709551615.
  unfold get_index.
  unfold LIST0_SIZE, LIST1_SIZE, LIST2_SIZE, LIST3_SIZE, LIST4_SIZE, LIST5_SIZE,
    LIST6_SIZE, LIST7_SIZE, LIST8_SIZE, LIST9_SIZE, LIST10_SIZE.
  repeat (destruct E as [-> | E];
    [cbn [Z.eqb Pos.eqb Z.sub Z.add Z.opp Z.pos_sub Pos.pred_double get_list_size
          Z.succ_double Z.pred_double Z.double];
     unfold LIST0_SIZE, LIST1_SIZE, LIST2_SIZE, LIST3_SIZE, LIST4_SIZE, LIST5_SIZE,
       LIST6_SIZE, LIST7_SIZE, LIST8_SIZE, LIST9_SIZE, LIST10_SIZE;
     repeat match goal with
            | |- context [?a <=? ?b] => destruct (Z.leb_spec a b)
            | |- context [?a <? ?b] => destruct (Z.ltb_spec a b)
            end; cbn [andb Z.eqb Pos.eqb]; solve [reflexivity | lia] |]).
  subst i.
  cbn [Z.eqb Pos.eqb Z.sub Z.add Z.opp Z.pos_sub Pos.pred_double get_list_size
          Z.succ_double Z.pred_double Z.double];
     unfold LIST0_SIZE, LIST1_SIZE, LIST2_SIZE, LIST3_SIZE, LIST4_SIZE, LIST5_SIZE,
       LIST6_SIZE, LIST7_SIZE, LIST8_SIZE, LIST9_SIZE, LIST10_SIZE;
     repeat match goal with
            | |- context [?a <=? ?b] => destruct (Z.leb_spec a b)
            | |- context [?a <? ?b] => destruct (Z.ltb_spec a b)
            end; cbn [andb Z.eqb Pos.eqb]; solve [reflexivity | lia].
Qed.

Lemma in_class_spec h i x :
  in_class h i x = true <-> 0 < size_of h x /\ get_index (size_of h x) = i.
Proof.
  unfold in_class. rewrite andb_true_iff, Z.ltb_lt, Z.eqb_eq. reflexivity.
Qed.

Lemma seg_lists_run h fuel (L : Z -> list Z) n : forall i,
  0 <= i -> i + Z.of_nat n = 12 ->
  0 <= mem_start_brk h <= heap_ptr h -> heap_ptr h + 96 <= mem_brk h ->
  mem_brk h < 2 ^ 64 ->
  (forall j, i <= j < 12 -> list_is h j (L j) /\ (length (L j) < fuel)%nat) ->
  exists r,
    seg_lists fuel n i h = Ok r h /\ (r = 0 \/ r = 1) /\
    (r = 0 <->
     forall j, i <= j < 12 -> forall x, In x (L j) -> in_class h j x = true).
Proof.
  induction n as [|n IH]; intros i Hi Hn Hlo Htab Hbrk HL.
  - exists 0. split; [reflexivity|]. split; [left; reflexivity|]. split.
    + intros _ j Hj. simpl in Hn. lia.
    + reflexivity.
  - cbn [seg_lists]. unfold bind at 1, get_heap_ptr.
    rewrite find_list_slot by lia. rewrite padd_small by lia.
    unfold GET. rewrite bind_load_at by solve_valid.
    destruct (HL i ltac:(lia)) as [[Hc Hv] Hlen].
    unfold bind at 1.
    rewrite (seg_list_loop_run h _ _ (L i)) by assumption.
    rewrite (forallb_same _ (in_class h i)).
    2:{ intros x. unfold in_class. apply seg_bounds_get_index; [lia | apply size_of_range]. }
    destruct (forallb (in_class h i) (L i)) eqn:Ef.
    + destruct (IH (i + 1)) as (r & Hrun & Hr & Hiff); try assumption; try lia.
      { intros j Hj. apply HL. lia. }
      exists r. split; [exact Hrun|]. split; [exact Hr|]. split.
      * intros E j Hj x Hx. destruct (Z.eq_dec j i) as [->|?].
        -- rewrite forallb_forall in Ef. apply Ef. exact Hx.
        -- apply Hiff; [exact E | lia | exact Hx].
      * intros H. apply Hiff. intros j Hj. apply H. lia.
    + exists 1. split; [reflexivity|]. split; [right; reflexivity|]. split; [lia|].
      intros H. exfalso.
      assert (forallb (in_class h i) (L i) = true).
      { apply forallb_forall. intros x Hx. apply (H i); [lia | exact Hx]. }
      congruence.
Qed.

(** X21.  When every list [j] is a chain [L j] that ends,
    [check_seg_lists] leaves the heap alone and returns 0 if every node of
    every list [j] has a size above 0 that [get_index] sends to [j], and 1
    otherwise. *)
Theorem check_seg_lists_decides h fuel (L : Z -> list Z) :
  0 <= mem_start_brk h <= heap_ptr h -> heap_ptr h + 96 <= mem_brk h ->
  mem_brk h < 2 ^ 64 ->
  (forall j, 0 <= j < 12 -> list_is h j (L j) /\ (length (L j) < fuel)%nat) ->
  exists r,
    check_seg_lists fuel h = Ok r h /\ (r = 0 \/ r = 1) /\
    (r = 0 <->
     forall j, 0 <= j < 12 -> forall x, In x (L j) ->
       0 < size_of h x /\ get_index (size_of h x) = j).
Proof.
  intros Hlo Htab Hbrk HL. unfold check_seg_lists.
  destruct (seg_lists_run h fuel L (Z.to_nat NO_OF_LISTS) 0) as (r & Hrun & Hr & Hiff);
    try assumption; try (unfold NO_OF_LISTS; lia).
  exists r. split; [exact Hrun|]. split; [exact Hr|]. split.
  - intros E j Hj x Hx. apply in_class_spec. apply Hiff; assumption.
  - intros H. apply Hiff. intros j Hj x Hx. apply in_class_spec. apply H; assumption.
Qed.

Lemma count_ptr_loop_run h l : forall p fuel cnt,
  chain h p l -> (length l < fuel)%nat ->
  count_ptr_loop fuel p cnt h = Ok (cnt + Z.of_nat (length l)) h.
Proof.
  induction l as [|x l IH]; intros p fuel cnt Hc Hf.
  - apply chain_nil_inv in Hc. subst p.
    destruct fuel as [|f]; [simpl in Hf; lia|].
    cbn [count_ptr_loop length]. change (NULL =? NULL) with true. cbv iota.
    unfold ret. f_equal. simpl. lia.
  - apply chain_cons_inv in Hc. destruct Hc as (-> & Hp & Hvx & Hc).
    destruct fuel as [|f]; [simpl in Hf; lia|].
    cbn [count_ptr_loop].
    destruct (Z.eqb_spec x NULL); [contradiction|].
    unfold NEXT_FREE, GET. rewrite bind_load_at by exact Hvx.
    rewrite (IH _ f (cnt + 1) Hc) by (simpl in Hf; lia).
    f_equal. cbn [length]. lia.
Qed.

Lemma count_lists_run h fuel (L : Z -> list Z) n : forall i cnt,
  0 <= i -> i + Z.of_nat n <= 12 ->
  0 <= mem_start_brk h <= heap_ptr h -> heap_ptr h + 96 <= mem_brk h ->
  mem_brk h < 2 ^ 64 ->
  (forall j, i <= j < i + Z.of_nat n ->
     chain h (load 8 (contents h) (heap_ptr h + 8 * j)) (L j) /\
     (length (L j) < fuel)%nat) ->
  count_lists fuel n i cnt h =
  Ok (cnt + Z.of_nat (length (nodes_from L i n))) h.
Proof.
  induction n as [|n IH]; intros i cnt Hi Hn Hlo Htab Hbrk HL.
  - cbn. unfold ret. f_equal. lia.
  - cbn [count_lists]. unfold bind at 1, get_heap_ptr.
    rewrite find_list_slot by lia. rewrite padd_small by lia.
    unfold NEXT_FREE, GET. rewrite bind_load_at by solve_valid.
    destruct (HL i ltac:(lia)) as [Hc Hlen].
    unfold bind at 1.
    rewrite (count_ptr_loop_run h (L i)) by assumption.
    rewrite IH; try assumption; try lia.
    2:{ intros j Hj. apply HL. lia. }
    f_equal. unfold nodes_from. cbn [seq map concat].
    rewrite length_app. rewrite Z.add_0_r.
    rewrite <- seq_shift, map_map.
    rewrite (map_ext (fun k => L (i + Z.of_nat (S k))) (fun k => L (i + 1 + Z.of_nat k))).
    + lia.
    + intros k. f_equal. lia.
Qed.

Lemma count_heap_loop_run h l : forall blk fuel cnt,
  blocks h blk l -> (length l < fuel)%nat ->
  count_heap_loop fuel blk cnt h =
  Ok (cnt + Z.of_nat (length (filter (is_free h) l))) h.
Proof.
  induction l as [|x l IH]; intros blk fuel cnt Hb Hf.
  - inversion Hb as [? Hv Hd|]; subst.
    destruct fuel as [|f]; [simpl in Hf; lia|].
    cbn [count_heap_loop]. rewrite bind_GET_4 by exact Hv.
    destruct Hd as [-> | ->]; cbn; unfold ret; f_equal; lia.
  - inversion Hb as [|? ? Hv H1 H3 Hb']; subst.
    destruct fuel as [|f]; [simpl in Hf; lia|].
    cbn [count_heap_loop]. rewrite bind_GET_4 by exact Hv.
    destruct (Z.eqb_spec (load 4 (contents h) (HDRP x)) 1); [contradiction|].
    destruct (Z.eqb_spec (load 4 (contents h) (HDRP x)) 3); [contradiction|].
    cbn [negb andb].
    rewrite bind_GET_ALLOC by exact Hv.
    rewrite run_NEXT_BLKP_size_of by exact Hv.
    rewrite (IH _ f _ Hb') by (simpl in Hf; lia).
    f_equal. cbn [filter]. unfold is_free at 2.
    destruct (Z.land (load 4 (contents h) (HDRP x)) 1 =? 0); cbn [length]; lia.
Qed.

Lemma check_free_blk_count_run h fuel (L : Z -> list Z) bs :
  0 <= mem_start_brk h <= heap_ptr h -> heap_ptr h + 112 <= mem_brk h ->
  mem_brk h < 2 ^ 64 ->
  (forall j, 0 <= j < 12 ->
     chain h (load 8 (contents h) (heap_ptr h + 8 * j)) (L j) /\
     (length (L j) < fuel)%nat) ->
  blocks h (heap_ptr h + 112) bs -> (length bs < fuel)%nat ->
  check_free_blk_count fuel h =
  Ok (if Z.of_nat (length (filter (is_free h) bs)) =?
        Z.of_nat (length (nodes_from L 0 12))
      then 0 else 1) h.
Proof.
  intros Hlo Htab Hbrk HL Hb Hf. unfold check_free_blk_count.
  unfold bind at 1.
  rewrite (count_lists_run h fuel L);
    [ | solve [ assumption | lia | unfold NO_OF_LISTS; simpl; lia
              | intros j Hj; apply HL; unfold NO_OF_LISTS in Hj; simpl in Hj; lia ] .. ].
  unfold bind at 1, get_heap_ptr.
  replace (padd (NO_OF_LISTS * DSIZE + 2 * DSIZE) (heap_ptr h)) with (heap_ptr h + 112)
    by (unfold padd, wrap64, NO_OF_LISTS, DSIZE; rewrite Z.mod_small by lia; lia).
  unfold bind at 1.
  rewrite (count_heap_loop_run h bs) by assumption.
  change (Z.to_nat NO_OF_LISTS) with 12%nat.
  rewrite !Z.add_0_l.
  destruct (_ =? _); reflexivity.
Qed.

(** X22.  When the lists are chains that end and the blocks from
    [heap_ptr + 112] up to the epilogue are [bs], [check_free_blk_count]
    returns 0 if the number of blocks of [bs] with A = 0 equals the number
    of list nodes, and 1 otherwise.  The two counters are C [int]s; both
    numbers are below 2^31. *)
Theorem check_free_blk_count_decides h fuel (L : Z -> list Z) bs :
  0 <= mem_start_brk h <= heap_ptr h -> heap_ptr h + 112 <= mem_brk h ->
  mem_brk h < 2 ^ 64 ->
  (forall j, 0 <= j < 12 ->
     chain h (load 8 (contents h) (heap_ptr h + 8 * j)) (L j) /\
     (length (L j) < fuel)%nat) ->
  blocks h (heap_ptr h + 112) bs -> (length bs < fuel)%nat ->
  Z.of_nat (length bs) < 2 ^ 31 ->
  Z.of_nat (length (nodes_from L 0 12)) < 2 ^ 31 ->
  exists r,
    check_free_blk_count fuel h = Ok r h /\ (r = 0 \/ r = 1) /\
    (r = 0 <->
     length (filter (is_free h) bs) = length (nodes_from L 0 12)).
Proof.
  intros Hlo Htab Hbrk HL Hb Hf _ _.
  rewrite (check_free_blk_count_run h fuel L bs) by assumption.
  destruct (Z.eqb_spec (Z.of_nat (length (filter (is_free h) bs)))
                       (Z.of_nat (length (nodes_from L 0 12)))) as [E|E].
  - exists 0. split; [reflexivity|]. split; [left; reflexivity|]. split; intros; lia.
  - exists 1. split; [reflexivity|]. split; [right; reflexivity|]. split; intros; lia.
Qed.

(** *** The heap right after [mm_init] *)

Lemma check_alloc_blk_returns blk h : exists r, check_alloc_blk blk h = Ok r h.
Proof.
  unfold check_alloc_blk, in_heap, mem_heap_hi, mem_heap_lo, bind, ret.
  destruct ((blk <=? mem_brk h - 1) && (mem_start_brk h <=? blk)); cbn [negb];
    [|eexists; reflexivity].
  destruct (aligned blk); eexists; reflexivity.
Qed.

Lemma bind_in_heap {B} p (k : bool -> M B) h :
  bind (in_heap p) k h = k ((p <=? mem_brk h - 1) && (mem_start_brk h <=? p)) h.
Proof. reflexivity. Qed.

Section InitialHeap.

(** A heap laid out as [mm_init] leaves it, with the bucket table at [b]. *)
Variable h : heap.
Variable b : Z.
Hypothesis b_pos : 0 < b.
Hypothesis b_aligned : b mod 8 = 0.
Hypothesis b_small : b + 280 < 2 ^ 63.
Hypothesis Llo : 0 <= mem_start_brk h <= b.
Hypothesis Lbrk : mem_brk h = b + 280.
Hypothesis Lhp : heap_ptr h = b.
Hypothesis Lhs : heap_start h = b + 104.
Hypothesis Ltab :
  forall k, 0 <= k < 12 -> k <> 1 -> load 8 (contents h) (b + 8 * k) = NULL.
Hypothesis Lhd : load 8 (contents h) (b + 8) = b + 112.
Hypothesis L100 : load 4 (contents h) (b + 100) = 9.
Hypothesis L104 : load 4 (contents h) (b + 104) = 9.
Hypothesis L108 : load 4 (contents h) (b + 108) = 170.
Hypothesis Lnx : load 8 (contents h) (b + 112) = NULL.
Hypothesis Lpv : load 8 (contents h) (b + 120) = NULL.
Hypothesis L272 : load 4 (contents h) (b + 272) = 170.
Hypothesis L276 : load 4 (contents h) (b + 276) = 1.

Ltac ok := apply valid_true; simpl Z.of_nat; rewrite ?Lbrk, ?Lhp; lia.

Lemma initial_check_free_blk : check_free_blk (b + 112) h = Ok 0 h.
Proof.
  assert (H64 : 2 ^ 63 < 2 ^ 64) by lia.
  unfold check_free_blk. rewrite bind_in_heap. rewrite Lbrk.
  destruct (Z.leb_spec (b + 112) (b + 280 - 1)); [|lia].
  destruct (Z.leb_spec (mem_start_brk h) (b + 112)); [|lia].
  cbn [andb negb].
  assert (Ha : aligned (b + 112) = true).
  { apply aligned_iff; [lia|]. zlia. }
  rewrite Ha. cbn [negb].
  unfold NEXT_FREE, GET.
  rewrite bind_load_at by ok. rewrite Lnx.
  change (negb (NULL =? NULL)) with false. cbv iota.
  rewrite bind_ret. cbv iota.
  rewrite PREV_FREE_small by lia.
  replace (b + 112 + 8) with (b + 120) by lia.
  rewrite bind_load_at by ok. rewrite Lpv.
  change (negb (NULL =? NULL)) with false. cbv iota.
  rewrite bind_ret. cbv iota.
  rewrite run_NEXT_BLKP_size_of by (rewrite HDRP_small by lia; ok).
  unfold size_of. rewrite !(HDRP_small (b + 112)) by lia.
  replace (b + 112 - 4) with (b + 108) by lia. rewrite L108.
  change (Z.land 170 (2 ^ 32 - 8)) with 168.
  rewrite (padd_small (b + 112)) by lia.
  rewrite (HDRP_small (b + 112 + 168)) by lia.
  replace (b + 112 + 168 - 4) with (b + 276) by lia.
  rewrite bind_GET_4 by ok. rewrite L276.
  change (negb (1 =? 1) && negb (1 =? 3) && (Z.land 1 1 =? 0)) with false. cbv iota.
  rewrite bind_GET_4 by ok. rewrite L108.
  rewrite bind_FTRP by (replace (b + 112 - 4) with (b + 108) by lia; rewrite ?L108;
                        change (Z.land 170 (2 ^ 32 - 8)) with 168; solve [lia | ok]).
  replace (b + 112 - 4) with (b + 108) by lia. rewrite L108.
  change (Z.land 170 (2 ^ 32 - 8)) with 168.
  replace (b + 112 + 168 - 8) with (b + 272) by lia.
  rewrite bind_GET_4 by ok. rewrite L272.
  reflexivity.
Qed.

Lemma initial_walk_heap fuel :
  walk_heap (S (S fuel)) (b + 112) h = Ok (inr (b + 280)) h.
Proof.
  assert (H64 : 2 ^ 63 < 2 ^ 64) by lia.
  cbn [walk_heap].
  rewrite (HDRP_small (b + 112)) by lia.
  replace (b + 112 - 4) with (b + 108) by lia.
  rewrite bind_GET_4 by ok. rewrite L108.
  change (negb (170 =? 1) && negb (170 =? 3)) with true. cbv iota.
  rewrite bind_GET_ALLOC by ok. rewrite L108.
  change (Z.land 170 1 =? 0) with true. cbv iota.
  unfold bind at 1. rewrite initial_check_free_blk.
  change (negb (0 =? 0)) with false. cbv iota.
  rewrite run_NEXT_BLKP_size_of by (rewrite HDRP_small by lia; ok).
  unfold size_of. rewrite (HDRP_small (b + 112)) by lia.
  replace (b + 112 - 4) with (b + 108) by lia. rewrite L108.
  change (Z.land 170 (2 ^ 32 - 8)) with 168.
  rewrite (padd_small (b + 112)) by lia.
  replace (b + 112 + 168) with (b + 280) by lia.
  rewrite (HDRP_small (b + 280)) by lia.
  replace (b + 280 - 4) with (b + 276) by lia.
  rewrite bind_GET_4 by ok. rewrite L276.
  reflexivity.
Qed.

Lemma initial_lists j :
  0 <= j < 12 ->
  list_is h j (initial_nodes b j) /\ (length (initial_nodes b j) < 3)%nat.
Proof.
  assert (H64 : 2 ^ 63 < 2 ^ 64) by lia.
  intros Hj. unfold list_is, initial_nodes. rewrite Lhp.
  destruct (Z.eqb_spec j 1) as [->|Hne].
  - change (8 * 1) with 8. rewrite Lhd. split; [split|simpl; lia].
    + apply chain_cons; [unfold NULL; lia | ok |].
      rewrite Lnx. apply chain_nil.
    + intros x [<-|[]]. rewrite HDRP_small by lia. ok.
  - rewrite Ltab by assumption. split; [split|simpl; lia].
    + apply chain_nil.
    + intros x [].
Qed.

Lemma initial_check_for_cycle fuel : check_for_cycle (S (S (S fuel))) h = Ok 0 h.
Proof.
  assert (H64 : 2 ^ 63 < 2 ^ 64) by lia.
  apply cycle_lists_acyclic; rewrite ?Lhp; try lia.
  - change (Z.of_nat (Z.to_nat NO_OF_LISTS)) with 12. lia.
  - intros k Hk. change (Z.of_nat (Z.to_nat NO_OF_LISTS)) with 12 in Hk.
    destruct (Z.eq_dec k 1) as [->|Hne].
    + exists [b + 8 * 1; b + 112]. conjs.
      * apply chain_cons; [unfold NULL; lia | ok |].
        change (8 * 1) with 8. rewrite Lhd.
        apply chain_cons; [unfold NULL; lia | ok |].
        rewrite Lnx. apply chain_nil.
      * constructor; [simpl; lia|]. constructor; [simpl; tauto | constructor].
      * simpl. lia.
    + exists [b + 8 * k]. conjs.
      * apply chain_cons; [unfold NULL; lia | ok |].
        rewrite Ltab by lia. apply chain_nil.
      * constructor; [simpl; tauto | constructor].
      * simpl. lia.
Qed.

Lemma initial_check_seg_lists fuel : check_seg_lists (S (S (S fuel))) h = Ok 0 h.
Proof.
  unfold check_seg_lists.
  destruct (seg_lists_run h (S (S (S fuel))) (initial_nodes b) (Z.to_nat NO_OF_LISTS) 0)
    as (r & Hrun & _ & Hiff); rewrite ?Lhp, ?Lbrk; try lia.
  - reflexivity.
  - intros j Hj. destruct (initial_lists j Hj) as [Hl Hn]. split; [exact Hl | lia].
  - rewrite Hrun. f_equal. apply Hiff.
    intros j Hj x Hx. unfold initial_nodes in Hx.
    destruct (Z.eqb_spec j 1) as [->|Hne]; [|destruct Hx].
    destruct Hx as [<-|[]].
    unfold in_class, size_of. rewrite HDRP_small by lia.
    replace (b + 112 - 4) with (b + 108) by lia. rewrite L108. reflexivity.
Qed.

Lemma initial_blocks : blocks h (b + 112) [b + 112].
Proof.
  assert (H64 : 2 ^ 63 < 2 ^ 64) by lia.
  assert (E : HDRP (b + 112) = b + 108) by (rewrite HDRP_small by lia; lia).
  apply blocks_cons; rewrite ?E, ?L108; try lia.
  - ok.
  - unfold size_of. rewrite E, L108. change (Z.land 170 (2 ^ 32 - 8)) with 168.
    rewrite padd_small by lia.
    assert (E' : HDRP (b + 112 + 168) = b + 276) by (rewrite HDRP_small by lia; lia).
    apply blocks_nil; rewrite E'; [ok | left; exact L276].
Qed.

Lemma initial_check_free_blk_count fuel :
  check_free_blk_count (S (S (S fuel))) h = Ok 0 h.
Proof.
  assert (H64 : 2 ^ 63 < 2 ^ 64) by lia.
  rewrite (check_free_blk_count_run h _ (initial_nodes b) [b + 112]);
    rewrite ?Lhp, ?Lbrk; try lia.
  - cbn [filter]. unfold is_free. rewrite HDRP_small by lia.
    replace (b + 112 - 4) with (b + 108) by lia. rewrite L108. reflexivity.
  - intros j Hj. destruct (initial_lists j Hj) as [[Hc _] Hn].
    rewrite Lhp in Hc. split; [exact Hc | lia].
  - exact initial_blocks.
  - simpl. lia.
Qed.

Lemma initial_mm_checkheap fuel verbose :
  mm_checkheap (S (S (S fuel))) verbose h = Ok 0 h.
Proof.
  assert (H64 : 2 ^ 63 < 2 ^ 64) by lia.
  unfold mm_checkheap. unfold bind at 1, get_heap_start. rewrite Lhs.
  rewrite (HDRP_small (b + 104)) by lia.
  replace (b + 104 - 4) with (b + 100) by lia.
  rewrite bind_GET_SIZE by ok. rewrite L100.
  rewrite bind_GET_ALLOC by ok. rewrite L100.
  change (negb (Z.land 9 (2 ^ 32 - 8) =? DSIZE) || (Z.land 9 1 =? 0)) with false.
  cbv iota.
  destruct (check_alloc_blk_returns (b + 104) h) as [r Hr].
  unfold bind at 1. rewrite Hr.
  rewrite bind_GET_SIZE by ok. rewrite L104.
  rewrite bind_GET_ALLOC by ok. rewrite L104.
  change (negb (Z.land 9 (2 ^ 32 - 8) =? DSIZE) || (Z.land 9 1 =? 0)) with false.
  cbv iota.
  unfold bind at 1, get_heap_ptr. rewrite Lhp.
  replace (padd (NO_OF_LISTS * DSIZE + 2 * DSIZE) b) with (b + 112)
    by (unfold padd, wrap64, NO_OF_LISTS, DSIZE; rewrite Z.mod_small by lia; lia).
  rewrite (HDRP_small (b + 112)) by lia.
  replace (b + 112 - 4) with (b + 108) by lia.
  rewrite bind_GET_ALLOC by ok. rewrite L108.
  change (Z.land 170 1 =? 0) with true. cbv iota.
  unfold bind at 1. rewrite initial_check_free_blk.
  change (negb (0 =? 0)) with false. cbv iota.
  unfold bind at 1. rewrite initial_walk_heap.
  rewrite (HDRP_small (b + 280)) by lia.
  replace (b + 280 - 4) with (b + 276) by lia.
  rewrite bind_GET_SIZE by ok. rewrite L276.
  rewrite bind_GET_ALLOC by ok. rewrite L276.
  change (negb (Z.land 1 (2 ^ 32 - 8) =? 0) || (Z.land 1 1 =? 0)) with false.
  cbv iota.
  unfold bind at 1. rewrite initial_check_for_cycle.
  change (negb (0 =? 0)) with false. cbv iota.
  unfold bind at 1. rewrite initial_check_seg_lists.
  change (negb (0 =? 0)) with false. cbv iota.
  unfold bind at 1. rewrite initial_check_free_blk_count.
  reflexivity.
Qed.

End InitialHeap.

(** X23.  The heap that [mm_init] builds passes the checker:
    at every brk that is a multiple of 8, with room for 280 bytes and
    whatever the memory held, [mm_init] followed by [mm_checkheap] returns
    0, given fuel for three steps. *)
Theorem mm_checkheap_accepts_initial_heap h fuel verbose :
  let b := mem_brk h in
  0 < b -> b mod 8 = 0 -> 0 <= mem_start_brk h <= b ->
  b + 280 <= mem_max_addr h -> b + 280 < 2 ^ 63 ->
  (3 <= fuel)%nat ->
  exists h', (mm_init ;; mm_checkheap fuel verbose) h = Ok 0 h'.
Proof.
  intros b Hb H8 Hlo Hmax H63 Hf.
  destruct (mm_init_layout h) as
    (h' & Hrun & Elo & Ebrk & Ehp & Ehs & Etab & Ehd & E100 & E104 & E108 &
     Enx & Epv & E272 & E276 & _); try assumption.
  fold b in Elo, Ebrk, Ehp, Ehs, Etab, Ehd, E100, E104, E108, Enx, Epv, E272, E276.
  exists h'. unfold bind. rewrite Hrun.
  destruct fuel as [|[|[|f]]]; try lia.
  apply (initial_mm_checkheap h' b); try assumption.
  rewrite Elo. exact Hlo.
Qed.

(** ** The properties at concrete heaps *)

(** *** The heap right after [mm_init] *)

(** The heap after [mm_init] on [fresh_heap] has the layout of
    [mm_init_layout] at 4096. *)
Lemma init_heap_layout :
  mem_start_brk init_heap = 4096 /\
  mem_brk init_heap = 4096 + 280 /\
  heap_ptr init_heap = 4096 /\
  heap_start init_heap = 4096 + 104 /\
  (forall k, 0 <= k < 12 -> k <> 1 -> load 8 (contents init_heap) (4096 + 8 * k) = NULL) /\
  load 8 (contents init_heap) (4096 + 8) = 4096 + 112 /\
  load 4 (contents init_heap) (4096 + 100) = 9 /\
  load 4 (contents init_heap) (4096 + 104) = 9 /\
  load 4 (contents init_heap) (4096 + 108) = 170 /\
  load 8 (contents init_heap) (4096 + 112) = NULL /\
  load 8 (contents init_heap) (4096 + 120) = NULL /\
  load 4 (contents init_heap) (4096 + 272) = 170 /\
  load 4 (contents init_heap) (4096 + 276) = 1.
Proof.
  pose proof (mm_init_layout fresh_heap) as P. cbv zeta in P.
  change (mem_brk fresh_heap) with 4096 in P.
  change (mem_start_brk fresh_heap) with 4096 in P.
  change (mem_max_addr fresh_heap) with (4096 + 1048576) in P.
  destruct P as (h' & Hrun & Elo & Ebrk & Ehp & Ehs & Etab & Ehd & E100 & E104 & E108 &
                 Enx & Epv & E272 & E276 & _); try lia.
  assert (E : init_heap = h') by (unfold init_heap, exec; rewrite Hrun; reflexivity).
  rewrite E. conjs; assumption.
Qed.

Lemma init_heap_lists j :
  0 <= j < 12 ->
  list_is init_heap j (initial_nodes 4096 j) /\
  (length (initial_nodes 4096 j) < 3)%nat.
Proof.
  destruct init_heap_layout as (Elo & Ebrk & Ehp & _ & Etab & Ehd & _ & _ & _ & Enx & _).
  apply (initial_lists init_heap 4096); solve [assumption | lia].
Qed.

Lemma init_heap_block :
  mem_start_brk init_heap = 4096 /\
  mem_brk init_heap = 4376 /\
  heap_ptr init_heap = 4096 /\
  load 4 (contents init_heap) (4208 - 4) = 170 /\
  load 4 (contents init_heap) (4208 + 168 - 4) = 1 /\
  load 8 (contents init_heap) 4208 = NULL /\
  load 8 (contents init_heap) (4208 + 8) = NULL.
Proof. conjs; vm_compute; reflexivity. Qed.

Lemma get_index_monotone_witness : 100 <= 200 /\ get_index 100 <= get_index 200.
Proof. split; [lia | apply (get_index_monotone 100 200); lia]. Defined.

Lemma check_alloc_blk_accepts_witness :
  exists r,
    check_alloc_blk 4208 init_heap = Ok r init_heap /\
    (r = 0 \/ r = 1) /\
    (r = 0 <-> mem_start_brk init_heap <= 4208 < mem_brk init_heap /\ 4208 mod 8 = 0).
Proof. apply (check_alloc_blk_accepts 4208 init_heap). lia. Defined.

Lemma find_fit_sound_witness :
  find_fit 16 24 init_heap = Ok 4208 init_heap /\ fits init_heap 24 4208.
Proof.
  assert (H : find_fit 16 24 init_heap = Ok 4208 init_heap) by by_eval.
  split; [exact H|].
  exact (proj2 (find_fit_sound 16 24 init_heap 4208 init_heap H)).
Defined.

Lemma find_fit_first_fit_witness :
  exists bp,
    find_fit 4 24 init_heap = Ok bp init_heap /\
    ((bp = NULL /\
      forall j, get_index 24 <= j < 12 ->
        first_fit init_heap 24 (initial_nodes 4096 j) = NULL) \/
     (bp <> NULL /\
      exists k, get_index 24 <= k < 12 /\
        bp = first_fit init_heap 24 (initial_nodes 4096 k) /\
        forall j, get_index 24 <= j < k ->
          first_fit init_heap 24 (initial_nodes 4096 j) = NULL)).
Proof.
  destruct init_heap_layout as (Elo & Ebrk & Ehp & _).
  apply (find_fit_first_fit init_heap 4 24 (initial_nodes 4096)).
  - rewrite Elo, Ehp. lia.
  - rewrite Ehp, Ebrk. lia.
  - rewrite Ebrk. lia.
  - intros j Hj. pose proof (get_index_range 24).
    destruct (init_heap_lists j) as [Hl Hn]; [lia|]. split; [exact Hl | lia].
Defined.

Lemma place_whole_block_witness :
  exists h',
    place 4208 168 init_heap = Ok tt h' /\
    load 4 (contents h') (4208 - 4) = 171 /\
    load 4 (contents h') (4208 + 168 - 4) = 3 /\
    load 8 (contents h') (4096 + 8) = NULL.
Proof.
  destruct init_heap_block as (Elo & Ebrk & Ehp & Eh & En & Enx & Epv).
  pose proof (place_whole_block init_heap 4208 168) as P.
  cbv zeta in P. rewrite Eh in P.
  change (Z.land 170 (2 ^ 32 - 8)) with 168 in P. rewrite En in P.
  change (Z.land 1 1 =? 0) with false in P. cbv iota in P.
  rewrite Ehp, Elo, Ebrk, Enx, Epv in P.
  change (4096 + find_list_by_size 168) with (4096 + 8) in P.
  change (Z.lor 168 (Z.lor (Z.land 170 2) 1)) with 171 in P.
  change (Z.lor 1 2) with 3 in P.
  destruct P as (h' & Hrun & H1 & H2 & _ & H4 & _);
    [ solve [ lia | reflexivity | unfold MIN_BLOCK_SIZE; lia | left; reflexivity
            | intros E; discriminate E ] .. | ].
  exists h'. split; [exact Hrun|]. split; [exact H1|]. split; [exact H2|].
  apply H4. reflexivity.
Defined.

Lemma mm_init_builds_heap_witness :
  exists h',
    mm_init fresh_heap = Ok 0 h' /\
    heap_ptr h' = 4096 /\
    load 8 (contents h') (4096 + 8) = 4096 + 112 /\
    load 4 (contents h') (4096 + 108) = 170.
Proof.
  pose proof (mm_init_builds_heap fresh_heap) as P. cbv zeta in P.
  change (mem_brk fresh_heap) with 4096 in P.
  change (mem_start_brk fresh_heap) with 4096 in P.
  change (mem_max_addr fresh_heap) with (4096 + 1048576) in P.
  destruct P as (h' & Hrun & _ & _ & Ehp & _ & _ & Ehd & _ & _ & E108 & _); try lia.
  exists h'. conjs; assumption.
Defined.

Lemma mm_init_fails_without_room_witness :
  exists h',
    mm_init (empty_heap 200) = Ok (-1) h' /\
    mem_brk h' = 4096 + 112 /\
    heap_ptr h' = 4096.
Proof.
  pose proof (mm_init_fails_without_room (empty_heap 200)) as P. cbv zeta in P.
  change (mem_brk (empty_heap 200)) with 4096 in P.
  change (mem_start_brk (empty_heap 200)) with 4096 in P.
  change (mem_max_addr (empty_heap 200)) with (4096 + 200) in P.
  destruct P as (h' & Hrun & Ebrk & Ehp & _); try lia.
  exists h'. conjs; assumption.
Defined.

Lemma calloc_zeroes_one_byte_per_element_witness :
  exists h1,
    malloc 16 (wrap64 (2 * 8)) init_heap = Ok 4208 h1 /\
    load 1 (contents (exec (calloc 16 2 8) init_heap)) (wrap64 (4208 + 1 * 8)) = 0.
Proof.
  assert (H : calloc 16 2 8 init_heap = Ok 4208 (exec (calloc 16 2 8) init_heap))
    by by_eval.
  destruct (calloc_zeroes_one_byte_per_element 16 2 8 init_heap 4208 _
              ltac:(lia) ltac:(lia) H) as (h1 & Hm & Hz & _).
  exists h1. split; [exact Hm|]. apply Hz. lia.
Defined.

Lemma check_for_cycle_acyclic_witness :
  check_for_cycle 4 init_heap = Ok 0 init_heap.
Proof.
  destruct init_heap_layout as (Elo & Ebrk & Ehp & _ & Etab & Ehd & _ & _ & _ & Enx & _).
  apply check_for_cycle_acyclic.
  - rewrite Ehp. lia.
  - rewrite Ehp. lia.
  - intros k Hk. rewrite Ehp. destruct (Z.eq_dec k 1) as [->|Hne].
    + exists [4096 + 8 * 1; 4096 + 112]. conjs.
      * apply chain_cons;
          [unfold NULL; lia | apply valid_true; rewrite ?Elo, ?Ebrk; simpl Z.of_nat; lia |].
        change (8 * 1) with 8. rewrite Ehd.
        apply chain_cons;
          [unfold NULL; lia | apply valid_true; rewrite ?Elo, ?Ebrk; simpl Z.of_nat; lia |].
        rewrite Enx. apply chain_nil.
      * constructor; [simpl; lia|]. constructor; [simpl; tauto | constructor].
      * simpl. lia.
    + exists [4096 + 8 * k]. conjs.
      * apply chain_cons;
          [unfold NULL; lia | apply valid_true; rewrite ?Elo, ?Ebrk; simpl Z.of_nat; lia |].
        rewrite Etab by lia. apply chain_nil.
      * constructor; [simpl; tauto | constructor].
      * simpl. lia.
Defined.

Lemma check_seg_lists_decides_witness :
  exists r,
    check_seg_lists 4 init_heap = Ok r init_heap /\ (r = 0 \/ r = 1) /\
    (r = 0 <->
     forall j, 0 <= j < 12 -> forall x, In x (initial_nodes 4096 j) ->
       0 < size_of init_heap x /\ get_index (size_of init_heap x) = j).
Proof.
  destruct init_heap_layout as (Elo & Ebrk & Ehp & _).
  apply (check_seg_lists_decides init_heap 4 (initial_nodes 4096)).
  - rewrite Elo, Ehp. lia.
  - rewrite Ehp, Ebrk. lia.
  - rewrite Ebrk. lia.
  - intros j Hj. destruct (init_heap_lists j Hj) as [Hl Hn]. split; [exact Hl | lia].
Defined.

Lemma check_free_blk_count_decides_witness :
  exists r,
    check_free_blk_count 4 init_heap = Ok r init_heap /\ (r = 0 \/ r = 1) /\
    (r = 0 <->
     length (filter (is_free init_heap) [4096 + 112]) =
     length (nodes_from (initial_nodes 4096) 0 12)).
Proof.
  destruct init_heap_layout as (Elo & Ebrk & Ehp & _ & _ & _ & _ & _ & E108 & _ & _ & _ & E276).
  apply (check_free_blk_count_decides init_heap 4 (initial_nodes 4096) [4096 + 112]).
  - rewrite Elo, Ehp. lia.
  - rewrite Ehp, Ebrk. lia.
  - rewrite Ebrk. lia.
  - intros j Hj. destruct (init_heap_lists j Hj) as [[Hc _] Hn].
    split; [exact Hc | lia].
  - rewrite Ehp. apply (initial_blocks init_heap 4096); solve [assumption | lia].
  - simpl. lia.
  - simpl. lia.
  - simpl. lia.
Defined.

Lemma mm_checkheap_accepts_initial_heap_witness :
  exists h', (mm_init ;; mm_checkheap 3 0) fresh_heap = Ok 0 h'.
Proof.
  apply (mm_checkheap_accepts_initial_heap fresh_heap 3 0);
    change (mem_brk fresh_heap) with 4096;
    change (mem_start_brk fresh_heap) with 4096;
    change (mem_max_addr fresh_heap) with (4096 + 1048576); try lia.
  reflexivity.
Defined.

(** *** A heap with two free blocks on one list *)

(** The smallest list of [one_free_heap] holds the blocks at 4208 and 4336;
    the block at 4272 is allocated and lies between allocated blocks. *)
Lemma one_free_heap_list :
  mem_start_brk one_free_heap = 4096 /\
  mem_brk one_free_heap = 4376 /\
  heap_ptr one_free_heap = 4096 /\
  load 8 (contents one_free_heap) 4096 = 4208 /\
  load 8 (contents one_free_heap) 4208 = 4336 /\
  load 8 (contents one_free_heap) (4208 + 8) = NULL /\
  load 8 (contents one_free_heap) 4336 = NULL /\
  load 8 (contents one_free_heap) (4336 + 8) = 4208 /\
  load 4 (contents one_free_heap) (4272 - 4) = 35 /\
  load 4 (contents one_free_heap) (4272 + 32 - 4) = 35.
Proof. conjs; vm_compute; reflexivity. Qed.

Lemma one_free_heap_chain : chain one_free_heap 4208 [4208; 4336].
Proof.
  destruct one_free_heap_list as (Elo & Ebrk & _ & _ & E1 & _ & E2 & _).
  apply chain_cons; [unfold NULL; lia | apply valid_true; rewrite ?Elo, ?Ebrk; simpl; lia |].
  rewrite E1.
  apply chain_cons; [unfold NULL; lia | apply valid_true; rewrite ?Elo, ?Ebrk; simpl; lia |].
  rewrite E2. apply chain_nil.
Qed.

Lemma one_free_heap_apart : nodes_apart one_free_heap [4208; 4336].
Proof.
  destruct one_free_heap_list as (_ & Ebrk & Ehp & _).
  split.
  - intros x [<-|[<-|[]]]; rewrite Ehp, Ebrk; lia.
  - intros x y [<-|[<-|[]]] [<-|[<-|[]]]; lia.
Qed.

Lemma add_free_blk_pushes_witness :
  exists h',
    add_free_blk 4272 32 one_free_heap = Ok tt h' /\
    chain h' (load 8 (contents h') 4096) [4272; 4208; 4336] /\
    load 8 (contents h') 4096 = 4272.
Proof.
  destruct one_free_heap_list as (Elo & Ebrk & Ehp & Ehd & _).
  pose proof (add_free_blk_pushes one_free_heap 4272 32 [4208; 4336]) as P.
  cbv zeta in P. rewrite Ehp, Elo, Ebrk in P.
  change (4096 + find_list_by_size 32) with 4096 in P. rewrite Ehd in P.
  destruct P as (h' & Hrun & Hc & Hs & _); try lia.
  - exact one_free_heap_chain.
  - exact one_free_heap_apart.
  - intros x [<-|[<-|[]]]; lia.
  - exists h'. conjs; assumption.
Defined.

Lemma rem_free_blk_unlinks_witness :
  exists h',
    rem_free_blk 4336 40 one_free_heap = Ok tt h' /\
    chain h' (load 8 (contents h') 4096) [4208].
Proof.
  destruct one_free_heap_list as (Elo & Ebrk & Ehp & Ehd & _ & _ & _ & Epv & _).
  pose proof (rem_free_blk_unlinks one_free_heap 4336 40 [4208] []) as P.
  cbv zeta in P. rewrite Ehp, Elo, Ebrk in P.
  change (4096 + find_list_by_size 40) with 4096 in P. rewrite Ehd, Epv in P.
  destruct P as (h' & Hrun & Hc & _); try lia.
  - exact one_free_heap_chain.
  - repeat constructor; simpl; intuition lia.
  - exact one_free_heap_apart.
  - reflexivity.
  - exists h'. split; assumption.
Defined.

Lemma add_then_find_witness :
  exists h',
    (add_free_blk 4272 32 ;;
     find_block_in_list 1 (get_index 32) 24) one_free_heap = Ok 4272 h' /\
    load 8 (contents h') 4096 = 4272.
Proof.
  destruct one_free_heap_list as (Elo & Ebrk & Ehp & Ehd & _ & _ & _ & _ & Eh & _).
  pose proof (add_then_find one_free_heap 4272 32 24 0) as P.
  cbv zeta in P. unfold size_of in P. rewrite (HDRP_small 4272) in P by lia.
  rewrite Ehp, Elo, Ebrk, Eh in P.
  change (4096 + find_list_by_size 32) with 4096 in P. rewrite Ehd in P.
  change (Z.land 35 (2 ^ 32 - 8)) with 32 in P.
  destruct P as (h' & Hrun & Hs & _);
    [ solve [ lia | right; lia ] .. | ].
  exists h'. split; assumption.
Defined.

Lemma free_between_allocated_witness :
  exists h',
    free 4272 one_free_heap = Ok tt h' /\
    load 4 (contents h') (4272 - 4) = 32 + 2 /\
    load 4 (contents h') (4272 + 32 - 8) = 32 + 2 /\
    load 8 (contents h') 4096 = 4272 /\
    load 8 (contents h') 4272 = 4208.
Proof.
  destruct one_free_heap_list as (Elo & Ebrk & Ehp & Ehd & _ & _ & _ & _ & Eh & En).
  pose proof (free_between_allocated one_free_heap 4272) as P.
  cbv zeta in P. rewrite Ehp, Elo, Ebrk, Eh in P.
  change (Z.land 35 (2 ^ 32 - 8)) with 32 in P. rewrite En in P.
  change (4096 + find_list_by_size 32) with 4096 in P. rewrite Ehd in P.
  destruct P as (h' & Hrun & H1 & H2 & _ & H4 & H5 & _);
    [ solve [ lia | reflexivity | unfold MIN_BLOCK_SIZE; lia
            | right; rewrite Ehp, Ebrk; lia ] .. | ].
  exists h'. conjs; assumption.
Defined.

(** The allocated block at 4304 of [one_free_heap] has 32 bytes; the free
    block at 4336 behind it has 40 bytes and ends the heap. *)
Lemma one_free_heap_tail :
  load 4 (contents one_free_heap) (4304 - 4) = 35 /\
  load 4 (contents one_free_heap) (4304 + 32 - 4) = 42.
Proof. conjs; vm_compute; reflexivity. Qed.

Lemma one_free_heap_slots i :
  0 <= i < 12 -> i <> 0 ->
  load 8 (contents one_free_heap) (heap_ptr one_free_heap + 8 * i) = NULL.
Proof. intros Hi Hne. small_index i; try contradiction; vm_compute; reflexivity. Qed.

Lemma one_free_heap_lists : free_lists one_free_heap (just 0 [4208; 4336]).
Proof.
  destruct one_free_heap_list as (_ & _ & Ehp & Ehd & _ & P1 & _ & P2 & _).
  apply free_lists_just.
  - lia.
  - exact one_free_heap_slots.
  - rewrite Ehp. change (4096 + 8 * 0) with 4096. rewrite Ehd.
    exact one_free_heap_chain.
  - cbn [prevs]. conjs; [exact P1 | exact P2 | exact I].
  - exact one_free_heap_apart.
  - repeat constructor; simpl; intuition lia.
Qed.

Lemma free_merges_with_next_witness :
  exists m',
    free 4304 one_free_heap = Ok tt (set_contents one_free_heap m') /\
    load 4 m' (4304 - 4) = 32 + 40 + 2 /\
    load 4 m' (4336 + 40 - 8) = 32 + 40 + 2 /\
    free_lists (set_contents one_free_heap m') (just 0 [4304; 4208]).
Proof.
  destruct one_free_heap_list as (Elo & Ebrk & Ehp & _).
  destruct one_free_heap_tail as (Eh & En).
  pose proof (free_merges_with_next one_free_heap (just 0 [4208; 4336]) 4304) as P.
  cbv zeta in P. rewrite Eh in P.
  change (Z.land 35 (2 ^ 32 - 8)) with 32 in P. rewrite En in P.
  change (Z.land 42 (2 ^ 32 - 8)) with 40 in P.
  change (4304 + 32) with 4336 in P.
  rewrite Ehp, Elo, Ebrk in P.
  destruct P as (m' & Hrun & H1 & H2 & _ & HL & _).
  - lia.
  - lia.
  - lia.
  - unfold MIN_BLOCK_SIZE. lia.
  - unfold MIN_BLOCK_SIZE. lia.
  - lia.
  - lia.
  - reflexivity.
  - reflexivity.
  - exact one_free_heap_lists.
  - right. left. reflexivity.
  - intros i x Hi Hx. unfold just in Hx.
    destruct (i =? 0); [|destruct Hx].
    destruct Hx as [<-|[<-|[]]]; lia.
  - exists m'. conjs; try assumption.
    apply (free_lists_ext _ (push (get_index (32 + 40)) 4304 (drop 4336 (just 0 [4208; 4336]))));
      [|exact HL].
    intros i Hi. unfold push, drop, just.
    destruct (Z.eqb_spec i 0) as [->|Hne]; [reflexivity|].
    change (get_index (32 + 40)) with 0.
    destruct (Z.eqb_spec i 0); [contradiction | reflexivity].
Defined.

(** The allocated block at 4240 of [one_free_heap] has 32 bytes; before it
    lies the free block at 4208, behind it an allocated block. *)
Lemma one_free_heap_front :
  load 4 (contents one_free_heap) (4240 - 4) = 33 /\
  load 4 (contents one_free_heap) (4240 - 8) = 34 /\
  load 4 (contents one_free_heap) (4208 - 4) = 34 /\
  load 4 (contents one_free_heap) (4272 - 4) = 35.
Proof. conjs; vm_compute; reflexivity. Qed.

Lemma free_merges_with_prev_witness :
  exists m',
    free 4240 one_free_heap = Ok tt (set_contents one_free_heap m') /\
    load 4 m' (4208 - 4) = 32 + 32 + 2 /\
    load 4 m' (4272 - 8) = 32 + 32 + 2 /\
    load 4 m' (4272 - 4) = 32 + 1 /\
    free_lists (set_contents one_free_heap m') (just 0 [4208; 4336]).
Proof.
  destruct one_free_heap_list as (Elo & Ebrk & Ehp & _).
  destruct one_free_heap_front as (Eh & Ef & Ep & En).
  pose proof (free_merges_with_prev one_free_heap (just 0 [4208; 4336]) 4240) as P.
  cbv zeta in P. rewrite Eh, Ef in P.
  change (Z.land 33 (2 ^ 32 - 8)) with 32 in P.
  change (Z.land 34 (2 ^ 32 - 8)) with 32 in P.
  change (4240 - 32) with 4208 in P. change (4240 + 32) with 4272 in P.
  rewrite Ep, En in P.
  change (Z.land 34 (2 ^ 32 - 8)) with 32 in P.
  change (Z.land 35 (2 ^ 32 - 8)) with 32 in P.
  change (Z.land 34 2) with 2 in P.
  rewrite Ehp, Elo, Ebrk in P.
  destruct P as (m' & Hrun & H1 & H2 & H3 & HL & _).
  - lia.
  - lia.
  - lia.
  - unfold MIN_BLOCK_SIZE. lia.
  - unfold MIN_BLOCK_SIZE. lia.
  - lia.
  - lia.
  - reflexivity.
  - reflexivity.
  - reflexivity.
  - exact one_free_heap_lists.
  - left. reflexivity.
  - intros i x Hi Hx. unfold just in Hx.
    destruct (i =? 0); [|destruct Hx].
    destruct Hx as [<-|[<-|[]]]; lia.
  - exists m'. conjs; try assumption.
    apply (free_lists_ext _ (push (get_index (32 + 32)) 4208 (drop 4208 (just 0 [4208; 4336]))));
      [|exact HL].
    intros i Hi. unfold push, drop, just.
    destruct (Z.eqb_spec i 0) as [->|Hne]; [reflexivity|].
    change (get_index (32 + 32)) with 0.
    destruct (Z.eqb_spec i 0); [contradiction | reflexivity].
Defined.

(** *** A heap without a free block, an exhausted heap, a cyclic list *)

Lemma full_heap_facts :
  mem_start_brk full_heap = 4096 /\
  mem_brk full_heap = 4376 /\
  mem_max_addr full_heap = 1052672 /\
  heap_ptr full_heap = 4096 /\
  load 4 (contents full_heap) (4376 - 4) = 3 /\
  load 8 (contents full_heap) (4096 + 8) = NULL.
Proof. conjs; vm_compute; reflexivity. Qed.

Lemma extend_heap_appends_witness :
  exists h',
    extend_heap 168 full_heap = Ok 4376 h' /\
    mem_brk h' = 4376 + 168 /\
    load 4 (contents h') (4376 - 4) = 168 + 2 /\
    load 4 (contents h') (4376 + 168 - 4) = 1 /\
    load 8 (contents h') (4096 + 8) = 4376.
Proof.
  destruct full_heap_facts as (Elo & Ebrk & Emax & Ehp & Eh & Ehd).
  pose proof (extend_heap_appends full_heap 168) as P.
  cbv zeta in P. rewrite Ehp, Elo, Ebrk, Emax, Eh in P.
  change (find_list_by_size 168) with 8 in P. rewrite Ehd in P.
  destruct P as (h' & Hrun & H1 & H2 & _ & H4 & H5 & _);
    [ solve [ lia | reflexivity | unfold MIN_BLOCK_SIZE; lia | left; reflexivity ] .. | ].
  exists h'. conjs; assumption.
Defined.

Lemma out_of_memory_returns_null_witness :
  malloc 16 1000 oom_heap = Ok NULL oom_heap /\
  realloc 16 4208 1000 oom_heap = Ok NULL oom_heap.
Proof.
  assert (F : find_fit 16 (malloc_asize 1000) oom_heap = Ok NULL oom_heap) by by_eval.
  assert (B : mem_brk oom_heap = 4376) by by_eval.
  assert (X : mem_max_addr oom_heap = 4376) by by_eval.
  assert (A : malloc_asize 1000 = 1008) by by_eval.
  assert (V : valid oom_heap (HDRP 4208) 4 = true) by by_eval.
  assert (S : Z.land (load 4 (contents oom_heap) (HDRP 4208)) (2 ^ 32 - 8) = 104)
    by by_eval.
  pose proof (out_of_memory_returns_null 16 1000 oom_heap) as P.
  rewrite A, B, X in P.
  destruct P as [P1 P2].
  - lia.
  - rewrite <- A. exact F.
  - unfold CHUNKSIZE. lia.
  - split; [exact P1|].
    apply P2.
    + unfold NULL. lia.
    + exact V.
    + rewrite S. unfold OVERHEAD, wrap32. change ((104 - 8) mod 2 ^ 32) with 96. lia.
Defined.

Lemma check_for_cycle_never_returns_witness :
  check_for_cycle 1000 cyclic_heap = OutOfFuel.
Proof.
  destruct cyclic_heap_links as (Hp & H0 & H1 & H2).
  assert (V0 : valid cyclic_heap 4096 8 = true) by by_eval.
  assert (V1 : valid cyclic_heap 4208 8 = true) by by_eval.
  assert (V2 : valid cyclic_heap 4272 8 = true) by by_eval.
  unfold GET, load_at in H0, H1, H2. rewrite V0 in H0. rewrite V1 in H1. rewrite V2 in H2.
  apply (check_for_cycle_never_returns cyclic_heap 0).
  - lia.
  - rewrite Hp. lia.
  - rewrite Hp. lia.
  - intros j Hj. lia.
  - intros m. rewrite Hp. change (4096 + 8 * 0) with 4096.
    rewrite nth_next_S.
    destruct (cyclic_heap_orbit m) as [-> | [-> | ->]]; unfold NULL; conjs;
      solve [lia | assumption | congruence].
Defined.
